(** * denorunner: a Go supervisor for Deno "lambda" functions

    A shallow embedding of the Go package [denorunner] (the instance code,
    util.go and the embedded wrapper template) together with the properties
    of its function-instance lifecycle: content-addressed working directory, port
    allocation, process spawn and rollback, readiness polling, invocation and
    response classification, log draining and invocation serialisation.

    Go values are modelled as follows.  A Go [string] is a byte sequence and
    is a Rocq [string]; a Go [int] is a [Z] (64-bit wrap-around written out
    where arithmetic is done); [map[int]bool] and the file system are
    [gmap]s; [error] values are a small inductive type mirroring the
    constructors the package uses; effects on the operating system are threaded
    through an explicit [World]. *)

From Stdlib Require Import ZArith List String Ascii Bool Lia.
From stdpp Require Import base option gmap strings list fin_maps.

Import ListNotations.

Local Open Scope string_scope.
Local Open Scope list_scope.

(** ** Go's [error] values *)

(** [errors.New], [errors.Wrap] (github.com/pkg/errors), [fmt.Errorf] and
    errors handed back by the Go runtime or the operating system. *)
Inductive error : Type :=
| errors_New (msg : string)
| errors_Wrap (cause : error) (msg : string)
| fmt_Errorf (msg : string)
| sys_error (msg : string).

(** [err.Error()]: a wrapped error prints as "msg: cause". *)
Fixpoint Error (e : error) : string :=
  match e with
  | errors_New m => m
  | errors_Wrap c m => m +:+ ": " +:+ Error c
  | fmt_Errorf m => m
  | sys_error m => m
  end.

(** Results of fallible Go functions, [(T, error)]. *)
Inductive result (A : Type) : Type :=
| Ok (a : A)
| Err (e : error).
Arguments Ok {A} a.
Arguments Err {A} e.

(** ** Bytes, hexadecimal and decimal formatting *)

Definition newline : string := String (ascii_of_nat 10) EmptyString.
Definition dquote : string := String (ascii_of_nat 34) EmptyString.

Fixpoint bytes_of_string (s : string) : list Z :=
  match s with
  | EmptyString => []
  | String c s' => Z.of_N (N_of_ascii c) :: bytes_of_string s'
  end.

Definition hex_digit (d : Z) : ascii :=
  if (d <? 10)%Z then ascii_of_N (Z.to_N (48 + d)) else ascii_of_N (Z.to_N (87 + d)).

(** [fmt.Sprintf("%x", bs)] for a byte slice: two lower-case digits a byte. *)
Fixpoint sprintf_x (bs : list Z) : string :=
  match bs with
  | [] => EmptyString
  | b :: bs' => String (hex_digit (b / 16)) (String (hex_digit (b mod 16)) (sprintf_x bs'))
  end.

Fixpoint digits_of_pos (fuel : nat) (n : Z) (acc : string) : string :=
  match fuel with
  | O => acc
  | S fuel' =>
      let acc' := String (ascii_of_N (Z.to_N (48 + n mod 10))) acc in
      if (n / 10 =? 0)%Z then acc' else digits_of_pos fuel' (n / 10) acc'
  end.

(** [fmt.Sprintf("%d", n)]. *)
Definition sprintf_d (n : Z) : string :=
  if (n <? 0)%Z
  then "-" +:+ digits_of_pos (S (Z.to_nat (Z.log2 (- n)))) (- n) EmptyString
  else digits_of_pos (S (Z.to_nat (Z.log2 n))) n EmptyString.

(** ** crypto/sha1 *)

Module Sha1.
Local Open Scope Z_scope.

Definition add32 (a b : Z) : Z := (a + b) mod 2 ^ 32.
Definition not32 (a : Z) : Z := Z.lxor a 0xFFFFFFFF.
Definition RotateLeft32 (x : Z) (k : Z) : Z :=
  Z.lor (Z.shiftl x k mod 2 ^ 32) (Z.shiftr x (32 - k)).

(** Padding: a 1 bit, zeros up to 56 mod 64, then the bit length on 8 bytes. *)
Definition be_bytes (n : nat) (v : Z) : list Z :=
  map (fun i => Z.shiftr v (8 * Z.of_nat i) mod 256) (rev (seq 0 n)).

Definition pad (msg : list Z) : list Z :=
  let len := Z.of_nat (length msg) in
  msg ++ [0x80] ++ repeat 0 (Z.to_nat ((55 - len) mod 64)) ++ be_bytes 8 (8 * len).

Fixpoint words (fuel : nat) (bs : list Z) : list Z :=
  match fuel, bs with
  | S fuel', b0 :: b1 :: b2 :: b3 :: rest =>
      Z.lor (Z.shiftl b0 24) (Z.lor (Z.shiftl b1 16) (Z.lor (Z.shiftl b2 8) b3))
      :: words fuel' rest
  | _, _ => []
  end.

(** The 80-word message schedule of one block. *)
Fixpoint schedule (n : nat) (w : list Z) : list Z :=
  match n with
  | O => w
  | S n' =>
      let t := length w in
      let x := Z.lxor (Z.lxor (nth (t - 3) w 0) (nth (t - 8) w 0))
                      (Z.lxor (nth (t - 14) w 0) (nth (t - 16) w 0)) in
      schedule n' (w ++ [RotateLeft32 x 1])
  end.

Record digest := { h0 : Z; h1 : Z; h2 : Z; h3 : Z; h4 : Z }.

Definition init : digest :=
  {| h0 := 0x67452301; h1 := 0xEFCDAB89; h2 := 0x98BADCFE;
     h3 := 0x10325476; h4 := 0xC3D2E1F0 |}.

Definition round (i : nat) (wi : Z) (s : digest) : digest :=
  let '(Build_digest a b c d e) := s in
  let '(f, k) :=
    if (i <? 20)%nat then (Z.lor (Z.land b c) (Z.land (not32 b) d), 0x5A827999)
    else if (i <? 40)%nat then (Z.lxor (Z.lxor b c) d, 0x6ED9EBA1)
    else if (i <? 60)%nat
         then (Z.lor (Z.lor (Z.land b c) (Z.land b d)) (Z.land c d), 0x8F1BBCDC)
    else (Z.lxor (Z.lxor b c) d, 0xCA62C1D6) in
  let t := add32 (add32 (add32 (add32 (RotateLeft32 a 5) f) e) wi) k in
  Build_digest t a (RotateLeft32 b 30) c d.

Fixpoint rounds (i : nat) (ws : list Z) (s : digest) : digest :=
  match ws with
  | [] => s
  | wi :: ws' => rounds (S i) ws' (round i wi s)
  end.

Definition block (s : digest) (p : list Z) : digest :=
  let r := rounds 0 (schedule 64 (words 16 p)) s in
  Build_digest (add32 (h0 s) (h0 r)) (add32 (h1 s) (h1 r)) (add32 (h2 s) (h2 r))
               (add32 (h3 s) (h3 r)) (add32 (h4 s) (h4 r)).

Fixpoint blocks (fuel : nat) (s : digest) (bs : list Z) : digest :=
  match fuel, bs with
  | S fuel', _ :: _ => blocks fuel' (block s (firstn 64 bs)) (skipn 64 bs)
  | _, _ => s
  end.

(** [h := sha1.New(); h.Write(msg); h.Sum(nil)]: the 20 digest bytes. *)
Definition Sum (msg : list Z) : list Z :=
  let p := pad msg in
  let s := blocks (length p) init p in
  be_bytes 4 (h0 s) ++ be_bytes 4 (h1 s) ++ be_bytes 4 (h2 s)
  ++ be_bytes 4 (h3 s) ++ be_bytes 4 (h4 s).
End Sha1.

(** ** The function hash and the working directory *)

Definition functionHash := string.

(** Generates a content-based hash to be used as unique identifier for this
    function. *)
Definition newFunctionHash (code : string) : functionHash :=
  sprintf_x (Sha1.Sum (bytes_of_string code)).

Record Config := { WorkDir : string; DenoPath : string }.

(** [fmt.Sprintf("%s/.deno/function-%s", config.WorkDir, newFunctionHash(code))] *)
Definition denoDir (config : Config) (code : string) : string :=
  WorkDir config +:+ "/.deno/function-" +:+ newFunctionHash code.

(** ** The port allocator (util.go) *)

Module Port.
Local Open Scope Z_scope.

(** Go's [int] on a 64-bit platform: sums wrap around. *)
Definition wrap64 (z : Z) : Z := (z + 2 ^ 63) mod 2 ^ 64 - 2 ^ 63.

(** math/rand after [rand.Seed(time.Now().UnixNano())]: the seed is the
    wall clock, so the stream of raw draws is an input of the model. *)
Record Rand := { raw : nat -> Z; pos : nat }.

(** [rand.Intn(n)], a value in [0, n). *)
Definition Intn (n : Z) (r : Rand) : Z * Rand :=
  (raw r (pos r) mod n, {| raw := raw r; pos := S (pos r) |}).

(** [net.Listen("tcp", "0.0.0.0:<port>")] succeeds or not according to the
    operating system; the oracle is asked with the value of [iterations]
    at the time of the call and the port. *)
Definition Listener := Z -> Z -> bool.

(** [handedOutPorts[port]]: a missing key reads as [false]. *)
Definition handedOut (handedOutPorts : gmap Z bool) (port : Z) : bool :=
  default false (handedOutPorts !! port).

(** The body of [for { ... }] in [FindFreePort]. *)
Fixpoint FindFreePort_loop (fuel : nat) (listen : Listener) (startPort : Z)
    (rnd : Rand) (handedOutPorts : gmap Z bool) (port iterations : Z)
    : option (Z * gmap Z bool) :=
  match fuel with
  | O => None
  | S fuel' =>
      if negb (handedOut handedOutPorts port) && listen iterations port
      then Some (port, <[port := true]> handedOutPorts)
      else
        let '(off, rnd') := Intn 10000 rnd in
        let port' := wrap64 (startPort + off) in
        let iterations' := iterations + 1 in
        if iterations' >? 1000
        then Some (-1, handedOutPorts)      (* Let's not go too crazy *)
        else FindFreePort_loop fuel' listen startPort rnd' handedOutPorts
                               port' iterations'
  end.

Definition FindFreePort (fuel : nat) (rnd : Rand) (listen : Listener)
    (startPort : Z) (handedOutPorts : gmap Z bool) : option (Z * gmap Z bool) :=
  let '(off, rnd') := Intn 10000 rnd in
  let port := wrap64 (startPort + off) in
  FindFreePort_loop fuel listen startPort rnd' handedOutPorts port 0.

(** The loop needs at most 1001 rounds. *)
Definition budget : nat := 1001.

(** The port tried in round [k] of a call, [k] being the value of
    [iterations]: the base plus the [k]-th draw. *)
Definition candidate (startPort : Z) (rnd : Rand) (k : nat) : Z :=
  wrap64 (startPort + raw rnd (pos rnd + k)%nat mod 10000).

(** Round [k] does not return: the port was handed out before, or the bind
    fails. *)
Definition refused (listen : Listener) (startPort : Z) (rnd : Rand)
    (handedOutPorts : gmap Z bool) (k : nat) : Prop :=
  handedOut handedOutPorts (candidate startPort rnd k) = true
  \/ listen (Z.of_nat k) (candidate startPort rnd k) = false.

(** One call of the allocator as the process sees it. *)
Record Call := { c_rnd : Rand; c_listen : Listener; c_start : Z }.

(** Successive calls during one process lifetime share [handedOutPorts]. *)
Fixpoint lifetime (calls : list Call) (handedOutPorts : gmap Z bool)
    : option (list Z * gmap Z bool) :=
  match calls with
  | [] => Some ([], handedOutPorts)
  | c :: cs =>
      match FindFreePort budget (c_rnd c) (c_listen c) (c_start c) handedOutPorts with
      | None => None
      | Some (p, m') =>
          match lifetime cs m' with
          | None => None
          | Some (ps, m'') => Some (p :: ps, m'')
          end
      end
  end.
End Port.


(** ** JSON values and the boundary to Go's standard library *)

(** A decoded JSON value, as decoding into an [interface{}] gives it:
    objects are [map[string]interface{}], numbers are [float64] (kept as the
    64 bits of their IEEE-754 encoding). *)
Definition float64 := Z.

#[warnings="-register-all"]
Inductive json : Type :=
| JNull
| JBool (b : bool)
| JNumber (f : float64)
| JString (s : string)
| JArray (l : list json)
| JObject (m : gmap string json).

(** The local struct [jsError] of [Invoke]. *)
Record jsError := { Message : string; Stack : string }.

(** What the package takes from outside its own source: encoding/json,
    net/url (through [http.NewRequestWithContext]) and the embedded
    [deno-runtime-template/*.ts] files.  The package's functions are
    written against this interface, and the theorems hold for every
    implementation of it. *)
Class Extern := {
  (** [json.Marshal(v)] *)
  json_Marshal : json -> result string;
  (** [json.NewDecoder(body).Decode(&result)] with [result] an [interface{}] *)
  json_Decode : string -> result json;
  (** [json.Unmarshal(data, &jsError)] *)
  json_Unmarshal_jsError : string -> result jsError;
  (** the URL check of [http.NewRequestWithContext]: [None] when it parses *)
  url_Parse : string -> option error;
  (** [//go:embed deno-runtime-template/*.ts]: file names and contents *)
  denoFiles : list (string * string)
}.

(** ** The operating system *)

Inductive node : Type :=
| Dir
| File (content : string).

(** How a child process ended ([os.ProcessState]). *)
Inductive WaitStatus : Type :=
| WExited (code : Z)
| WSignaled (sig : Z).

(** [ProcessState.Exited()]: "reports whether the program has exited. On Unix
    systems this reports true if the program exited due to calling exit, but
    false if the program terminated due to a signal." *)
Definition Exited (ps : WaitStatus) : bool :=
  match ps with
  | WExited _ => true
  | WSignaled _ => false
  end.

Inductive ProcStatus : Type :=
| Running
| Terminated (ws : WaitStatus).

Record Request := { Method : string; URL : string; ReqBody : string }.

Record Response := { StatusCode : Z; Body : string }.

(** System calls that the environment may refuse. *)
Inductive Op : Type :=
| OpMkdir (path : string)
| OpWriteFile (path : string)
| OpWrite (path : string) (written : nat)
| OpClose (path : string)
| OpRemoveAll (path : string)
| OpPipe (name : string)
| OpStart (path : string).

(** Actions of the package that are visible outside the Go process. *)
Inductive Event : Type :=
| EvSpawn (pid : Z) (path : string) (args : list string) (env : list string)
| EvKill (pid : Z)
| EvDial (addr : string)
| EvSleep (nanoseconds : Z)
| EvHTTP (req : Request).

(** The machine.  [w_fs] maps a path, as the program spells it, to what is
    there: a file is found under one spelling, and the model neither
    identifies two spellings of one path ([a//b], [a/./b], [a/b]) nor knows
    links.  [w_executables] holds the commands that can be run, under the
    name they are asked for. *)
Record World := {
  w_fs : gmap string node;
  w_fault : Op -> option error;
  w_executables : gset string;
  w_procs : gmap Z ProcStatus;
  w_next_pid : Z;
  w_handedOutPorts : gmap Z bool;
  w_stdout : list string;
  w_trace : list Event
}.

Definition with_fs (fs : gmap string node) (w : World) : World :=
  {| w_fs := fs; w_fault := w_fault w; w_executables := w_executables w;
     w_procs := w_procs w; w_next_pid := w_next_pid w;
     w_handedOutPorts := w_handedOutPorts w; w_stdout := w_stdout w;
     w_trace := w_trace w |}.

Definition with_procs (procs : gmap Z ProcStatus) (next : Z) (w : World) : World :=
  {| w_fs := w_fs w; w_fault := w_fault w; w_executables := w_executables w;
     w_procs := procs; w_next_pid := next;
     w_handedOutPorts := w_handedOutPorts w; w_stdout := w_stdout w;
     w_trace := w_trace w |}.

Definition with_handedOutPorts (m : gmap Z bool) (w : World) : World :=
  {| w_fs := w_fs w; w_fault := w_fault w; w_executables := w_executables w;
     w_procs := w_procs w; w_next_pid := w_next_pid w;
     w_handedOutPorts := m; w_stdout := w_stdout w;
     w_trace := w_trace w |}.

(** [fmt.Printf]: one more chunk on standard output. *)
Definition Printf (s : string) (w : World) : World :=
  {| w_fs := w_fs w; w_fault := w_fault w; w_executables := w_executables w;
     w_procs := w_procs w; w_next_pid := w_next_pid w;
     w_handedOutPorts := w_handedOutPorts w; w_stdout := w_stdout w ++ [s];
     w_trace := w_trace w |}.

Definition emit (e : Event) (w : World) : World :=
  {| w_fs := w_fs w; w_fault := w_fault w; w_executables := w_executables w;
     w_procs := w_procs w; w_next_pid := w_next_pid w;
     w_handedOutPorts := w_handedOutPorts w; w_stdout := w_stdout w;
     w_trace := w_trace w ++ [e] |}.

(** *** Paths and the file system *)

Definition IsPathSeparator (c : ascii) : bool := Ascii.eqb c "/"%char.

Fixpoint drop_while (p : ascii -> bool) (l : list ascii) : list ascii :=
  match l with
  | [] => []
  | c :: l' => if p c then drop_while p l' else l
  end.

(** The parent that [os.MkdirAll] creates first: skip trailing separators
    (index [i]), scan backward over the last element (index [j]); the parent
    is [path[:j-1]] when [j > 1]. *)
Definition parent (path : string) : option string :=
  let upto_i := drop_while IsPathSeparator (rev (list_ascii_of_string path)) in
  let upto_j := drop_while (fun c => negb (IsPathSeparator c)) upto_i in
  if (1 <? length upto_j)%nat
  then Some (string_of_list_ascii (rev (tl upto_j)))
  else None.

(** [os.Mkdir]. *)
Definition os_Mkdir (path : string) (w : World) : option error * World :=
  match w_fault w (OpMkdir path) with
  | Some e => (Some e, w)
  | None =>
      match w_fs w !! path with
      | Some _ => (Some (sys_error ("mkdir " +:+ path +:+ ": file exists")), w)
      | None => (None, with_fs (<[path := Dir]> (w_fs w)) w)
      end
  end.

(** [os.MkdirAll]: an existing directory is a success with no effect, an
    existing file an error; otherwise the parent is made first, then the
    directory itself, and an error of [Mkdir] is forgiven when the directory
    is there after all. *)
Fixpoint os_MkdirAll_rec (fuel : nat) (path : string) (w : World)
    : option (option error * World) :=
  match fuel with
  | O => None
  | S fuel' =>
      match w_fs w !! path with
      | Some Dir => Some (None, w)
      | Some (File _) =>
          Some (Some (sys_error ("mkdir " +:+ path +:+ ": not a directory")), w)
      | None =>
          match
            match parent path with
            | Some up => os_MkdirAll_rec fuel' up w
            | None => Some (None, w)
            end
          with
          | None => None
          | Some (Some e, w') => Some (Some e, w')
          | Some (None, w') =>
              match os_Mkdir path w' with
              | (Some e, w'') =>
                  match w_fs w'' !! path with
                  | Some Dir => Some (None, w'')
                  | _ => Some (Some e, w'')
                  end
              | (None, w'') => Some (None, w'')
              end
          end
      end
  end.

Definition os_MkdirAll (path : string) (w : World) : option (option error * World) :=
  os_MkdirAll_rec (S (String.length path)) path w.

(** The first of the byte counts [ns] after which the system refuses to go
    on writing to [path]. *)
Fixpoint short_write (fault : Op -> option error) (path : string) (ns : list nat)
    : option (nat * error) :=
  match ns with
  | [] => None
  | n :: ns' =>
      match fault (OpWrite path n) with
      | Some e => Some (n, e)
      | None => short_write fault path ns'
      end
  end.

(** [f.Write(data)] and [f.Close()] on the file just opened with
    [O_CREATE|O_TRUNC]: the file is there and empty from the open on; a write
    that fails leaves the bytes written so far, and the error of the close
    comes after all of them. *)
Definition write_and_close (path : string) (data : string) (w : World)
    : option error * World :=
  match short_write (w_fault w) path (seq 0 (String.length data)) with
  | Some (n, e) =>
      (Some e, with_fs (<[path := File (substring 0 n data)]> (w_fs w)) w)
  | None =>
      (w_fault w (OpClose path), with_fs (<[path := File data]> (w_fs w)) w)
  end.

(** [os.WriteFile]: [OpenFile(name, O_WRONLY|O_CREATE|O_TRUNC, perm)], then
    [Write], then [Close].  The open fails, changing nothing, when the system
    refuses, when the path is a directory or when the directory it lies in is
    missing. *)
Definition os_WriteFile (path : string) (data : string) (w : World)
    : option error * World :=
  match w_fault w (OpWriteFile path) with
  | Some e => (Some e, w)
  | None =>
      match w_fs w !! path with
      | Some Dir => (Some (sys_error ("open " +:+ path +:+ ": is a directory")), w)
      | _ =>
          match parent path with
          | Some up =>
              match w_fs w !! up with
              | Some Dir => write_and_close path data w
              | _ => (Some (sys_error ("open " +:+ path +:+ ": no such file or directory")), w)
              end
          | None => write_and_close path data w
          end
      end
  end.

(** [k] is [path] or lies below it, by the spelling. *)
Definition under (path k : string) : bool :=
  String.eqb path k || String.prefix (path +:+ "/") k.

(** [endsWithDot] of os/removeall: the path is "." or ends in "/.". *)
Definition endsWithDot (path : string) : bool :=
  match rev (list_ascii_of_string path) with
  | [] => false
  | c :: before =>
      Ascii.eqb c "."%char
      && match before with
         | [] => true
         | d :: _ => IsPathSeparator d
         end
  end.

(** [os.RemoveAll]: removes [path] and everything below it; a missing path is
    no error.  The empty path is a success that removes nothing ("fail
    silently to retain compatibility"), and a path that ends in a dot is
    refused, as rmdir refuses it. *)
Definition os_RemoveAll (path : string) (w : World) : option error * World :=
  if String.eqb path EmptyString
  then (None, w)
  else if endsWithDot path
  then (Some (sys_error ("RemoveAll " +:+ path +:+ ": invalid argument")), w)
  else
    match w_fault w (OpRemoveAll path) with
    | Some e => (Some e, w)
    | None => (None, with_fs (filter (fun kv => negb (under path kv.1)) (w_fs w)) w)
    end.

(** ** util.go: JSON helpers *)

Section Package.
Context `{Extern}.

(** [MustJsonByteSlice]: a serialization error is printed, and the (nil)
    buffer returned all the same. *)
Definition MustJsonByteSlice (v : json) (w : World) : string * World :=
  match json_Marshal v with
  | Ok buf => (buf, w)
  | Err err =>
      (EmptyString, Printf ("JSON serialization error: " +:+ Error err +:+ newline) w)
  end.

Definition MustJsonString (v : json) (w : World) : string * World :=
  MustJsonByteSlice v w.

(** ** Materialising the function *)

(** [copyDenoFiles]: every embedded file is written under [destDir]. *)
Fixpoint copyDenoFiles_range (dirEntries : list (string * string)) (destDir : string)
    (w : World) : option error * World :=
  match dirEntries with
  | [] => (None, w)
  | (name, buf) :: rest =>
      match os_WriteFile (destDir +:+ "/" +:+ name) buf w with
      | (Some err, w') => (Some (errors_Wrap err "write file"), w')
      | (None, w') => copyDenoFiles_range rest destDir w'
      end
  end.

Definition copyDenoFiles (destDir : string) (w : World) : option error * World :=
  copyDenoFiles_range denoFiles destDir w.

(** deno-runtime-template/template.js, cut at its two actions. *)
Definition denoFunctionTemplate_1 : string :=
"

var _init, _start, _run, _stop, _handle;
(function() {
    var initData = ".

Definition denoFunctionTemplate_2 : string :=
";
    // Initialization
    try {
        _init = init.bind(null, initData);
    } catch (e) {
        _init = () => {
        };
    }

    try {
        _handle = handle;
    } catch (e) {
        _handle = () => {
        };
    }
})();


export {
    _init as init,
    _handle as handle
};".

(** [wrapScript]: text/template writes both strings as they are. *)
Definition wrapScript (initJSON : string) (code : string) : string :=
  code +:+ denoFunctionTemplate_1 +:+ initJSON +:+ denoFunctionTemplate_2.

(** ** The instance *)

(** [exec.Cmd], the fields the package touches.  [Args] holds "the command
    line arguments, including the command as Args[0]"; [cmd.Path], which
    [exec.Command] looks up in the directories of [$PATH] when the command is
    a bare name, is not modelled: a command is started under its name. *)
Record Cmd := {
  Args : list string;
  Env : list string;
  Setpgid : bool;
  Process : option Z;
  ProcessState : option WaitStatus
}.

(** [DenoFunctionInstance].  [denoExited] is a channel of capacity one:
    [None] when empty, [Some v] when it holds [v]. *)
Record DenoFunctionInstance := {
  config : Config;
  cmd : Cmd;
  lastInvoked : Z;
  runLock : bool;
  serverURL : string;
  tempDir : string;
  denoExited : option (option error)
}.

Definition with_cmd (c : Cmd) (inst : DenoFunctionInstance) : DenoFunctionInstance :=
  {| config := config inst; cmd := c; lastInvoked := lastInvoked inst;
     runLock := runLock inst; serverURL := serverURL inst; tempDir := tempDir inst;
     denoExited := denoExited inst |}.

Definition with_lastInvoked (t : Z) (inst : DenoFunctionInstance) : DenoFunctionInstance :=
  {| config := config inst; cmd := cmd inst; lastInvoked := t;
     runLock := runLock inst; serverURL := serverURL inst; tempDir := tempDir inst;
     denoExited := denoExited inst |}.

Definition with_runLock (b : bool) (inst : DenoFunctionInstance) : DenoFunctionInstance :=
  {| config := config inst; cmd := cmd inst; lastInvoked := lastInvoked inst;
     runLock := b; serverURL := serverURL inst; tempDir := tempDir inst;
     denoExited := denoExited inst |}.

Definition with_serverURL (u : string) (inst : DenoFunctionInstance) : DenoFunctionInstance :=
  {| config := config inst; cmd := cmd inst; lastInvoked := lastInvoked inst;
     runLock := runLock inst; serverURL := u; tempDir := tempDir inst;
     denoExited := denoExited inst |}.

Definition with_tempDir (d : string) (inst : DenoFunctionInstance) : DenoFunctionInstance :=
  {| config := config inst; cmd := cmd inst; lastInvoked := lastInvoked inst;
     runLock := runLock inst; serverURL := serverURL inst; tempDir := d;
     denoExited := denoExited inst |}.

Definition with_denoExited (ch : option (option error)) (inst : DenoFunctionInstance)
    : DenoFunctionInstance :=
  {| config := config inst; cmd := cmd inst; lastInvoked := lastInvoked inst;
     runLock := runLock inst; serverURL := serverURL inst; tempDir := tempDir inst;
     denoExited := ch |}.

Definition LastInvoked (inst : DenoFunctionInstance) : Z := lastInvoked inst.

Definition DidExit (inst : DenoFunctionInstance) : option (option error) := denoExited inst.

(** [exec.Command(name, arg...)]. *)
Definition exec_Command (name : string) (arg : list string) : Cmd :=
  {| Args := name :: arg; Env := []; Setpgid := false;
     Process := None; ProcessState := None |}.

(** The command of [c], [c.Args[0]]. *)
Definition command (c : Cmd) : string := hd EmptyString (Args c).

Fixpoint take_while (p : ascii -> bool) (l : list ascii) : list ascii :=
  match l with
  | [] => []
  | c :: l' => if p c then c :: take_while p l' else []
  end.

(** [filepath.Base]: the last element of the path, trailing separators
    removed; "." for the empty path, "/" for a path of separators only. *)
Definition filepath_Base (path : string) : string :=
  match path with
  | EmptyString => "."
  | _ =>
      let stripped := drop_while IsPathSeparator (rev (list_ascii_of_string path)) in
      match take_while (fun c => negb (IsPathSeparator c)) stripped with
      | [] => "/"
      | last => string_of_list_ascii (rev last)
      end
  end.

(** The error of a command that cannot be found.  [exec.Command] looks a
    bare name ([filepath.Base(name) == name]) up in [$PATH] and [Start]
    returns the error of that lookup; any other name goes to the system as it
    is, which answers for a missing file. *)
Definition not_found (name : string) : error :=
  if String.eqb (filepath_Base name) name
  then sys_error ("exec: " +:+ dquote +:+ name +:+ dquote
                  +:+ ": executable file not found in $PATH")
  else sys_error ("fork/exec " +:+ name +:+ ": no such file or directory").

(** [cmd.Start()]: fails when the command cannot be found, or when the
    system refuses; otherwise a new process runs.  [w_executables] holds the
    commands that can be run, under the name they are asked for: the path of
    an executable file, or a bare name that the lookup in [$PATH] finds. *)
Definition cmd_Start (c : Cmd) (w : World) : option error * Cmd * World :=
  if negb (bool_decide (command c ∈ w_executables w))
  then (Some (not_found (command c)), c, w)
  else
    match w_fault w (OpStart (command c)) with
    | Some e => (Some e, c, w)
    | None =>
        let pid := w_next_pid w in
        let c' := {| Args := Args c; Env := Env c; Setpgid := Setpgid c;
                     Process := Some pid; ProcessState := ProcessState c |} in
        (None, c',
         emit (EvSpawn pid (command c) (Args c) (Env c))
              (with_procs (<[pid := Running]> (w_procs w)) (pid + 1)%Z w))
    end.

(** [Process.Kill()]: SIGKILL reaches a process that still runs; the error
    for one that is gone is dropped by the caller. *)
Definition Process_Kill (pid : Z) (w : World) : World :=
  match w_procs w !! pid with
  | Some Running =>
      emit (EvKill pid)
           (with_procs (<[pid := Terminated (WSignaled 9)]> (w_procs w)) (w_next_pid w) w)
  | _ => emit (EvKill pid) w
  end.

(** [syscall.Signal.String()] on Linux: the name of the signals 1 to 15, and
    "signal <n>" for a number without a name here. *)
Definition signal_name (sig : Z) : string :=
  match sig with
  | 1 => "hangup"
  | 2 => "interrupt"
  | 3 => "quit"
  | 4 => "illegal instruction"
  | 5 => "trace/breakpoint trap"
  | 6 => "aborted"
  | 7 => "bus error"
  | 8 => "floating point exception"
  | 9 => "killed"
  | 10 => "user defined signal 1"
  | 11 => "segmentation fault"
  | 12 => "user defined signal 2"
  | 13 => "broken pipe"
  | 14 => "alarm clock"
  | 15 => "terminated"
  | _ => "signal " +:+ sprintf_d sig
  end%Z.

(** What [cmd.Wait()] returns for a finished child: nothing after [exit(0)],
    otherwise an [*exec.ExitError] whose text is that of the process state. *)
Definition Wait_error (ws : WaitStatus) : option error :=
  match ws with
  | WExited 0 => None
  | WExited code => Some (sys_error ("exit status " +:+ sprintf_d code))
  | WSignaled sig => Some (sys_error ("signal: " +:+ signal_name sig))
  end.

(** The goroutine [inst.denoExited <- inst.cmd.Wait()]: once the child has
    ended, [Wait] records its state in [cmd.ProcessState] and the result goes
    into the channel.  It runs at most once. *)
Definition waiter (inst : DenoFunctionInstance) (w : World) : DenoFunctionInstance :=
  match Process (cmd inst), ProcessState (cmd inst) with
  | Some pid, None =>
      match w_procs w !! pid with
      | Some (Terminated ws) =>
          let c := cmd inst in
          with_denoExited (Some (Wait_error ws))
            (with_cmd {| Args := Args c; Env := Env c;
                         Setpgid := Setpgid c; Process := Process c;
                         ProcessState := Some ws |} inst)
      | _ => inst
      end
  | _, _ => inst
  end.

(** Somewhat cleanly stop the deno process and clean up the temporary source
    files. *)
Definition Close (inst : DenoFunctionInstance) (w : World) : World :=
  let w1 :=
    match Process (cmd inst) with
    | Some pid => Process_Kill pid w
    | None => w
    end in
  match os_RemoveAll (tempDir inst) w1 with
  | (Some err, w2) =>
      Printf ("Could not delete directory " +:+ tempDir inst +:+ ": " +:+ Error err
              +:+ newline) w2
  | (None, w2) => w2
  end.

(** *** The constructor *)

(** What the environment does while the constructor polls: at each round of
    the wait loop, whether the caller's context is done (and with which
    [ctx.Err()]), whether the child has ended on its own since the [select]
    of the round before, which ready case [select] picks when both are ready
    (Go chooses among ready cases by a uniform pseudo-random selection), and
    whether the TCP connect succeeds. *)
Record Tick := {
  tk_ctx : option error;
  tk_exit : option WaitStatus;
  tk_pick_exit : bool;
  tk_dial : bool
}.

(** [be_late]: the child ends after the last [select] of the wait loop and
    before the constructor returns, where nothing looks at it; with the
    status goes whether the waiting goroutine has taken note by then. *)
Record BootEnv := {
  be_rnd : Port.Rand;
  be_listen : Port.Listener;
  be_ticks : nat -> Tick;
  be_late : option (WaitStatus * bool)
}.

(** The child ends by itself, and the waiting goroutine takes note. *)
Definition child_ends (ws : WaitStatus) (inst : DenoFunctionInstance) (w : World)
    : DenoFunctionInstance * World :=
  match Process (cmd inst) with
  | Some pid =>
      match w_procs w !! pid with
      | Some Running =>
          let w' := with_procs (<[pid := Terminated ws]> (w_procs w)) (w_next_pid w) w in
          (waiter inst w', w')
      | _ => (inst, w)
      end
  | None => (inst, w)
  end.

Inductive selected : Type :=
| SelCtxDone (err : error)
| SelDenoExited (v : option error)
| SelDefault.

(** [select { case <-ctx.Done(): ... case <-inst.denoExited: ... default: }] *)
Definition select (tk : Tick) (inst : DenoFunctionInstance) : selected :=
  match tk_ctx tk, denoExited inst with
  | Some e, Some v => if tk_pick_exit tk then SelDenoExited v else SelCtxDone e
  | Some e, None => SelCtxDone e
  | None, Some v => SelDenoExited v
  | None, None => SelDefault
  end.

Definition Millisecond : Z := 1000000.

(** The outcome of one round of [waitLoop]. *)
Inductive round_result : Type :=
| RoundReturn (err : error)
| RoundBreak
| RoundAgain.

(** What happened outside between the [select] of the round before and the
    one of this round: the child may have ended, during the connect, the
    sleep or at any other moment, and nothing has looked at it in between. *)
Definition meanwhile (tk : Tick) (inst : DenoFunctionInstance) (w : World)
    : DenoFunctionInstance * World :=
  match tk_exit tk with
  | Some ws => child_ends ws inst w
  | None => (inst, w)
  end.

(** What happens outside between the last [select] and the return of the
    constructor: the child may end, and the waiting goroutine may or may not
    have recorded it yet. *)
Definition lately (late : option (WaitStatus * bool)) (inst : DenoFunctionInstance)
    (w : World) : DenoFunctionInstance * World :=
  match late with
  | Some (ws, true) => child_ends ws inst w
  | Some (ws, false) => (inst, (child_ends ws inst w).2)
  | None => (inst, w)
  end.

(** One round of [waitLoop: for { ... }]. *)
Definition waitLoop_round (tk : Tick) (listenPort : Z) (inst : DenoFunctionInstance)
    (w : World) : round_result * DenoFunctionInstance * World :=
  let '(inst, w) := meanwhile tk inst w in
  match select tk inst with
  | SelCtxDone e => (RoundReturn e, inst, w)
  | SelDenoExited _ =>
      (RoundReturn (errors_New "deno exited on boot"), with_denoExited None inst, w)
  | SelDefault =>
      let w := emit (EvDial ("localhost:" +:+ sprintf_d listenPort)) w in
      if tk_dial tk
      then (RoundBreak, inst, w)
      else (RoundAgain, inst, emit (EvSleep (100 * Millisecond)) w)
  end.

(** [waitLoop]: [None] is the error-free exit by [break waitLoop]. *)
Fixpoint waitLoop (fuel : nat) (ticks : nat -> Tick) (i : nat) (listenPort : Z)
    (inst : DenoFunctionInstance) (w : World)
    : option (option error * DenoFunctionInstance * World) :=
  match fuel with
  | O => None
  | S fuel' =>
      match waitLoop_round (ticks i) listenPort inst w with
      | (RoundReturn e, inst', w') => Some (Some e, inst', w')
      | (RoundBreak, inst', w') => Some (None, inst', w')
      | (RoundAgain, inst', w') => waitLoop fuel' ticks (S i) listenPort inst' w'
      end
  end.

Definition newInstance (config : Config) : DenoFunctionInstance :=
  {| config := config; cmd := exec_Command EmptyString []; lastInvoked := 0;
     runLock := false; serverURL := EmptyString; tempDir := EmptyString;
     denoExited := None |}.

(** [NewDenoFunctionInstance].  The result is [None] only when [fuel] rounds
    of the wait loop were not enough. *)
Definition NewDenoFunctionInstance (env : BootEnv) (fuel : nat) (config : Config)
    (initData : json) (code : string) (w : World)
    : option (result DenoFunctionInstance * World) :=
  let inst := newInstance config in
  (* Create deno project for function *)
  let denoDir := denoDir config code in
  match os_MkdirAll denoDir w with
  | None => None
  | Some (Some err, w) => Some (Err (errors_Wrap err "create deno dir"), w)
  | Some (None, w) =>
  let inst := with_tempDir denoDir inst in
  match copyDenoFiles denoDir w with
  | (Some err, w) => Some (Err (errors_Wrap err "copy deno files"), w)
  | (None, w) =>
  let '(initJSON, w) := MustJsonString initData w in
  match os_WriteFile (denoDir +:+ "/function.js") (wrapScript initJSON code) w with
  | (Some err, w) => Some (Err (errors_Wrap err "write JS function file"), w)
  | (None, w) =>
  (* Find an available TCP port to bind the function server to *)
  match Port.FindFreePort Port.budget (be_rnd env) (be_listen env) 8000
                          (w_handedOutPorts w) with
  | None => None
  | Some (listenPort, ports) =>
  let w := with_handedOutPorts ports w in
  (* Run deno as child process with only network and environment variable access *)
  let c := exec_Command (DenoPath config)
             ["run"; "--unstable"; "--allow-net"; "--allow-env";
              denoDir +:+ "/function_server.ts"; sprintf_d listenPort] in
  (* Don't propagate Ctrl-c to children *)
  let c := {| Args := Args c;
              Env := Env c ++ ["NO_COLOR=1";
                               "DENO_DIR=" +:+ WorkDir config +:+ "/.deno/cache"];
              Setpgid := true; Process := Process c;
              ProcessState := ProcessState c |} in
  let inst := with_cmd c inst in
  match w_fault w (OpPipe "stdout") with
  | Some err => Some (Err (errors_Wrap err "stdout pipe"), w)
  | None =>
  match w_fault w (OpPipe "stderr") with
  | Some err => Some (Err (errors_Wrap err "stderr pipe"), w)
  | None =>
  (* Kick off the command in the background *)
  let inst := with_denoExited None inst in
  match cmd_Start (cmd inst) w with
  | (Some err, _, w) => Some (Err (errors_Wrap err "deno run"), w)
  | (None, c, w) =>
  let inst := with_cmd c inst in
  (* From here on a failure kills the subprocess: the deferred function runs
     [inst.Close()] unless [everythingOk] was set.  The waiting goroutine and
     the two log drains are started here. *)
  let inst := with_serverURL ("http://localhost:" +:+ sprintf_d listenPort) inst in
  (* Wait for server to come up *)
  match waitLoop fuel (be_ticks env) 0 listenPort inst w with
  | None => None
  | Some (r, inst, w) =>
      let '(inst, w) := lately (be_late env) inst w in
      match r with
      | Some err =>
          let w :=
            match Process (cmd inst) with
            | Some _ => Close inst w
            | None => w
            end in
          Some (Err err, w)
      | None => Some (Ok inst, w)
      end
  end end end end end end end end.
End Package.

(** ** Invoking the function *)

Section Invocation.
Context `{Extern}.

Definition ProcessExitedError : error := errors_New "process exited".

Definition StatusOK : Z := 200.

(** What one call of [Invoke] gets from outside: the clock, and the answer of
    [http.DefaultClient.Do] to its request (the caller's context is part of
    the request, so a cancelled call is an error here). *)
Record InvokeEnv := {
  ie_now : Z;
  ie_Do : Request -> result Response
}.

(** [http.NewRequestWithContext(ctx, http.MethodPost, url, body)] *)
Definition http_NewRequestWithContext (method url body : string) : result Request :=
  match url_Parse url with
  | Some err => Err err
  | None => Ok {| Method := method; URL := url; ReqBody := body |}
  end.

(** [inst.cmd.ProcessState != nil && inst.cmd.ProcessState.Exited()] *)
Definition processExited (inst : DenoFunctionInstance) : bool :=
  match ProcessState (cmd inst) with
  | Some ps => Exited ps
  | None => false
  end.

(** The part of [Invoke] from [var result interface{}] on: the body of a
    200 response is decoded and an [error] key turned into a failure. *)
Definition decodeResult (resp : Response) (w : World) : result json * World :=
  match json_Decode (Body resp) with
  | Err err => (Err (errors_Wrap err "unmarshall response"), w)
  | Ok result =>
      match result with
      | JObject errorMap =>
          match errorMap !! "error" with
          | Some errorObj =>
              let '(data, w) := MustJsonString errorObj w in
              match json_Unmarshal_jsError data with
              | Err _ =>
                  let '(raw, w) := MustJsonString errorObj w in
                  (Err (fmt_Errorf ("Runtime error: " +:+ raw)), w)
              | Ok jsError =>
                  (Err (fmt_Errorf ("Runtime error: " +:+ Message jsError +:+ newline
                                    +:+ Stack jsError)), w)
              end
          | None => (Ok result, w)
          end
      | _ => (Ok result, w)
      end
  end.

(** The part of [Invoke] after [Do] has answered. *)
Definition classify (resp : Response) (w : World) : result json * World :=
  if negb (StatusCode resp =? StatusOK)%Z
  then (Err (fmt_Errorf ("HTTP Error: " +:+ Body resp)), w)
  else decodeResult resp w.

(** [Invoke] between [Lock] and the deferred [Unlock]. *)
Definition Invoke_locked (env : InvokeEnv) (event : json) (inst : DenoFunctionInstance)
    (w : World) : result json * DenoFunctionInstance * World :=
  let inst := with_lastInvoked (ie_now env) inst in
  if processExited inst
  then (Err ProcessExitedError, inst, w)
  else
    let '(body, w) := MustJsonString event w in
    match http_NewRequestWithContext "POST" (serverURL inst) body with
    | Err err => (Err (errors_Wrap err "invoke call"), inst, w)
    | Ok req =>
        let w := emit (EvHTTP req) w in
        match ie_Do env req with
        | Err err => (Err (errors_Wrap err "function http request"), inst, w)
        | Ok resp =>
            let '(ret, w) := classify resp w in
            (ret, inst, w)
        end
    end.

(** [Invoke].  Instance can only be used sequentially for now: the call takes
    [runLock] and gives it back on return; [None] is a call that waits for the
    lock. *)
Definition Invoke (env : InvokeEnv) (event : json) (inst : DenoFunctionInstance)
    (w : World) : option (result json * DenoFunctionInstance * World) :=
  if runLock inst
  then None
  else
    let '(ret, inst, w) := Invoke_locked env event (with_runLock true inst) w in
    Some (ret, with_runLock false inst, w).

(** *** [Invoke] statement by statement, for concurrent callers *)

(** Where a call of [Invoke] stands. *)
Inductive pc : Type :=
| AtLock
| AtStamp
| AtCheckExited
| AtNewRequest
| AtDo (req : Request)
| AtClassify (resp : Response)
| AtUnlock (ret : result json)
| Returned (ret : result json).

(** The next statement of a call; [None] when the call cannot move (it waits
    for the lock, or has returned). *)
Definition Invoke_step (env : InvokeEnv) (event : json) (p : pc)
    (inst : DenoFunctionInstance) (w : World)
    : option (pc * DenoFunctionInstance * World) :=
  match p with
  | AtLock =>
      if runLock inst then None else Some (AtStamp, with_runLock true inst, w)
  | AtStamp => Some (AtCheckExited, with_lastInvoked (ie_now env) inst, w)
  | AtCheckExited =>
      if processExited inst
      then Some (AtUnlock (Err ProcessExitedError), inst, w)
      else Some (AtNewRequest, inst, w)
  | AtNewRequest =>
      let '(body, w) := MustJsonString event w in
      match http_NewRequestWithContext "POST" (serverURL inst) body with
      | Err err => Some (AtUnlock (Err (errors_Wrap err "invoke call")), inst, w)
      | Ok req => Some (AtDo req, inst, w)
      end
  | AtDo req =>
      let w := emit (EvHTTP req) w in
      match ie_Do env req with
      | Err err => Some (AtUnlock (Err (errors_Wrap err "function http request")), inst, w)
      | Ok resp => Some (AtClassify resp, inst, w)
      end
  | AtClassify resp =>
      let '(ret, w) := classify resp w in
      Some (AtUnlock ret, inst, w)
  | AtUnlock ret => Some (Returned ret, with_runLock false inst, w)
  | Returned _ => None
  end.

(** A call run from where it stands to its return, with nobody in between. *)
Fixpoint Invoke_finish (fuel : nat) (env : InvokeEnv) (event : json) (p : pc)
    (inst : DenoFunctionInstance) (w : World)
    : option (result json * DenoFunctionInstance * World) :=
  match p with
  | Returned ret => Some (ret, inst, w)
  | _ =>
      match fuel with
      | O => None
      | S fuel' =>
          match Invoke_step env event p inst w with
          | None => None
          | Some (p', inst', w') => Invoke_finish fuel' env event p' inst' w'
          end
      end
  end.

(** A call holds the lock from after [Lock] until [Unlock] has run. *)
Definition holds_lock (p : pc) : bool :=
  match p with
  | AtLock | Returned _ => false
  | _ => true
  end.

(** One caller: its own environment and event. *)
Record Caller := { c_env : InvokeEnv; c_event : json }.

(** N goroutines call [Invoke] on one instance. *)
Record System := {
  s_pcs : list pc;
  s_inst : DenoFunctionInstance;
  s_world : World
}.

(** The scheduler lets caller [i] run one statement; a caller that cannot
    move leaves the system as it is. *)
Definition sched (callers : list Caller) (i : nat) (s : System) : System :=
  match callers !! i, s_pcs s !! i with
  | Some c, Some p =>
      match Invoke_step (c_env c) (c_event c) p (s_inst s) (s_world s) with
      | Some (p', inst', w') =>
          {| s_pcs := <[i := p']> (s_pcs s); s_inst := inst'; s_world := w' |}
      | None => s
      end
  | _, _ => s
  end.

(** A schedule is the list of callers in the order they get to run. *)
Definition run_schedule (callers : list Caller) (schedule : list nat) (s : System)
    : System :=
  fold_left (fun s i => sched callers i s) schedule s.

Definition start (callers : list Caller) (inst : DenoFunctionInstance) (w : World)
    : System :=
  {| s_pcs := map (fun _ => AtLock) callers; s_inst := inst; s_world := w |}.

(** The calls made one after the other, each to its end, in the given order;
    the results come back with the caller's number. *)
Fixpoint Invoke_in_order (callers : list Caller) (order : list nat)
    (inst : DenoFunctionInstance) (w : World)
    : option (list (nat * result json) * DenoFunctionInstance * World) :=
  match order with
  | [] => Some ([], inst, w)
  | i :: rest =>
      match callers !! i with
      | None => None
      | Some c =>
          match Invoke (c_env c) (c_event c) inst w with
          | None => None
          | Some (ret, inst', w') =>
              match Invoke_in_order callers rest inst' w' with
              | None => None
              | Some (rets, inst'', w'') => Some ((i, ret) :: rets, inst'', w'')
              end
          end
      end
  end.
End Invocation.

(** ** Draining a log stream *)

(** A [bufio.Reader] over a pipe: the bytes still to come and the error that
    follows them ([io.EOF] when the child closes the stream). *)
Record Reader := { pending : string; ending : error }.

Definition io_EOF : error := sys_error "EOF".

(** Splits after the first [delim]: the text up to and including it, and the
    rest; [None] when [delim] does not occur. *)
Fixpoint cut (delim : ascii) (s : string) : option (string * string) :=
  match s with
  | EmptyString => None
  | String c s' =>
      if Ascii.eqb c delim
      then Some (String c EmptyString, s')
      else
        match cut delim s' with
        | Some (line, rest) => Some (String c line, rest)
        | None => None
        end
  end.

(** [bufferedReader.ReadString(delim)]: "reads until the first occurrence of
    delim in the input, returning a string containing the data up to and
    including the delimiter. If ReadString encounters an error before finding
    a delimiter, it returns the data read before the error and the error
    itself". *)
Definition ReadString (delim : ascii) (r : Reader) : string * option error * Reader :=
  match cut delim (pending r) with
  | Some (line, rest) => (line, None, {| pending := rest; ending := ending r |})
  | None => (pending r, Some (ending r), {| pending := EmptyString; ending := ending r |})
  end.

(** [pipeLogStreamToCallback]: the callback acts on a sink of type [S]. *)
Fixpoint pipeLogStreamToCallback {S : Type} (fuel : nat) (bufferedReader : Reader)
    (callback : string -> S -> S) (sink : S) : option S :=
  match fuel with
  | O => None
  | S fuel' =>
      match ReadString (ascii_of_nat 10) bufferedReader with
      | (_, Some _, _) => Some sink                      (* break readLoop *)
      | (line, None, r') =>
          pipeLogStreamToCallback fuel' r' callback (callback line sink)
      end
  end.

(** The sink that keeps every message it is given, in order. *)
Definition collect (message : string) (log : list string) : list string :=
  log ++ [message].

(** * Fixtures: a small world to run the model in *)

Definition quoted (s : string) : string := dquote +:+ s +:+ dquote.

(** The texts that the sample library below knows. *)
Definition text_boom : string :=
  "{" +:+ quoted "message" +:+ ":" +:+ quoted "boom" +:+ ","
      +:+ quoted "stack" +:+ ":" +:+ quoted "at handle" +:+ "}".

Definition text_error_boom : string := "{" +:+ quoted "error" +:+ ":" +:+ text_boom +:+ "}".

Definition text_error_oops : string :=
  "{" +:+ quoted "error" +:+ ":" +:+ quoted "oops" +:+ "}".

Definition text_pete : string := "{" +:+ quoted "name" +:+ ":" +:+ quoted "Pete" +:+ "}".

Definition value_boom : json :=
  JObject (<["message" := JString "boom"]> (<["stack" := JString "at handle"]> ∅)).

Definition value_pete : json := JObject (<["name" := JString "Pete"]> ∅).

(** A finite sample of what encoding/json and net/url do, enough to run the
    package on the inputs used as examples below. *)
Definition sample_Marshal (v : json) : result string :=
  match v with
  | JNull => Ok "null"
  | JBool b => Ok (if b then "true" else "false")
  | JString s => Ok (quoted s)
  | JObject m =>
      match m !! "message", m !! "stack", m !! "name" with
      | Some (JString "boom"), Some (JString "at handle"), None => Ok text_boom
      | None, None, Some (JString "Pete") => Ok text_pete
      | None, None, None => Ok "{}"
      | _, _, _ => Err (sys_error "json: value outside the sample")
      end
  | _ => Err (sys_error "json: value outside the sample")
  end.

Definition sample_Decode (text : string) : result json :=
  if String.eqb text "{}" then Ok (JObject ∅)
  else if String.eqb text "null" then Ok JNull
  else if String.eqb text text_pete then Ok value_pete
  else if String.eqb text text_error_boom then Ok (JObject (<["error" := value_boom]> ∅))
  else if String.eqb text text_error_oops then Ok (JObject (<["error" := JString "oops"]> ∅))
  else Err (sys_error "invalid character looking for beginning of value").

Definition sample_Unmarshal_jsError (text : string) : result jsError :=
  if String.eqb text text_boom then Ok {| Message := "boom"; Stack := "at handle" |}
  else if String.eqb text "{}" then Ok {| Message := EmptyString; Stack := EmptyString |}
  else if String.eqb text "null" then Ok {| Message := EmptyString; Stack := EmptyString |}
  else Err (sys_error "json: cannot unmarshal string into Go value of type denorunner.jsError").

Definition sample_url_Parse (url : string) : option error :=
  if String.prefix "http://localhost:-" url
  then Some (sys_error ("parse " +:+ url +:+ ": invalid port"))
  else None.

Definition sampleExtern : Extern :=
  {| json_Marshal := sample_Marshal;
     json_Decode := sample_Decode;
     json_Unmarshal_jsError := sample_Unmarshal_jsError;
     url_Parse := sample_url_Parse;
     denoFiles := [("function_server.ts", "// serves handle over HTTP")] |}.

(** A machine with a current directory, the engine at [/usr/bin/deno], no
    process yet and no faults. *)
Definition world0 : World :=
  {| w_fs := <["." := Dir]> ∅;
     w_fault := fun _ => None;
     w_executables := {["/usr/bin/deno"]};
     w_procs := ∅;
     w_next_pid := 100;
     w_handedOutPorts := ∅;
     w_stdout := [];
     w_trace := [] |}.

Definition config0 : Config := {| WorkDir := "."; DenoPath := "/usr/bin/deno" |}.

Definition code0 : string := "function handle(event) { return event; }".

(** A booted instance whose child (pid 100) runs. *)
Definition instance0 : DenoFunctionInstance :=
  {| config := config0;
     cmd := {| Args := ["/usr/bin/deno"; "run"]; Env := [];
               Setpgid := true; Process := Some 100%Z; ProcessState := None |};
     lastInvoked := 0;
     runLock := false;
     serverURL := "http://localhost:8042";
     tempDir := denoDir config0 code0;
     denoExited := None |}.

Definition world1 : World :=
  {| w_fs := <[denoDir config0 code0 +:+ "/function.js" := File "..."]>
               (<[denoDir config0 code0 := Dir]>
                  (<["./.deno" := Dir]> (<["." := Dir]> ∅)));
     w_fault := fun _ => None;
     w_executables := {["/usr/bin/deno"]};
     w_procs := <[100%Z := Running]> ∅;
     w_next_pid := 101;
     w_handedOutPorts := <[8042%Z := true]> ∅;
     w_stdout := [];
     w_trace := [] |}.

(** A child that answers every request with [resp]. *)
Definition env_answers (resp : Response) : InvokeEnv :=
  {| ie_now := 1700000000; ie_Do := fun _ => Ok resp |}.

(** Nobody listens on the port any more. *)
Definition env_refused : InvokeEnv :=
  {| ie_now := 1700000000;
     ie_Do := fun _ => Err (sys_error "dial tcp 127.0.0.1:8042: connect: connection refused") |}.

Definition request_pete : Request :=
  {| Method := "POST"; URL := "http://localhost:8042"; ReqBody := text_pete |}.

(** Rounds of the wait loop: nothing happens and the connect fails; nothing
    happens and the connect succeeds; the caller has cancelled and the child
    has died, and [select] takes the exit notification. *)
Definition tick_not_yet : Tick :=
  {| tk_ctx := None; tk_exit := None; tk_pick_exit := false; tk_dial := false |}.

Definition tick_up : Tick :=
  {| tk_ctx := None; tk_exit := None; tk_pick_exit := false; tk_dial := true |}.

Definition tick_cancelled_and_dead : Tick :=
  {| tk_ctx := Some (sys_error "context canceled"); tk_exit := Some (WExited 1);
     tk_pick_exit := true; tk_dial := false |}.

(** The server is up at the [n]-th round. *)
Definition up_at (n : nat) (i : nat) : Tick :=
  if (i <? n)%nat then tick_not_yet else tick_up.

(** Every raw draw is 42: the first port tried from base 8000 is 8042. *)
Definition rnd42 : Port.Rand := {| Port.raw := fun _ => 42%Z; Port.pos := 0 |}.

(** The port is free and the server is up at the second round. *)
Definition bootenv0 : BootEnv :=
  {| be_rnd := rnd42; be_listen := fun _ _ => true; be_ticks := up_at 1;
     be_late := None |}.

(** No port can be bound; the child, once started, exits at once. *)
Definition bootenv_no_port : BootEnv :=
  {| be_rnd := rnd42; be_listen := fun _ _ => false;
     be_ticks := fun _ => {| tk_ctx := None; tk_exit := Some (WExited 1);
                             tk_pick_exit := false; tk_dial := false |};
     be_late := None |}.

Definition config_no_engine : Config :=
  {| WorkDir := "."; DenoPath := "/nonexistent/deno" |}.

(** [world0] after each of the three materialising steps for [code0]. *)
Definition world0_mkdir : World :=
  match os_MkdirAll (denoDir config_no_engine code0) world0 with
  | Some (_, w) => w
  | None => world0
  end.

Definition world0_copied : World :=
  (copyDenoFiles (H := sampleExtern) (denoDir config_no_engine code0) world0_mkdir).2.

Definition world0_written : World :=
  (os_WriteFile (denoDir config_no_engine code0 +:+ "/function.js")
     (wrapScript (MustJsonString (H := sampleExtern) JNull world0_copied).1 code0)
     (MustJsonString (H := sampleExtern) JNull world0_copied).2).2.

(** Two goroutines call [Invoke] on [instance0], and a scheduler that
    switches between them whenever it can. *)
Definition callers2 : list Caller :=
  [ {| c_env := env_answers {| StatusCode := 200; Body := text_pete |};
       c_event := value_pete |};
    {| c_env := env_answers {| StatusCode := 200; Body := text_error_oops |};
       c_event := JNull |} ].

Definition schedule2 : list nat :=
  [0; 1; 0; 1; 0; 1; 0; 1; 0; 1; 0; 1; 0; 1; 1; 1; 1; 1; 1; 1; 1]%nat.

(** The result part of an optional triple. *)
Definition outcome {A B C : Type} (r : option (A * B * C)) : option A :=
  match r with
  | Some (a, _, _) => Some a
  | None => None
  end.

(** * Auxiliary notions *)

(** [w'] differs from [w] at most in the file system and in what was
    printed. *)
Definition fs_only (w w' : World) : Prop :=
  w_fault w' = w_fault w /\ w_executables w' = w_executables w
  /\ w_procs w' = w_procs w /\ w_next_pid w' = w_next_pid w
  /\ w_handedOutPorts w' = w_handedOutPorts w /\ w_trace w' = w_trace w.

(** The directories of [w] are directories of [w']. *)
Definition keeps_dirs (w w' : World) : Prop :=
  forall d, w_fs w !! d = Some Dir -> w_fs w' !! d = Some Dir.

(** [w'] has the files of [w], and its trace goes on from that of [w]. *)
Definition goes_on (w w' : World) : Prop :=
  w_fs w' = w_fs w /\ w_fault w' = w_fault w /\ w_executables w' = w_executables w
  /\ exists more, w_trace w' = (w_trace w ++ more)%list.

(** Callers other than [except] that are not in [order] have not taken the
    lock yet. *)
Definition waiting (order : list nat) (pcs : list pc) (except : option nat) : Prop :=
  forall i p, i ∉ order -> Some i <> except -> pcs !! i = Some p -> p = AtLock.

(** What every reachable system looks like: the callers in [order] have
    returned, with the results and the state that calling them one after the
    other in that order gives; at most one more caller is under way, and
    letting it finish alone is the next call of that sequence. *)
Definition serial_inv `{Extern} (callers : list Caller) (inst0 : DenoFunctionInstance)
    (w0 : World) (s : System) : Prop :=
  exists order rets instS wS,
    Invoke_in_order callers order inst0 w0 = Some (rets, instS, wS)
    /\ NoDup order
    /\ length (s_pcs s) = length callers
    /\ (forall i ret, (i, ret) ∈ rets -> s_pcs s !! i = Some (Returned ret))
    /\ ((s_inst s = instS /\ s_world s = wS /\ waiting order (s_pcs s) None)
        \/ (exists a c p fuel,
              (a ∉ order) /\ callers !! a = Some c /\ s_pcs s !! a = Some p
              /\ holds_lock p = true /\ runLock (s_inst s) = true
              /\ Invoke_finish fuel (c_env c) (c_event c) p (s_inst s) (s_world s)
                 = Invoke (c_env c) (c_event c) instS wS
              /\ waiting order (s_pcs s) (Some a))).

(** A lower-case hexadecimal digit. *)
Definition is_lower_hex (c : ascii) : bool :=
  let n := N_of_ascii c in
  ((48 <=? n) && (n <=? 57) || (97 <=? n) && (n <=? 102))%N.

(** [w'] is [w] with, at most, more text on standard output. *)
Definition prints_only (w w' : World) : Prop :=
  w_fs w' = w_fs w /\ fs_only w w'.

(** The child of [inst] runs, and nothing about its end has been recorded. *)
Definition booting (inst : DenoFunctionInstance) (w : World) : Prop :=
  exists pid, Process (cmd inst) = Some pid /\ w_procs w !! pid = Some Running
              /\ ProcessState (cmd inst) = None /\ denoExited inst = None.

Definition is_returned (p : pc) : bool :=
  match p with
  | Returned _ => true
  | _ => false
  end.

(** The bits of a quiet NaN, which [json.Marshal] refuses. *)
Definition NaN : float64 := 0x7FF8000000000000%Z.

(** The sample library, refusing to serialize NaN as encoding/json does. *)
Definition nanExtern : Extern :=
  {| json_Marshal := fun v =>
       match v with
       | JNumber 0x7FF8000000000000%Z => Err (sys_error "json: unsupported value: NaN")
       | _ => sample_Marshal v
       end;
     json_Decode := sample_Decode;
     json_Unmarshal_jsError := sample_Unmarshal_jsError;
     url_Parse := sample_url_Parse;
     denoFiles := [("function_server.ts", "// serves handle over HTTP")] |}.

(** The caller gives up at the third round, the child still booting. *)
Definition bootenv_cancelled : BootEnv :=
  {| be_rnd := rnd42; be_listen := fun _ _ => true;
     be_ticks := fun i =>
       if (i <? 2)%nat then tick_not_yet
       else {| tk_ctx := Some (sys_error "context deadline exceeded"); tk_exit := None;
               tk_pick_exit := false; tk_dial := false |};
     be_late := None |}.

(** A connect attempt or the sleep after it. *)
Definition is_probe (e : Event) : bool :=
  match e with
  | EvDial _ | EvSleep _ => true
  | _ => false
  end.

(** The failures of the constructor before it has a child: each wraps its
    cause with the name of the step. *)
Definition setup_failure (e : error) : Prop :=
  (exists cause, e = errors_Wrap cause "create deno dir")
  \/ (exists cause, e = errors_Wrap (errors_Wrap cause "write file") "copy deno files")
  \/ (exists cause, e = errors_Wrap cause "write JS function file")
  \/ (exists cause, e = errors_Wrap cause "stdout pipe")
  \/ (exists cause, e = errors_Wrap cause "stderr pipe")
  \/ (exists cause, e = errors_Wrap cause "deno run").


(** A round that ends the wait: the caller's context is done, the child has
    ended, or the connect succeeds. *)
Definition settled (tk : Tick) : bool :=
  match tk_ctx tk, tk_exit tk with
  | None, None => tk_dial tk
  | _, _ => true
  end.

(** The constructor run on [world0]: to a booted instance; to the failure of
    the caller's context; with an engine that does not exist. *)
Definition boot_up : option (result DenoFunctionInstance * World) :=
  NewDenoFunctionInstance (H := sampleExtern) bootenv0 4 config0 JNull code0 world0.

Definition instance_up : DenoFunctionInstance :=
  match boot_up with
  | Some (Ok inst, _) => inst
  | _ => instance0
  end.

Definition world_up : World :=
  match boot_up with
  | Some (_, w) => w
  | None => world0
  end.

Definition boot_cancelled : option (result DenoFunctionInstance * World) :=
  NewDenoFunctionInstance (H := sampleExtern) bootenv_cancelled 5 config0 JNull code0 world0.

Definition error_cancelled : error :=
  match boot_cancelled with
  | Some (Err e, _) => e
  | _ => sys_error "no error"
  end.

Definition world_cancelled : World :=
  match boot_cancelled with
  | Some (_, w) => w
  | None => world0
  end.

(** The raw draws 42, 43, 44, ...: from base 8000 the ports 8042, 8043, ... *)
Definition rnd_from42 : Port.Rand :=
  {| Port.raw := fun i => (42 + Z.of_nat i)%Z; Port.pos := 0 |}.

Definition bootenv_again : BootEnv :=
  {| be_rnd := rnd_from42; be_listen := fun _ _ => true; be_ticks := up_at 1;
     be_late := None |}.

(** A second construction from the same source, on the machine the first
    one left. *)
Definition boot_again : option (result DenoFunctionInstance * World) :=
  NewDenoFunctionInstance (H := sampleExtern) bootenv_again 4 config0 (JString "Pete")
    code0 world_up.

Definition instance_again : DenoFunctionInstance :=
  match boot_again with
  | Some (Ok inst, _) => inst
  | _ => instance0
  end.

Definition world_again : World :=
  match boot_again with
  | Some (_, w) => w
  | None => world0
  end.

(** The server never comes up, the child never ends, nobody cancels. *)
Definition bootenv_never : BootEnv :=
  {| be_rnd := rnd42; be_listen := fun _ _ => true; be_ticks := fun _ => tick_not_yet;
     be_late := None |}.





(** Another function, and [world1] with its working directory beside that
    of [code0]. *)
Definition code1 : string := "function handle(event) { return 1; }".

Definition world2 : World :=
  with_fs (<[denoDir config0 code1 +:+ "/function.js" := File "..."]>
             (<[denoDir config0 code1 := Dir]>
                (<["./.deno/cache" := Dir]> (w_fs world1)))) world1.

(** A library with three runtime files, and a machine where the working
    directory of [code0] holds files of an earlier deployment and the disk
    is full after four bytes of [b.ts]. *)
Definition threeExtern : Extern :=
  {| json_Marshal := sample_Marshal;
     json_Decode := sample_Decode;
     json_Unmarshal_jsError := sample_Unmarshal_jsError;
     url_Parse := sample_url_Parse;
     denoFiles := [("a.ts", "// file a"); ("b.ts", "// file b"); ("c.ts", "// file c")] |}.

Definition world0_full : World :=
  {| w_fs := <[denoDir config0 code0 +:+ "/c.ts" := File "// old c"]>
               (<[denoDir config0 code0 +:+ "/b.ts" := File "// old b"]>
                  (w_fs world0_mkdir));
     w_fault := fun op =>
       match op with
       | OpWrite path 4 =>
           if String.eqb path (denoDir config0 code0 +:+ "/b.ts")
           then Some (sys_error "no space left on device")
           else None
       | _ => None
       end;
     w_executables := w_executables world0;
     w_procs := ∅;
     w_next_pid := 100;
     w_handedOutPorts := ∅;
     w_stdout := [];
     w_trace := [] |}.

Definition world0_partial : World :=
  (copyDenoFiles (H := threeExtern) (denoDir config0 code0) world0_full).2.

(** [os.RemoveAll] goes to work on [path] and the system lets it. *)
Definition removes (path : string) (w : World) : Prop :=
  path <> EmptyString /\ endsWithDot path = false /\ w_fault w (OpRemoveAll path) = None.

(** The name of an entry of a directory: not empty, not "." or "..", and
    without a path separator.  The names of embedded files are of this
    kind. *)
Definition file_name (s : string) : bool :=
  negb (String.eqb s EmptyString) && negb (String.eqb s ".") && negb (String.eqb s "..")
  && forallb (fun c => negb (IsPathSeparator c)) (list_ascii_of_string s).





(** * Properties *)

(** ** Hashing and formatting: known answers *)

Example sha1_empty :
  newFunctionHash "" = "da39a3ee5e6b4b0d3255bfef95601890afd80709".
Proof. vm_compute. reflexivity. Qed.

Example sha1_abc :
  newFunctionHash "abc" = "a9993e364706816aba3e25717850c26c9cd0d89d".
Proof. vm_compute. reflexivity. Qed.

Example sha1_two_blocks :
  newFunctionHash "abcdbcdecdefdefgefghfghighijhijkijkljklmklmnlmnomnopnopq"
  = "84983e441c3bd26ebaae4aa1f95129e5e54670f1".
Proof. vm_compute. reflexivity. Qed.

Example sprintf_d_examples :
  sprintf_d 8000 = "8000" /\ sprintf_d (-1) = "-1" /\ sprintf_d 0 = "0".
Proof. vm_compute. repeat split. Qed.

Example parent_examples :
  parent "./.deno/function-ab" = Some "./.deno" /\ parent "./.deno" = Some "."
  /\ parent "." = None /\ parent "/tmp" = None /\ parent "/tmp/x/" = Some "/tmp".
Proof. vm_compute. repeat split. Qed.

(** ** The log drain *)

Lemma cut_Some delim s line rest :
  cut delim s = Some (line, rest) ->
  s = line +:+ rest /\ (String.length rest < String.length s)%nat
  /\ exists body, line = body +:+ String delim EmptyString /\ cut delim body = None.
Proof.
  revert line rest. induction s as [|c s IH]; intros line rest; simpl; [discriminate|].
  destruct (Ascii.eqb_spec c delim) as [->|Hne].
  - intros [= <- <-]. repeat split; [simpl; lia|]. exists EmptyString. split; reflexivity.
  - destruct (cut delim s) as [[l r]|] eqn:E; [|discriminate].
    intros [= <- <-]. destruct (IH l r eq_refl) as (-> & Hlen & body & -> & Hb).
    repeat split; [simpl; lia|]. exists (String c body). split; [reflexivity|].
    simpl. destruct (Ascii.eqb_spec c delim); [contradiction|]. rewrite Hb. reflexivity.
Qed.

(** A line as the sink sees it: no newline except the one that ends it. *)
Definition terminated_line (l : string) : Prop :=
  exists body, l = body +:+ newline /\ cut (ascii_of_nat 10) body = None.

(** The drain stops for every finite stream; it hands the sink the
    newline-terminated lines, in order and each with its newline, and what
    follows the last newline is read but given to nobody. *)
Lemma drain_delivers_terminated_lines {S : Type} (callback : string -> S -> S) :
  forall fuel r sink, (String.length (pending r) < fuel)%nat ->
  exists lines tail,
    pipeLogStreamToCallback fuel r callback sink
    = Some (fold_left (fun s l => callback l s) lines sink)
    /\ pending r = fold_right String.append tail lines
    /\ cut (ascii_of_nat 10) tail = None
    /\ Forall terminated_line lines.
Proof.
  induction fuel as [|fuel IH]; intros r sink Hlen; [lia|].
  simpl. unfold ReadString.
  destruct (cut (ascii_of_nat 10) (pending r)) as [[line rest]|] eqn:E.
  - destruct (cut_Some _ _ _ _ E) as (Hp & Hl & Hterm).
    destruct (IH {| pending := rest; ending := ending r |} (callback line sink))
      as (lines & tail & Hrun & Hrest & Htail & Hall); [simpl; lia|].
    exists (line :: lines), tail. simpl in Hrest.
    split; [exact Hrun|]. split; [rewrite Hp, Hrest; reflexivity|].
    split; [exact Htail|]. constructor; [exact Hterm | exact Hall].
  - exists [], (pending r). repeat split; auto.
Qed.

(** C10: on the stream [first\nlast] followed by end-of-file the sink gets
    [first\n] only: the drain reads the unterminated last line together with
    [io.EOF] and leaves the loop without calling the callback. *)
Theorem drain_drops_unterminated_last_line :
  pipeLogStreamToCallback 12
    {| pending := "first" +:+ newline +:+ "last"; ending := io_EOF |} collect []
  = Some ["first" +:+ newline].
Proof. vm_compute. reflexivity. Qed.

(** ** The port allocator *)

Section PortFacts.
Import Port.
Local Open Scope Z_scope.

Variable listen : Listener.
Variable startPort : Z.
Variable rnd : Rand.
Variable m : gmap Z bool.

Lemma FindFreePort_loop_spec :
  forall fuel n,
    (n <= 1000)%nat -> (1001 <= fuel + n)%nat ->
    exists r m',
      FindFreePort_loop fuel listen startPort
                        {| raw := raw rnd; pos := pos rnd + S n |} m
                        (candidate startPort rnd n) (Z.of_nat n) = Some (r, m')
      /\ ((exists k, (n <= k <= 1000)%nat /\ r = candidate startPort rnd k
                     /\ listen (Z.of_nat k) r = true /\ handedOut m r = false
                     /\ m' = <[r := true]> m
                     /\ forall j, (n <= j < k)%nat -> refused listen startPort rnd m j)
          \/ (r = -1 /\ m' = m
              /\ forall j, (n <= j <= 1000)%nat -> refused listen startPort rnd m j)).
Proof.
  induction fuel as [|fuel IH]; intros n Hn Hfuel; [lia|].
  cbn [FindFreePort_loop].
  destruct (negb (handedOut m (candidate startPort rnd n))
            && listen (Z.of_nat n) (candidate startPort rnd n)) eqn:Etest.
  - apply andb_true_iff in Etest as [Hh Hl]. apply negb_true_iff in Hh.
    eexists _, _. split; [reflexivity|]. left. exists n.
    split; [lia|]. split; [reflexivity|]. split; [exact Hl|]. split; [exact Hh|].
    split; [reflexivity|]. intros j Hj. lia.
  - assert (Hrn : refused listen startPort rnd m n).
    { apply andb_false_iff in Etest as [Hh|Hl]; [left|right; exact Hl].
      apply negb_false_iff in Hh. exact Hh. }
    unfold Intn. cbn [raw pos].
    destruct (Z.of_nat n + 1 >? 1000) eqn:Elim.
    + eexists _, _. split; [reflexivity|]. right.
      split; [reflexivity|]. split; [reflexivity|].
      intros j Hj. assert (j = n) by lia. subst j. exact Hrn.
    + assert (Hn' : (S n <= 1000)%nat) by lia.
      destruct (IH (S n) Hn' ltac:(lia)) as (r & m' & Hrun & Hcase).
      replace (Z.of_nat n + 1) with (Z.of_nat (S n)) by lia.
      change (wrap64 (startPort + raw rnd (pos rnd + S n)%nat mod 10000))
        with (candidate startPort rnd (S n)).
      replace (S (pos rnd + S n)) with (pos rnd + S (S n))%nat by lia.
      exists r, m'. split; [exact Hrun|].
      destruct Hcase as [(k & Hk & Hr & Hl & Hh & Hm & Hbefore)|(Hr & Hm & Hall)].
      * left. exists k. split; [lia|]. do 4 (split; [assumption|]).
        intros j Hj. destruct (Nat.eq_dec j n) as [->|Hne]; [exact Hrn|].
        apply Hbefore. lia.
      * right. do 2 (split; [assumption|]).
        intros j Hj. destruct (Nat.eq_dec j n) as [->|Hne]; [exact Hrn|].
        apply Hall. lia.
Qed.

(** One call: it returns, and it returns either a fresh port on which the
    bind succeeded, now recorded, or -1 after 1001 refused rounds. *)
Lemma FindFreePort_spec :
  exists r m',
    FindFreePort budget rnd listen startPort m = Some (r, m')
    /\ ((exists k, (k <= 1000)%nat /\ r = candidate startPort rnd k
                   /\ listen (Z.of_nat k) r = true /\ handedOut m r = false
                   /\ m' = <[r := true]> m
                   /\ forall j, (j < k)%nat -> refused listen startPort rnd m j)
        \/ (r = -1 /\ m' = m
            /\ forall j, (j <= 1000)%nat -> refused listen startPort rnd m j)).
Proof.
  unfold FindFreePort, Intn.
  destruct (FindFreePort_loop_spec budget 0 ltac:(lia) ltac:(unfold budget; lia))
    as (r & m' & Hrun & Hcase).
  replace (pos rnd + 1)%nat with (S (pos rnd)) in Hrun by lia.
  unfold candidate in Hrun at 1. replace (pos rnd + 0)%nat with (pos rnd) in Hrun by lia.
  cbn [Z.of_nat] in Hrun. exists r, m'. split; [exact Hrun|].
  destruct Hcase as [(k & Hk & Hr & Hl & Hh & Hm & Hbefore)|(Hr & Hm & Hall)].
  - left. exists k. split; [lia|]. do 4 (split; [assumption|]).
    intros j Hj. apply Hbefore. lia.
  - right. do 2 (split; [assumption|]). intros j Hj. apply Hall. lia.
Qed.
End PortFacts.

Lemma wrap64_small z : (- 2 ^ 63 <= z < 2 ^ 63)%Z -> Port.wrap64 z = z.
Proof.
  intros Hz. unfold Port.wrap64.
  rewrite Z.mod_small; lia.
Qed.

Lemma candidate_window startPort rnd k :
  exists off, (0 <= off < 10000)%Z
              /\ Port.candidate startPort rnd k = Port.wrap64 (startPort + off).
Proof.
  exists (Port.raw rnd (Port.pos rnd + k) mod 10000)%Z. split; [|reflexivity].
  apply Z.mod_pos_bound. lia.
Qed.

Lemma handedOut_insert m r p :
  Port.handedOut (<[r := true]> m) p = true <-> p = r \/ Port.handedOut m p = true.
Proof.
  unfold Port.handedOut. destruct (decide (r = p)) as [->|Hne].
  - rewrite lookup_insert_eq. simpl. tauto.
  - rewrite lookup_insert_ne by exact Hne. split; [tauto|]. intros [->|Hp]; congruence.
Qed.

(** A call returns the sentinel and leaves the record alone, or returns a
    port that the record did not hold and now holds. *)
Lemma FindFreePort_result rnd listen startPort m r m' :
  Port.FindFreePort Port.budget rnd listen startPort m = Some (r, m') ->
  (r = (-1)%Z /\ m' = m) \/ (Port.handedOut m r = false /\ m' = <[r := true]> m).
Proof.
  intros Hrun.
  destruct (FindFreePort_spec listen startPort rnd m) as (r0 & m0 & Hrun0 & Hcase).
  rewrite Hrun in Hrun0. injection Hrun0 as <- <-.
  destruct Hcase as [(k & _ & _ & _ & Hh & Hm & _)|(Hr & Hm & _)]; [right|left]; auto.
Qed.

Lemma lifetime_keeps_handedOut calls :
  forall m rs m', Port.lifetime calls m = Some (rs, m') ->
  forall p, Port.handedOut m p = true ->
            Port.handedOut m' p = true /\ (p ∈ rs -> p = (-1)%Z).
Proof.
  induction calls as [|c cs IH]; intros m rs m' Hrun p Hp; simpl in Hrun.
  - injection Hrun as <- <-. split; [exact Hp|]. intros Hin. inversion Hin.
  - destruct (Port.FindFreePort _ _ _ _ m) as [[r m1]|] eqn:E1; [|discriminate].
    destruct (Port.lifetime cs m1) as [[rs1 m2]|] eqn:E2; [|discriminate].
    injection Hrun as <- <-.
    assert (Hp1 : Port.handedOut m1 p = true).
    { destruct (FindFreePort_result _ _ _ _ _ _ E1) as [[_ ->]|[_ ->]]; [exact Hp|].
      apply handedOut_insert. right. exact Hp. }
    destruct (IH _ _ _ E2 p Hp1) as [Hend Hin]. split; [exact Hend|].
    intros Hmem. apply elem_of_cons in Hmem as [->|Hmem]; [|exact (Hin Hmem)].
    destruct (FindFreePort_result _ _ _ _ _ _ E1) as [[-> _]|[Hfresh _]]; [reflexivity|].
    congruence.
Qed.

Lemma lifetime_never_repeats calls :
  forall m rs m', Port.lifetime calls m = Some (rs, m') ->
  forall i j p, (i < j)%nat -> rs !! i = Some p -> rs !! j = Some p -> p = (-1)%Z.
Proof.
  induction calls as [|c cs IH]; intros m rs m' Hrun i j p Hij Hi Hj; simpl in Hrun.
  - injection Hrun as <- <-. discriminate.
  - destruct (Port.FindFreePort _ _ _ _ m) as [[r m1]|] eqn:E1; [|discriminate].
    destruct (Port.lifetime cs m1) as [[rs1 m2]|] eqn:E2; [|discriminate].
    injection Hrun as <- <-.
    destruct j as [|j]; [lia|]. simpl in Hj.
    destruct i as [|i]; simpl in Hi.
    + injection Hi as ->.
      destruct (FindFreePort_result _ _ _ _ _ _ E1) as [[-> _]|[_ ->]]; [reflexivity|].
      assert (Hp : Port.handedOut (<[p := true]> m) p = true)
        by (apply handedOut_insert; left; reflexivity).
      apply (lifetime_keeps_handedOut _ _ _ _ E2 p Hp).
      apply list_elem_of_lookup. exists j. exact Hj.
    + apply (IH _ _ _ E2 i j p); [lia|exact Hi|exact Hj].
Qed.

Lemma lifetime_total calls :
  forall m, exists rs m', Port.lifetime calls m = Some (rs, m')
                          /\ length rs = length calls.
Proof.
  induction calls as [|c cs IH]; intros m; simpl.
  - exists [], m. split; reflexivity.
  - destruct (FindFreePort_spec (Port.c_listen c) (Port.c_start c) (Port.c_rnd c) m)
      as (r & m1 & -> & _).
    destruct (IH m1) as (rs & m2 & -> & Hlen).
    exists (r :: rs), m2. split; [reflexivity|]. simpl. rewrite Hlen. reflexivity.
Qed.

(** C9: for every base port, every seed and every state of the network the
    port allocator returns.  It returns either a port from the window of
    10000 above the base on which the bind succeeded and which had not been
    handed out, and records it; or -1, once 1001 rounds (the value of
    [iterations] from 0 to 1000) were refused.  Over successive calls in one
    process no port is returned twice. *)
Theorem FindFreePort_terminates_fresh_or_sentinel :
  (forall rnd listen startPort (m : gmap Z bool),
     exists r m',
       Port.FindFreePort Port.budget rnd listen startPort m = Some (r, m')
       /\ ((exists k off,
              (k <= 1000)%nat /\ (0 <= off < 10000)%Z
              /\ r = Port.wrap64 (startPort + off)
              /\ ((- 2 ^ 63 <= startPort <= 2 ^ 63 - 10000)%Z ->
                  (startPort <= r < startPort + 10000)%Z)
              /\ listen (Z.of_nat k) r = true
              /\ Port.handedOut m r = false
              /\ m' = <[r := true]> m
              /\ Port.handedOut m' r = true)
           \/ (r = (-1)%Z /\ m' = m
               /\ forall j, (j <= 1000)%nat -> Port.refused listen startPort rnd m j)))
  /\ (forall calls (m : gmap Z bool),
        exists rs m',
          Port.lifetime calls m = Some (rs, m')
          /\ length rs = length calls
          /\ forall i j p, (i < j)%nat -> rs !! i = Some p -> rs !! j = Some p ->
                           p = (-1)%Z).
Proof.
  split.
  - intros rnd listen startPort m.
    destruct (FindFreePort_spec listen startPort rnd m) as (r & m' & Hrun & Hcase).
    exists r, m'. split; [exact Hrun|].
    destruct Hcase as [(k & Hk & Hr & Hl & Hh & Hm & _)|Hsent]; [left|right; exact Hsent].
    destruct (candidate_window startPort rnd k) as (off & Hoff & Hc).
    exists k, off. split; [exact Hk|]. split; [exact Hoff|].
    split; [congruence|]. split.
    { intros Hrange. rewrite Hr, Hc. rewrite wrap64_small; lia. }
    split; [exact Hl|]. split; [exact Hh|]. split; [exact Hm|].
    rewrite Hm. apply handedOut_insert. left. reflexivity.
  - intros calls m. destruct (lifetime_total calls m) as (rs & m' & Hrun & Hlen).
    exists rs, m'. split; [exact Hrun|]. split; [exact Hlen|].
    exact (lifetime_never_repeats calls m rs m' Hrun).
Qed.

Lemma FindFreePort_terminates_fresh_or_sentinel_witness :
  Port.FindFreePort Port.budget rnd42 (fun _ _ => true) 8000 ∅
  = Some (8042%Z, <[8042%Z := true]> ∅)
  /\ exists rs m',
       Port.lifetime
         [ {| Port.c_rnd := rnd42; Port.c_listen := fun _ _ => true;
              Port.c_start := 8000 |};
           {| Port.c_rnd := rnd42; Port.c_listen := fun _ _ => true;
              Port.c_start := 8000 |} ] ∅ = Some (rs, m')
       /\ length rs = 2%nat
       /\ forall i j p, (i < j)%nat -> rs !! i = Some p -> rs !! j = Some p ->
                        p = (-1)%Z.
Proof.
  split; [vm_compute; reflexivity|].
  apply (proj2 FindFreePort_terminates_fresh_or_sentinel).
Defined.

(** ** Invoke: the way to the response and its classification *)

Section InvokeFacts.
Context `{Extern}.

Lemma MustJsonString_text v w w' : (MustJsonString v w).1 = (MustJsonString v w').1.
Proof.
  unfold MustJsonString, MustJsonByteSlice. destruct (json_Marshal v); reflexivity.
Qed.

Lemma decodeResult_result resp w w' : (decodeResult resp w).1 = (decodeResult resp w').1.
Proof.
  unfold decodeResult. destruct (json_Decode (Body resp)) as [v|e]; [|reflexivity].
  destruct v as [| | | | |errorMap]; try reflexivity.
  destruct (errorMap !! "error") as [errorObj|]; [|reflexivity].
  pose proof (MustJsonString_text errorObj w w') as Htext.
  destruct (MustJsonString errorObj w) as [data w1].
  destruct (MustJsonString errorObj w') as [data' w1']. simpl in Htext. subst data'.
  destruct (json_Unmarshal_jsError data); [reflexivity|].
  pose proof (MustJsonString_text errorObj w1 w1') as Htext.
  destruct (MustJsonString errorObj w1) as [raw w2].
  destruct (MustJsonString errorObj w1') as [raw' w2']. simpl in Htext. subst raw'.
  reflexivity.
Qed.

Lemma classify_result resp w w' : (classify resp w).1 = (classify resp w').1.
Proof.
  unfold classify. destruct (negb _); [reflexivity|]. apply decodeResult_result.
Qed.

(** A call on a free, live instance whose request is accepted and answered
    returns what [classify] makes of the answer. *)
Lemma Invoke_answered env event inst w req resp :
  runLock inst = false ->
  processExited inst = false ->
  http_NewRequestWithContext "POST" (serverURL inst) (MustJsonString event w).1 = Ok req ->
  ie_Do env req = Ok resp ->
  outcome (Invoke env event inst w) = Some (classify resp w).1.
Proof.
  intros Hlock Hlive Hreq Hdo. unfold Invoke. rewrite Hlock. unfold Invoke_locked.
  replace (processExited (with_lastInvoked (ie_now env) (with_runLock true inst)))
    with (processExited inst) by reflexivity.
  rewrite Hlive. destruct (MustJsonString event w) as [body w1]. simpl in Hreq.
  cbn [serverURL with_lastInvoked with_runLock]. rewrite Hreq, Hdo.
  rewrite (classify_result resp w (emit (EvHTTP req) w1)).
  destruct (classify resp (emit (EvHTTP req) w1)) as [ret w2]. reflexivity.
Qed.

(** The scenario of [TestDenoBasic]: the handler returns its event, the child
    answers 200 with the event's JSON, and [Invoke] returns the decoded
    object. *)
Example Invoke_identity_handler :
  outcome (Invoke (H := sampleExtern)
             (env_answers {| StatusCode := 200; Body := text_pete |})
             value_pete instance0 world1)
  = Some (Ok value_pete).
Proof. vm_compute. reflexivity. Qed.

(** C3, as the code has it: a response whose status is not 200 makes [Invoke]
    fail with "HTTP Error: " followed by the raw body, whatever the body is;
    a response with status 200 is decoded, and [Invoke] returns what the
    decoding yields. *)
Theorem Invoke_status_not_200_is_http_error env event inst w req resp :
  runLock inst = false ->
  processExited inst = false ->
  http_NewRequestWithContext "POST" (serverURL inst) (MustJsonString event w).1 = Ok req ->
  ie_Do env req = Ok resp ->
  (StatusCode resp <> 200%Z ->
   outcome (Invoke env event inst w)
   = Some (Err (fmt_Errorf ("HTTP Error: " +:+ Body resp))))
  /\ (StatusCode resp = 200%Z ->
      outcome (Invoke env event inst w) = Some (decodeResult resp w).1).
Proof.
  intros Hlock Hlive Hreq Hdo.
  rewrite (Invoke_answered env event inst w req resp Hlock Hlive Hreq Hdo).
  unfold classify, StatusOK. split; intros Hs.
  - apply Z.eqb_neq in Hs. rewrite Hs. reflexivity.
  - apply Z.eqb_eq in Hs. rewrite Hs. reflexivity.
Qed.

(** C6, as the code has it: when the body of a 200 response decodes to an
    object with an [error] key, [Invoke] fails with "Runtime error: " and the
    message and stack of the nested value if that decodes as a [jsError], and
    with "Runtime error: " and the JSON text of the nested value if it does
    not; when the decoded value has no [error] key, object or not, [Invoke]
    returns it as it is. *)
Theorem Invoke_200_error_key env event inst w req resp v :
  runLock inst = false ->
  processExited inst = false ->
  http_NewRequestWithContext "POST" (serverURL inst) (MustJsonString event w).1 = Ok req ->
  ie_Do env req = Ok resp ->
  StatusCode resp = 200%Z ->
  json_Decode (Body resp) = Ok v ->
  (forall errorMap errorObj jsError,
     v = JObject errorMap -> errorMap !! "error" = Some errorObj ->
     json_Unmarshal_jsError (MustJsonString errorObj w).1 = Ok jsError ->
     outcome (Invoke env event inst w)
     = Some (Err (fmt_Errorf ("Runtime error: " +:+ Message jsError +:+ newline
                              +:+ Stack jsError))))
  /\ (forall errorMap errorObj err,
        v = JObject errorMap -> errorMap !! "error" = Some errorObj ->
        json_Unmarshal_jsError (MustJsonString errorObj w).1 = Err err ->
        outcome (Invoke env event inst w)
        = Some (Err (fmt_Errorf ("Runtime error: " +:+ (MustJsonString errorObj w).1))))
  /\ ((forall errorMap, v = JObject errorMap -> errorMap !! "error" = None) ->
      outcome (Invoke env event inst w) = Some (Ok v)).
Proof.
  intros Hlock Hlive Hreq Hdo Hs Hv.
  rewrite (Invoke_answered env event inst w req resp Hlock Hlive Hreq Hdo).
  unfold classify, StatusOK. apply Z.eqb_eq in Hs. rewrite Hs. cbn [negb].
  unfold decodeResult. rewrite Hv. split; [|split].
  - intros errorMap errorObj js -> Hkey Hdec. rewrite Hkey.
    destruct (MustJsonString errorObj w) as [data w1]. simpl in Hdec. rewrite Hdec.
    reflexivity.
  - intros errorMap errorObj err -> Hkey Hdec. rewrite Hkey.
    pose proof (MustJsonString_text errorObj w) as Htext.
    destruct (MustJsonString errorObj w) as [data w1]. simpl in Hdec. rewrite Hdec.
    specialize (Htext w1). simpl in Htext.
    destruct (MustJsonString errorObj w1) as [raw w2]. simpl in Htext. subst raw.
    reflexivity.
  - intros Hnone. destruct v as [| | | | |errorMap]; try reflexivity.
    rewrite (Hnone errorMap eq_refl). reflexivity.
Qed.
End InvokeFacts.

Lemma Invoke_status_not_200_is_http_error_witness :
  let resp := {| StatusCode := 500; Body := "boom" |} in
  runLock instance0 = false
  /\ processExited instance0 = false
  /\ ie_Do (env_answers resp) request_pete = Ok resp
  /\ outcome (Invoke (H := sampleExtern) (env_answers resp) value_pete instance0 world1)
     = Some (Err (fmt_Errorf "HTTP Error: boom")).
Proof.
  intros resp. split; [reflexivity|]. split; [reflexivity|]. split; [reflexivity|].
  apply (Invoke_status_not_200_is_http_error (H := sampleExtern)
           (env_answers resp) value_pete instance0 world1 request_pete resp);
    try reflexivity.
  simpl. lia.
Defined.

(** C3 as stated fails: a 201 response with a body that decodes is not
    decoded; [Invoke] fails with the HTTP error. *)
Lemma Invoke_status_201_not_decoded :
  let resp := {| StatusCode := 201; Body := text_pete |} in
  (200 <= StatusCode resp < 300)%Z
  /\ json_Decode (Extern := sampleExtern) (Body resp) = Ok value_pete
  /\ outcome (Invoke (H := sampleExtern) (env_answers resp) value_pete instance0 world1)
     = Some (Err (fmt_Errorf ("HTTP Error: " +:+ text_pete)))
  /\ outcome (Invoke (H := sampleExtern) (env_answers resp) value_pete instance0 world1)
     <> Some (Ok value_pete).
Proof.
  intros resp. split; [unfold resp; simpl; lia|]. split; [reflexivity|].
  split; [reflexivity|]. discriminate.
Qed.

Lemma Invoke_200_error_key_witness :
  let resp := {| StatusCode := 200; Body := text_error_boom |} in
  runLock instance0 = false
  /\ json_Decode (Extern := sampleExtern) (Body resp)
     = Ok (JObject (<["error" := value_boom]> ∅))
  /\ outcome (Invoke (H := sampleExtern) (env_answers resp) value_pete instance0 world1)
     = Some (Err (fmt_Errorf ("Runtime error: boom" +:+ newline +:+ "at handle"))).
Proof.
  intros resp. split; [reflexivity|]. split; [reflexivity|].
  refine (proj1 (Invoke_200_error_key (H := sampleExtern)
                   (env_answers resp) value_pete instance0 world1 request_pete resp
                   (JObject (<["error" := value_boom]> ∅))
                   eq_refl eq_refl eq_refl eq_refl eq_refl eq_refl)
                (<["error" := value_boom]> ∅) value_boom
                {| Message := "boom"; Stack := "at handle" |} eq_refl eq_refl eq_refl).
Defined.

(** C6 as stated fails for the 2xx statuses other than 200: a 201 response
    whose body is an object with a well-formed [error] is an HTTP error, not
    a runtime error. *)
Lemma Invoke_201_error_key_is_http_error :
  let resp := {| StatusCode := 201; Body := text_error_boom |} in
  (200 <= StatusCode resp < 300)%Z
  /\ json_Decode (Extern := sampleExtern) (Body resp)
     = Ok (JObject (<["error" := value_boom]> ∅))
  /\ json_Unmarshal_jsError (Extern := sampleExtern)
       (MustJsonString (H := sampleExtern) value_boom world1).1
     = Ok {| Message := "boom"; Stack := "at handle" |}
  /\ outcome (Invoke (H := sampleExtern) (env_answers resp) value_pete instance0 world1)
     = Some (Err (fmt_Errorf ("HTTP Error: " +:+ text_error_boom)))
  /\ outcome (Invoke (H := sampleExtern) (env_answers resp) value_pete instance0 world1)
     <> Some (Err (fmt_Errorf ("Runtime error: boom" +:+ newline +:+ "at handle"))).
Proof.
  intros resp. split; [unfold resp; simpl; lia|]. split; [reflexivity|].
  split; [reflexivity|]. split; [reflexivity|]. vm_compute. discriminate.
Qed.

(** ** The readiness wait loop *)

(** [n] failed connects, each followed by the sleep. *)
Lemma waitLoop_retries ticks listenPort inst :
  denoExited inst = None ->
  forall n fuel i w,
    (forall k, (i <= k < i + n)%nat ->
               tk_ctx (ticks k) = None /\ tk_exit (ticks k) = None
               /\ tk_dial (ticks k) = false) ->
    waitLoop (n + fuel) ticks i listenPort inst w
    = waitLoop fuel ticks (i + n) listenPort inst
        (fold_left (fun w e => emit e w)
           (concat (repeat [EvDial ("localhost:" +:+ sprintf_d listenPort);
                            EvSleep (100 * Millisecond)] n)) w).
Proof.
  intros Hch. induction n as [|n IH]; intros fuel i w Hquiet.
  - simpl. replace (i + 0)%nat with i by lia. reflexivity.
  - destruct (Hquiet i ltac:(lia)) as (Hctx & Hexit & Hdial).
    cbn [Nat.add waitLoop]. unfold waitLoop_round, meanwhile, select.
    rewrite Hexit, Hctx, Hch, Hdial.
    rewrite (IH fuel (S i)); [|intros k Hk; apply Hquiet; lia].
    replace (S i + n)%nat with (i + S n)%nat by lia. reflexivity.
Qed.

(** C8, as the code has it.  In every round one [select] looks at the
    caller's context and at the exit notification together: with only the
    context done the constructor fails with [ctx.Err()], with only the
    notification ready it fails with "deno exited on boot", with both ready
    it fails with the one or the other; only with neither is a TCP connect
    made.  A connect that succeeds ends the loop, one that fails is followed
    by a sleep of 100ms and the next round.  The loop has no bound of its
    own: it goes on for as many rounds as the server needs, and for ever
    if nothing happens. *)
Theorem waitLoop_round_by_round :
  (forall tk listenPort inst w,
     let inst1 := (meanwhile tk inst w).1 in
     let w1 := (meanwhile tk inst w).2 in
     let dial := EvDial ("localhost:" +:+ sprintf_d listenPort) in
     match tk_ctx tk, denoExited inst1 with
     | Some e, None => waitLoop_round tk listenPort inst w = (RoundReturn e, inst1, w1)
     | None, Some _ =>
         waitLoop_round tk listenPort inst w
         = (RoundReturn (errors_New "deno exited on boot"), with_denoExited None inst1, w1)
     | Some e, Some _ =>
         waitLoop_round tk listenPort inst w
         = (if tk_pick_exit tk
            then (RoundReturn (errors_New "deno exited on boot"),
                  with_denoExited None inst1, w1)
            else (RoundReturn e, inst1, w1))
     | None, None =>
         waitLoop_round tk listenPort inst w
         = (if tk_dial tk
            then (RoundBreak, inst1, emit dial w1)
            else (RoundAgain, inst1, emit (EvSleep 100000000) (emit dial w1)))
     end)
  /\ (forall ticks listenPort inst w n fuel,
        denoExited inst = None ->
        (forall k, tk_ctx (ticks k) = None /\ tk_exit (ticks k) = None) ->
        (forall k, (k < n)%nat -> tk_dial (ticks k) = false) ->
        tk_dial (ticks n) = true ->
        (n < fuel)%nat ->
        waitLoop fuel ticks 0 listenPort inst w
        = Some (None, inst,
                fold_left (fun w e => emit e w)
                  (concat (repeat [EvDial ("localhost:" +:+ sprintf_d listenPort);
                                   EvSleep 100000000] n)
                   ++ [EvDial ("localhost:" +:+ sprintf_d listenPort)]) w))
  /\ (forall ticks listenPort inst w fuel,
        denoExited inst = None ->
        (forall k, tk_ctx (ticks k) = None /\ tk_exit (ticks k) = None
                   /\ tk_dial (ticks k) = false) ->
        waitLoop fuel ticks 0 listenPort inst w = None).
Proof.
  split; [|split].
  - intros tk listenPort inst w. cbn zeta. unfold waitLoop_round.
    destruct (meanwhile tk inst w) as [inst1 w1]. cbn [fst snd]. unfold select.
    destruct (tk_ctx tk) as [e|], (denoExited inst1) as [v|];
      try destruct (tk_pick_exit tk); try destruct (tk_dial tk); reflexivity.
  - intros ticks listenPort inst w n fuel Hch Hquiet Hfail Hup Hfuel.
    replace fuel with (n + S (fuel - S n))%nat by lia.
    rewrite waitLoop_retries; [|exact Hch|].
    + cbn [waitLoop Nat.add]. unfold waitLoop_round, meanwhile, select.
      destruct (Hquiet n) as [-> ->]. rewrite Hch, Hup.
      rewrite fold_left_app. reflexivity.
    + intros k Hk. destruct (Hquiet k) as [Hc He]. repeat split; auto.
      apply Hfail. lia.
  - intros ticks listenPort inst w fuel Hch Hquiet.
    replace fuel with (fuel + 0)%nat by lia.
    rewrite waitLoop_retries; [reflexivity|exact Hch|].
    intros k _. apply Hquiet.
Qed.

Lemma waitLoop_round_by_round_witness :
  waitLoop 4 (up_at 2) 0 8042 instance0 world1
  = Some (None, instance0,
          fold_left (fun w e => emit e w)
            [EvDial "localhost:8042"; EvSleep 100000000;
             EvDial "localhost:8042"; EvSleep 100000000;
             EvDial "localhost:8042"] world1).
Proof.
  refine (proj1 (proj2 waitLoop_round_by_round) (up_at 2) 8042%Z instance0 world1 2%nat
                4%nat eq_refl _ _ eq_refl _).
  - intros k. unfold up_at. destruct (k <? 2)%nat; split; reflexivity.
  - intros k Hk. unfold up_at. apply Nat.ltb_lt in Hk. rewrite Hk. reflexivity.
  - lia.
Defined.

(** C8 as stated fails: the caller has cancelled, the child has died too, and
    [select] takes the exit notification; the constructor's loop fails with
    "deno exited on boot" although the context is done. *)
Lemma waitLoop_cancelled_yet_exited_on_boot :
  tk_ctx tick_cancelled_and_dead = Some (sys_error "context canceled")
  /\ outcome (waitLoop 1 (fun _ => tick_cancelled_and_dead) 0 8042 instance0 world1)
     = Some (Some (errors_New "deno exited on boot"))
  /\ errors_New "deno exited on boot" <> sys_error "context canceled".
Proof.
  split; [reflexivity|]. split; [|discriminate].
  vm_compute. reflexivity.
Qed.

(** ** The file system *)

Lemma fs_only_refl w : fs_only w w.
Proof. repeat split. Qed.

Lemma fs_only_trans w1 w2 w3 : fs_only w1 w2 -> fs_only w2 w3 -> fs_only w1 w3.
Proof.
  unfold fs_only. intros (?&?&?&?&?&?) (?&?&?&?&?&?). repeat split; congruence.
Qed.

Lemma keeps_dirs_trans w1 w2 w3 : keeps_dirs w1 w2 -> keeps_dirs w2 w3 -> keeps_dirs w1 w3.
Proof. unfold keeps_dirs. auto. Qed.

Lemma length_drop_while p l : (length (drop_while p l) <= length l)%nat.
Proof.
  induction l as [|c l IH]; simpl; [lia|]. destruct (p c); simpl; lia.
Qed.

Lemma length_string_of_list_ascii l : String.length (string_of_list_ascii l) = length l.
Proof. induction l as [|c l IH]; simpl; [reflexivity|]. rewrite IH. reflexivity. Qed.

Lemma length_list_ascii_of_string s : length (list_ascii_of_string s) = String.length s.
Proof. induction s as [|c s IH]; simpl; [reflexivity|]. rewrite IH. reflexivity. Qed.

Lemma parent_shorter path up :
  parent path = Some up -> (String.length up < String.length path)%nat.
Proof.
  unfold parent.
  set (upto_i := drop_while IsPathSeparator (rev (list_ascii_of_string path))).
  set (upto_j := drop_while (fun c => negb (IsPathSeparator c)) upto_i).
  destruct (1 <? length upto_j)%nat eqn:E; [|discriminate].
  intros [= <-]. apply Nat.ltb_lt in E.
  rewrite length_string_of_list_ascii, length_rev.
  pose proof (length_drop_while (fun c => negb (IsPathSeparator c)) upto_i) as H1.
  pose proof (length_drop_while IsPathSeparator (rev (list_ascii_of_string path))) as H2.
  fold upto_i in H2. fold upto_j in H1.
  rewrite length_rev, length_list_ascii_of_string in H2.
  destruct upto_j as [|c t]; simpl in *; lia.
Qed.

Lemma os_Mkdir_spec path w r w' :
  os_Mkdir path w = (r, w') ->
  fs_only w w' /\ keeps_dirs w w' /\ (r = None -> w_fs w' !! path = Some Dir).
Proof.
  unfold os_Mkdir. destruct (w_fault w (OpMkdir path)).
  { intros [= <- <-]. split; [apply fs_only_refl|]. split; [intros d; auto|discriminate]. }
  destruct (w_fs w !! path) eqn:E.
  { intros [= <- <-]. split; [apply fs_only_refl|]. split; [intros d; auto|discriminate]. }
  intros [= <- <-]. split; [repeat split|]. split.
  - intros d Hd. simpl. rewrite lookup_insert_ne; [exact Hd|]. intros ->. congruence.
  - intros _. simpl. apply lookup_insert_eq.
Qed.

Lemma os_MkdirAll_rec_spec fuel :
  forall path w r w',
    os_MkdirAll_rec fuel path w = Some (r, w') ->
    fs_only w w' /\ keeps_dirs w w' /\ (r = None -> w_fs w' !! path = Some Dir).
Proof.
  induction fuel as [|fuel IH]; intros path w r w'; simpl; [discriminate|].
  destruct (w_fs w !! path) as [[|content]|] eqn:E.
  - intros [= <- <-]. split; [apply fs_only_refl|]. split; [intros d; auto|auto].
  - intros [= <- <-]. split; [apply fs_only_refl|]. split; [intros d; auto|discriminate].
  - assert (Hup : forall r1 w1,
               match parent path with
               | Some up => os_MkdirAll_rec fuel up w
               | None => Some (None, w)
               end = Some (r1, w1) -> fs_only w w1 /\ keeps_dirs w w1).
    { intros r1 w1. destruct (parent path) as [up|].
      - intros Hr. destruct (IH _ _ _ _ Hr) as (? & ? & _). auto.
      - intros [= <- <-]. split; [apply fs_only_refl|intros d; auto]. }
    destruct (match parent path with
              | Some up => os_MkdirAll_rec fuel up w
              | None => Some (None, w)
              end) as [[[e|] w1]|]; [| |discriminate].
    + intros [= <- <-]. destruct (Hup _ _ eq_refl) as [Hf1 Hk1].
      split; [exact Hf1|]. split; [exact Hk1|]. discriminate.
    + destruct (Hup _ _ eq_refl) as [Hf1 Hk1].
      destruct (os_Mkdir path w1) as [[e|] w2] eqn:Em;
        destruct (os_Mkdir_spec _ _ _ _ Em) as (Hf2 & Hk2 & Hd2).
      * destruct (w_fs w2 !! path) as [[|content]|] eqn:E2; intros [= <- <-];
          (split; [eapply fs_only_trans; eauto|]);
          (split; [eapply keeps_dirs_trans; eauto|]); auto; discriminate.
      * intros [= <- <-]. split; [eapply fs_only_trans; eauto|].
        split; [eapply keeps_dirs_trans; eauto|]. auto.
Qed.

Lemma os_MkdirAll_rec_total fuel :
  forall path w, (String.length path < fuel)%nat ->
                 exists r w', os_MkdirAll_rec fuel path w = Some (r, w').
Proof.
  induction fuel as [|fuel IH]; intros path w Hlen; [lia|]. simpl.
  destruct (w_fs w !! path) as [[|content]|]; [eauto|eauto|].
  destruct (parent path) as [up|] eqn:Ep.
  - apply parent_shorter in Ep.
    destruct (IH up w ltac:(lia)) as ([e|] & w1 & ->); [eauto|].
    destruct (os_Mkdir path w1) as [[e|] w2]; [|eauto].
    destruct (w_fs w2 !! path) as [[|content]|]; eauto.
  - destruct (os_Mkdir path w) as [[e|] w2]; [|eauto].
    destruct (w_fs w2 !! path) as [[|content]|]; eauto.
Qed.

Lemma os_MkdirAll_total path w : exists r w', os_MkdirAll path w = Some (r, w').
Proof. apply os_MkdirAll_rec_total. lia. Qed.


(** After a successful open the file is there: with all of the data when
    the call succeeds or only the close fails, with the bytes written before
    the failure otherwise. *)
Lemma write_and_close_spec path data w r w' :
  write_and_close path data w = (r, w') ->
  exists content,
    w' = with_fs (<[path := File content]> (w_fs w)) w
    /\ (content = data \/ exists n, r <> None /\ content = substring 0 n data)
    /\ (r = None -> content = data).
Proof.
  unfold write_and_close.
  destruct (short_write (w_fault w) path (seq 0 (String.length data))) as [[n e]|].
  - intros [= <- <-]. exists (substring 0 n data). split; [reflexivity|].
    split; [right; exists n; split; [discriminate|reflexivity]|discriminate].
  - intros [= <- <-]. exists data. auto.
Qed.

Lemma os_WriteFile_spec path data w r w' :
  os_WriteFile path data w = (r, w') ->
  fs_only w w' /\ keeps_dirs w w' /\ (r = None -> w_fs w' !! path = Some (File data)).
Proof.
  assert (Hins : w_fs w !! path <> Some Dir ->
                 write_and_close path data w = (r, w') ->
                 fs_only w w' /\ keeps_dirs w w'
                 /\ (r = None -> w_fs w' !! path = Some (File data))).
  { intros Hnd Hrun.
    destruct (write_and_close_spec _ _ _ _ _ Hrun) as (content & -> & _ & Hall).
    split; [repeat split|]. split.
    - intros d Hd. simpl. rewrite lookup_insert_ne; [exact Hd|]. intros ->. congruence.
    - intros Hr. rewrite (Hall Hr). simpl. apply lookup_insert_eq. }
  assert (Hsame : forall (e : error) (P : Prop),
             fs_only w w /\ keeps_dirs w w /\ (Some e = None -> P)).
  { intros e P. split; [apply fs_only_refl|]. split; [intros d; auto|discriminate]. }
  unfold os_WriteFile. destruct (w_fault w (OpWriteFile path)).
  { intros [= <- <-]. apply Hsame. }
  destruct (w_fs w !! path) as [[|content]|] eqn:E.
  - intros [= <- <-]. apply Hsame.
  - destruct (parent path) as [up|]; [destruct (w_fs w !! up) as [[|c]|]|];
      first [ apply Hins; discriminate | intros [= <- <-]; apply Hsame ].
  - destruct (parent path) as [up|]; [destruct (w_fs w !! up) as [[|c]|]|];
      first [ apply Hins; discriminate | intros [= <- <-]; apply Hsame ].
Qed.

Lemma append_inj_l s a b : s +:+ a = s +:+ b -> a = b.
Proof. induction s as [|c s IH]; simpl; [auto|]. intros [= Heq]. auto. Qed.

Lemma append_cons c s t : String c s +:+ t = String c (s +:+ t).
Proof. reflexivity. Qed.

Lemma append_assoc_s a b c : (a +:+ b) +:+ c = a +:+ (b +:+ c).
Proof.
  induction a as [|x a IH]; [reflexivity|]. rewrite !append_cons, IH. reflexivity.
Qed.

Lemma prefix_append s t : String.prefix s (s +:+ t) = true.
Proof.
  induction s as [|c s IH]; [destruct t; reflexivity|].
  rewrite append_cons. cbn [String.prefix].
  destruct (ascii_dec c c); [exact IH|contradiction].
Qed.

(** What lies in a directory is under it. *)
Lemma under_child d name : under d (d +:+ "/" +:+ name) = true.
Proof.
  unfold under. apply orb_true_iff. right.
  rewrite <- append_assoc_s. apply prefix_append.
Qed.

Lemma os_WriteFile_other path data w r w' k :
  os_WriteFile path data w = (r, w') -> k <> path -> w_fs w' !! k = w_fs w !! k.
Proof.
  intros Hrun Hne. unfold os_WriteFile in Hrun.
  assert (Hins : forall r0 w0, write_and_close path data w = (r0, w0) ->
                               w_fs w0 !! k = w_fs w !! k).
  { intros r0 w0 Hw. destruct (write_and_close_spec _ _ _ _ _ Hw) as (content & -> & _).
    simpl. apply lookup_insert_ne. congruence. }
  destruct (w_fault w (OpWriteFile path)); [injection Hrun as _ <-; reflexivity|].
  destruct (w_fs w !! path) as [[|content]|];
    [injection Hrun as _ <-; reflexivity| |];
    (destruct (parent path) as [up|]; [destruct (w_fs w !! up) as [[|c]|]|]);
    first [exact (Hins _ _ Hrun)|injection Hrun as _ <-; reflexivity].
Qed.

(** What a failed [os.WriteFile] leaves: nothing has changed when the open
    failed; otherwise the file is there, with the bytes written before the
    failure (all of them when it was the close that failed). *)
Lemma os_WriteFile_failed path data w e w' :
  os_WriteFile path data w = (Some e, w') ->
  w' = w
  \/ exists content,
       w' = with_fs (<[path := File content]> (w_fs w)) w
       /\ (content = data \/ exists n, content = substring 0 n data).
Proof.
  unfold os_WriteFile.
  assert (Hw : forall w0, write_and_close path data w = (Some e, w0) ->
                          w0 = w
                          \/ exists content,
                               w0 = with_fs (<[path := File content]> (w_fs w)) w
                               /\ (content = data \/ exists n, content = substring 0 n data)).
  { intros w0 Hrun. right.
    destruct (write_and_close_spec _ _ _ _ _ Hrun) as (content & -> & Hc & _).
    exists content. split; [reflexivity|].
    destruct Hc as [->|(n & _ & ->)]; [left; reflexivity|right; eauto]. }
  destruct (w_fault w (OpWriteFile path)); [intros [= _ <-]; left; reflexivity|].
  destruct (w_fs w !! path) as [[|content]|];
    [intros [= _ <-]; left; reflexivity| |];
    (destruct (parent path) as [up|]; [destruct (w_fs w !! up) as [[|c]|]|]);
    first [exact (Hw w')|intros [= _ <-]; left; reflexivity].
Qed.

Lemma length_append_s a b :
  String.length (a +:+ b) = (String.length a + String.length b)%nat.
Proof. induction a as [|c a IH]; [reflexivity|]. rewrite append_cons. simpl. lia. Qed.

Lemma prefix_app_l a b c : String.prefix (a +:+ b) (a +:+ c) = String.prefix b c.
Proof.
  induction a as [|x a IH]; [reflexivity|]. rewrite !append_cons. cbn [String.prefix].
  destruct (ascii_dec x x); [exact IH|contradiction].
Qed.

Lemma eqb_app_l a b c : String.eqb (a +:+ b) (a +:+ c) = String.eqb b c.
Proof.
  induction a as [|x a IH]; [reflexivity|]. rewrite !append_cons. cbn [String.eqb].
  rewrite Ascii.eqb_refl. exact IH.
Qed.

Lemma prefix_same_length a b x y :
  String.length a = String.length b -> String.prefix (a +:+ x) (b +:+ y) = true -> a = b.
Proof.
  revert b. induction a as [|c a IH]; intros [|d b]; try discriminate; [reflexivity|].
  intros [= Hlen]. rewrite !append_cons. cbn [String.prefix].
  destruct (ascii_dec c d) as [->|]; [|discriminate].
  intros Hp. rewrite (IH b Hlen Hp). reflexivity.
Qed.

Lemma append_nil_r_s a : a +:+ EmptyString = a.
Proof. induction a as [|c a IH]; [reflexivity|]. rewrite append_cons, IH. reflexivity. Qed.

(** The working directory of one function holds neither the working
    directory of a function with another hash nor anything in it. *)
Lemma under_other_function root h h' rest :
  String.length h = String.length h' -> h <> h' ->
  under (root +:+ "/.deno/function-" +:+ h)
        ((root +:+ "/.deno/function-" +:+ h') +:+ rest) = false.
Proof.
  intros Hlen Hne. unfold under. rewrite !append_assoc_s.
  rewrite !prefix_app_l, !eqb_app_l. apply orb_false_iff. split.
  - apply String.eqb_neq. intros Heq. apply Hne.
    assert (Hrest : rest = EmptyString).
    { apply (f_equal String.length) in Heq. rewrite length_append_s in Heq.
      destruct rest; [reflexivity|simpl in Heq; lia]. }
    rewrite Hrest, append_nil_r_s in Heq. exact Heq.
  - destruct (String.prefix (h +:+ "/") (h' +:+ rest)) eqn:Hp; [|reflexivity].
    destruct (Hne (prefix_same_length _ _ _ _ Hlen Hp)).
Qed.

(** Nor the engine's cache, nor the directory [.deno] itself. *)
Lemma under_cache root h :
  under (root +:+ "/.deno/function-" +:+ h) (root +:+ "/.deno/cache") = false
  /\ under (root +:+ "/.deno/function-" +:+ h) (root +:+ "/.deno") = false.
Proof.
  unfold under. rewrite !append_assoc_s, !prefix_app_l, !eqb_app_l.
  split; reflexivity.
Qed.



Section ConstructorFacts.
Context `{Extern}.

Lemma copyDenoFiles_range_spec files destDir :
  forall w r w',
    copyDenoFiles_range files destDir w = (r, w') -> fs_only w w' /\ keeps_dirs w w'.
Proof.
  induction files as [|[name buf] rest IH]; intros w r w'; simpl.
  - intros [= <- <-]. split; [apply fs_only_refl|intros d; auto].
  - destruct (os_WriteFile (destDir +:+ "/" +:+ name) buf w) as [[e|] w1] eqn:E;
      destruct (os_WriteFile_spec _ _ _ _ _ E) as (Hf & Hk & _).
    + intros [= <- <-]. auto.
    + intros Hr. destruct (IH _ _ _ Hr) as [Hf' Hk'].
      split; [eapply fs_only_trans; eauto|eapply keeps_dirs_trans; eauto].
Qed.

Lemma copyDenoFiles_range_written destDir files :
  NoDup (map fst files) ->
  forall w w',
    copyDenoFiles_range files destDir w = (None, w') ->
    (forall name buf, (name, buf) ∈ files ->
                      w_fs w' !! (destDir +:+ "/" +:+ name) = Some (File buf))
    /\ (forall k, (forall name, name ∈ map fst files -> k <> destDir +:+ "/" +:+ name) ->
                  w_fs w' !! k = w_fs w !! k).
Proof.
  induction files as [|[name buf] rest IH]; intros Hnd w w' Hrun; simpl in Hrun.
  - injection Hrun as <-. split; [intros n b Hin; inversion Hin|reflexivity].
  - simpl in Hnd. apply NoDup_cons in Hnd as [Hfresh Hnd].
    destruct (os_WriteFile (destDir +:+ "/" +:+ name) buf w) as [[e|] w1] eqn:E;
      [discriminate|].
    destruct (IH Hnd w1 w' Hrun) as [Hin Hout].
    destruct (os_WriteFile_spec _ _ _ _ _ E) as (_ & _ & Hhere).
    split.
    + intros n b Hmem. apply elem_of_cons in Hmem as [[= -> ->]|Hmem]; [|exact (Hin n b Hmem)].
      rewrite Hout; [apply Hhere; reflexivity|].
      intros n' Hn' Heq. apply append_inj_l in Heq. apply append_inj_l in Heq.
      subst n'. exact (Hfresh Hn').
    + intros k Hk. rewrite Hout.
      * apply (os_WriteFile_other _ _ _ _ _ _ E). apply Hk. simpl. apply elem_of_cons. left.
        reflexivity.
      * intros n Hn. apply Hk. simpl. apply elem_of_cons. right. exact Hn.
Qed.


Lemma MustJsonString_world v w :
  fs_only w (MustJsonString v w).2 /\ w_fs (MustJsonString v w).2 = w_fs w.
Proof.
  unfold MustJsonString, MustJsonByteSlice. destruct (json_Marshal v); simpl.
  - split; [apply fs_only_refl|reflexivity].
  - split; [repeat split|reflexivity].
Qed.

Lemma goes_on_refl w : goes_on w w.
Proof. repeat split. exists []. rewrite app_nil_r. reflexivity. Qed.

Lemma goes_on_trans w1 w2 w3 : goes_on w1 w2 -> goes_on w2 w3 -> goes_on w1 w3.
Proof.
  intros (?&?&?&m1&?) (?&?&?&m2&?). repeat split; try congruence.
  exists (m1 ++ m2). rewrite app_assoc. congruence.
Qed.

Lemma goes_on_emit e w : goes_on w (emit e w).
Proof. repeat split. exists [e]. reflexivity. Qed.

Lemma meanwhile_spec tk inst w :
  goes_on w (meanwhile tk inst w).2
  /\ tempDir (meanwhile tk inst w).1 = tempDir inst
  /\ Process (cmd (meanwhile tk inst w).1) = Process (cmd inst).
Proof.
  unfold meanwhile, child_ends.
  destruct (tk_exit tk) as [ws|]; [|split; [apply goes_on_refl|auto]].
  destruct (Process (cmd inst)) as [pid|] eqn:Ep; [|split; [apply goes_on_refl|auto]].
  destruct (w_procs w !! pid) as [[|ws']|]; try (split; [apply goes_on_refl|auto]).
  cbn [fst snd]. split; [repeat split; exists []; rewrite app_nil_r; reflexivity|].
  unfold waiter. rewrite Ep. destruct (ProcessState (cmd inst)); [auto|].
  cbn [w_procs with_procs]. rewrite lookup_insert_eq. cbn. auto.
Qed.

Lemma child_ends_spec ws inst w :
  goes_on w (child_ends ws inst w).2
  /\ tempDir (child_ends ws inst w).1 = tempDir inst
  /\ Process (cmd (child_ends ws inst w).1) = Process (cmd inst).
Proof.
  pose proof (meanwhile_spec {| tk_ctx := None; tk_exit := Some ws;
                                tk_pick_exit := false; tk_dial := false |} inst w) as Hm.
  exact Hm.
Qed.

Lemma lately_spec late inst w :
  goes_on w (lately late inst w).2
  /\ tempDir (lately late inst w).1 = tempDir inst
  /\ Process (cmd (lately late inst w).1) = Process (cmd inst).
Proof.
  destruct late as [[ws [|]]|]; [apply child_ends_spec| |].
  - destruct (child_ends_spec ws inst w) as (Hg & _). cbn [lately fst snd]. auto.
  - split; [apply goes_on_refl|]. split; reflexivity.
Qed.

Lemma waitLoop_round_spec tk listenPort inst w r inst' w' :
  waitLoop_round tk listenPort inst w = (r, inst', w') ->
  goes_on w w' /\ tempDir inst' = tempDir inst
  /\ Process (cmd inst') = Process (cmd inst).
Proof.
  unfold waitLoop_round. destruct (meanwhile_spec tk inst w) as (Hg & Ht & Hp).
  destruct (meanwhile tk inst w) as [inst1 w1]. cbn [fst snd] in *.
  destruct (select tk inst1).
  - intros [= <- <- <-]. auto.
  - intros [= <- <- <-]. auto.
  - destruct (tk_dial tk); intros [= <- <- <-]; (split; [|auto]).
    + eapply goes_on_trans; [exact Hg|apply goes_on_emit].
    + eapply goes_on_trans; [exact Hg|].
      eapply goes_on_trans; apply goes_on_emit.
Qed.

Lemma waitLoop_spec ticks listenPort fuel :
  forall i inst w r inst' w',
    waitLoop fuel ticks i listenPort inst w = Some (r, inst', w') ->
    goes_on w w' /\ tempDir inst' = tempDir inst
    /\ Process (cmd inst') = Process (cmd inst).
Proof.
  induction fuel as [|fuel IH]; intros i inst w r inst' w'; simpl; [discriminate|].
  destruct (waitLoop_round (ticks i) listenPort inst w) as [[rr inst1] w1] eqn:E.
  destruct (waitLoop_round_spec _ _ _ _ _ _ _ E) as (Hg & Ht & Hp).
  destruct rr.
  - intros [= <- <- <-]. auto.
  - intros [= <- <- <-]. auto.
  - intros Hr. destruct (IH _ _ _ _ _ _ Hr) as (Hg' & Ht' & Hp').
    split; [eapply goes_on_trans; eauto|]. split; congruence.
Qed.

Lemma Close_trace inst w :
  exists more, w_trace (Close inst w) = (w_trace w ++ more)%list.
Proof.
  unfold Close.
  assert (Hrm : forall w1,
             w_trace (match os_RemoveAll (tempDir inst) w1 with
                      | (Some err, w2) =>
                          Printf ("Could not delete directory " +:+ tempDir inst +:+ ": "
                                  +:+ Error err +:+ newline) w2
                      | (None, w2) => w2
                      end) = w_trace w1).
  { intros w1. unfold os_RemoveAll.
    destruct (String.eqb (tempDir inst) EmptyString), (endsWithDot (tempDir inst)),
             (w_fault w1 (OpRemoveAll (tempDir inst))); reflexivity. }
  rewrite Hrm. unfold Process_Kill.
  destruct (Process (cmd inst)) as [pid|].
  - destruct (w_procs w !! pid) as [[|ws]|]; exists [EvKill pid]; reflexivity.
  - exists []. rewrite app_nil_r. reflexivity.
Qed.
End ConstructorFacts.

(** ** The constructor *)

Section Constructor.
Context `{Extern}.

(** What the three materialising steps leave behind when they succeed. *)
Lemma materialised config initData code w w1 w2 w3 :
  os_MkdirAll (denoDir config code) w = Some (None, w1) ->
  copyDenoFiles (denoDir config code) w1 = (None, w2) ->
  os_WriteFile (denoDir config code +:+ "/function.js")
               (wrapScript (MustJsonString initData w2).1 code)
               (MustJsonString initData w2).2 = (None, w3) ->
  fs_only w w3
  /\ w_fs w3 !! denoDir config code = Some Dir
  /\ w_fs w3 !! (denoDir config code +:+ "/function.js")
     = Some (File (wrapScript (MustJsonString initData w2).1 code)).
Proof.
  intros H1 H2 H3.
  destruct (os_MkdirAll_rec_spec _ _ _ _ _ H1) as (Hf1 & _ & Hd1).
  destruct (copyDenoFiles_range_spec _ _ _ _ _ H2) as (Hf2 & Hk2).
  destruct (MustJsonString_world initData w2) as (Hf3 & Hfs3).
  destruct (os_WriteFile_spec _ _ _ _ _ H3) as (Hf4 & Hk4 & Hd4).
  split; [|split].
  - eapply fs_only_trans; [exact Hf1|]. eapply fs_only_trans; [exact Hf2|].
    eapply fs_only_trans; [exact Hf3|exact Hf4].
  - apply Hk4. rewrite Hfs3. apply Hk2. apply Hd1. reflexivity.
  - apply Hd4. reflexivity.
Qed.

(** How a construction that succeeds went: the three materialising steps,
    the port, the spawn, a wait loop left by [break], and what happened to
    the child after the last look at it. *)
Lemma constructor_success env fuel config initData code w inst w' :
  NewDenoFunctionInstance env fuel config initData code w = Some (Ok inst, w') ->
  exists w1 w2 w3 listenPort ports inst1 w5,
    os_MkdirAll (denoDir config code) w = Some (None, w1)
    /\ copyDenoFiles (denoDir config code) w1 = (None, w2)
    /\ os_WriteFile (denoDir config code +:+ "/function.js")
         (wrapScript (MustJsonString initData w2).1 code)
         (MustJsonString initData w2).2 = (None, w3)
    /\ Port.FindFreePort Port.budget (be_rnd env) (be_listen env) 8000
         (w_handedOutPorts w3) = Some (listenPort, ports)
    /\ (let pid := w_next_pid w3 in
        let args := [DenoPath config; "run"; "--unstable"; "--allow-net"; "--allow-env";
                     denoDir config code +:+ "/function_server.ts";
                     sprintf_d listenPort] in
        let envs := ["NO_COLOR=1"; "DENO_DIR=" +:+ WorkDir config +:+ "/.deno/cache"] in
        waitLoop fuel (be_ticks env) 0 listenPort
          {| config := config;
             cmd := {| Args := args; Env := envs; Setpgid := true;
                       Process := Some pid; ProcessState := None |};
             lastInvoked := 0; runLock := false;
             serverURL := "http://localhost:" +:+ sprintf_d listenPort;
             tempDir := denoDir config code; denoExited := None |}
          (emit (EvSpawn pid (DenoPath config) args envs)
             (with_procs (<[pid := Running]> (w_procs w3)) (pid + 1)%Z
                (with_handedOutPorts ports w3)))
        = Some (None, inst1, w5))
    /\ lately (be_late env) inst1 w5 = (inst, w').
Proof.
  unfold NewDenoFunctionInstance. intros Hrun.
  destruct (os_MkdirAll (denoDir config code) w) as [[[e|] w1]|] eqn:E1;
    try discriminate.
  destruct (copyDenoFiles (denoDir config code) w1) as [[e|] w2] eqn:E2;
    try discriminate.
  destruct (MustJsonString initData w2) as [initJSON w2'] eqn:E3.
  destruct (os_WriteFile _ _ w2') as [[e|] w3] eqn:E4; try discriminate.
  destruct (Port.FindFreePort _ _ _ _ _) as [[listenPort ports]|] eqn:E5;
    try discriminate.
  destruct (w_fault _ (OpPipe "stdout")); try discriminate.
  destruct (w_fault _ (OpPipe "stderr")); try discriminate.
  unfold cmd_Start in Hrun. destruct (negb _); [discriminate|].
  destruct (w_fault _ (OpStart _)); [discriminate|].
  cbn [fst snd] in *.
  destruct (waitLoop _ _ _ _ _ _) as [[[r inst1] w5]|] eqn:E6; try discriminate.
  destruct (lately (be_late env) inst1 w5) as [inst2 w6] eqn:E7.
  destruct r as [e|]; [discriminate|]. injection Hrun as <- <-.
  exists w1, w2, w3, listenPort, ports, inst1, w5. rewrite E3. cbn [fst snd].
  split; [first [reflexivity|exact E1]|]. split; [first [reflexivity|exact E2]|].
  split; [first [reflexivity|exact E4]|]. split; [first [reflexivity|exact E5]|].
  split; [first [reflexivity|exact E6]|first [reflexivity|exact E7]].
Qed.


(** C4, as the code has it: when the materialising steps succeed and the
    engine cannot be started, the constructor returns the spawn failure
    ("deno run" around the cause) and no instance; no process was made; and
    the working directory, with the function file in it, stays on disk. *)
Theorem spawn_failure_keeps_working_directory
    env fuel config initData code w w1 w2 w3 :
  os_MkdirAll (denoDir config code) w = Some (None, w1) ->
  copyDenoFiles (denoDir config code) w1 = (None, w2) ->
  os_WriteFile (denoDir config code +:+ "/function.js")
               (wrapScript (MustJsonString initData w2).1 code)
               (MustJsonString initData w2).2 = (None, w3) ->
  w_fault w (OpPipe "stdout") = None ->
  w_fault w (OpPipe "stderr") = None ->
  DenoPath config ∉ w_executables w \/ w_fault w (OpStart (DenoPath config)) <> None ->
  exists cause w',
    NewDenoFunctionInstance env fuel config initData code w
    = Some (Err (errors_Wrap cause "deno run"), w')
    /\ w_fs w' !! denoDir config code = Some Dir
    /\ w_fs w' !! (denoDir config code +:+ "/function.js")
       = Some (File (wrapScript (MustJsonString initData w2).1 code))
    /\ w_procs w' = w_procs w
    /\ w_trace w' = w_trace w.
Proof.
  intros H1 H2 H3 Hout Herr Hstart.
  destruct (materialised config initData code w w1 w2 w3 H1 H2 H3)
    as ((Hfault & Hexe & Hprocs & Hpid & Hports & Htrace) & Hdir & Hfile).
  unfold NewDenoFunctionInstance. rewrite H1, H2.
  destruct (MustJsonString initData w2) as [initJSON w2'] eqn:E3.
  cbn [fst snd] in *. rewrite H3.
  destruct (FindFreePort_spec (be_listen env) 8000 (be_rnd env) (w_handedOutPorts w3))
    as (listenPort & ports & -> & _).
  cbn [w_fault with_handedOutPorts]. rewrite Hfault, Hout, Herr.
  unfold cmd_Start.
  cbn [command hd Args cmd with_cmd with_denoExited exec_Command w_executables w_fault
       with_handedOutPorts].
  rewrite Hexe, Hfault.
  destruct (bool_decide (DenoPath config ∈ w_executables w)) eqn:Eexe; cbn [negb].
  - apply bool_decide_eq_true in Eexe.
    destruct Hstart as [Hno|Hfl]; [contradiction|].
    destruct (w_fault w (OpStart (DenoPath config))) as [e|]; [|congruence].
    eexists _, _. split; [reflexivity|]. cbn. auto.
  - eexists _, _. split; [reflexivity|]. cbn. auto.
Qed.
(** The constructor returns unless the wait loop is cut short: creating the
    directories and looking for a port always come to an end. *)
Lemma constructor_stops_unless_waiting env fuel config initData code w :
  NewDenoFunctionInstance env fuel config initData code w = None ->
  exists listenPort inst1 w1,
    waitLoop fuel (be_ticks env) 0 listenPort inst1 w1 = None.
Proof.
  unfold NewDenoFunctionInstance.
  destruct (os_MkdirAll_total (denoDir config code) w) as ([e|] & w1 & ->);
    [discriminate|].
  destruct (copyDenoFiles (denoDir config code) w1) as [[e|] w2]; [discriminate|].
  destruct (MustJsonString initData w2) as [initJSON w2'].
  destruct (os_WriteFile _ _ w2') as [[e|] w3]; [discriminate|].
  destruct (FindFreePort_spec (be_listen env) 8000 (be_rnd env) (w_handedOutPorts w3))
    as (listenPort & ports & -> & _).
  destruct (w_fault _ (OpPipe "stdout")); [discriminate|].
  destruct (w_fault _ (OpPipe "stderr")); [discriminate|].
  destruct (cmd_Start _ _) as [[[e|] c] w4]; [discriminate|].
  destruct (waitLoop _ _ _ _ _ _) as [[[r inst1] w5]|] eqn:E6; [|intros _; eauto].
  destruct (lately _ inst1 w5) as [inst2 w6]. destruct r; discriminate.
Qed.

(** When every bind is refused the allocator gives up. *)
Lemma FindFreePort_all_refused rnd listen startPort (m : gmap Z bool) :
  (forall i p, listen i p = false) ->
  Port.FindFreePort Port.budget rnd listen startPort m = Some ((-1)%Z, m).
Proof.
  intros Hno. destruct (FindFreePort_spec listen startPort rnd m) as (r & m' & -> & Hcase).
  destruct Hcase as [(k & _ & _ & Hl & _)|(-> & -> & _)]; [|reflexivity].
  rewrite Hno in Hl. discriminate.
Qed.

(** The constructor does not look at what the allocator returned: when the
    files are in place, the engine can be started and every bind is refused,
    the child is started with "-1" as its port argument, whatever comes
    after. *)
Lemma constructor_passes_sentinel_to_child
    env fuel config initData code w w1 w2 w3 r w' :
  os_MkdirAll (denoDir config code) w = Some (None, w1) ->
  copyDenoFiles (denoDir config code) w1 = (None, w2) ->
  os_WriteFile (denoDir config code +:+ "/function.js")
               (wrapScript (MustJsonString initData w2).1 code)
               (MustJsonString initData w2).2 = (None, w3) ->
  w_fault w (OpPipe "stdout") = None ->
  w_fault w (OpPipe "stderr") = None ->
  DenoPath config ∈ w_executables w ->
  w_fault w (OpStart (DenoPath config)) = None ->
  (forall i p, be_listen env i p = false) ->
  NewDenoFunctionInstance env fuel config initData code w = Some (r, w') ->
  exists more,
    w_trace w'
    = w_trace w
      ++ EvSpawn (w_next_pid w) (DenoPath config)
           [DenoPath config; "run"; "--unstable"; "--allow-net"; "--allow-env";
            denoDir config code +:+ "/function_server.ts"; "-1"]
           ["NO_COLOR=1"; "DENO_DIR=" +:+ WorkDir config +:+ "/.deno/cache"]
         :: more.
Proof.
  intros H1 H2 H3 Hout Herr Hexe Hstart Hno.
  destruct (materialised config initData code w w1 w2 w3 H1 H2 H3)
    as ((Hfault & Hexes & Hprocs & Hpid & Hports & Htrace) & _).
  unfold NewDenoFunctionInstance. rewrite H1, H2.
  destruct (MustJsonString initData w2) as [initJSON w2'] eqn:E3.
  cbn [fst snd] in *. rewrite H3.
  rewrite (FindFreePort_all_refused _ _ _ _ Hno).
  cbn [w_fault with_handedOutPorts]. rewrite Hfault, Hout, Herr.
  unfold cmd_Start.
  cbn [command hd Args Env cmd with_cmd with_denoExited exec_Command w_executables
       w_fault with_handedOutPorts w_next_pid w_procs app].
  rewrite Hexes, Hfault, Hstart, Hpid. rewrite bool_decide_eq_true_2 by exact Hexe.
  cbn [negb].
  destruct (waitLoop _ _ _ _ _ _) as [[[r0 inst1] w5]|] eqn:E6; [|discriminate].
  destruct (waitLoop_spec _ _ _ _ _ _ _ _ _ E6) as ((_ & _ & _ & more & Hmore) & _ & Hp).
  destruct (lately_spec (be_late env) inst1 w5) as ((_ & _ & _ & late & Hlate) & _ & Hp').
  destruct (lately (be_late env) inst1 w5) as [inst2 w6]. cbn [fst snd] in Hlate, Hp'.
  cbn [cmd with_serverURL with_cmd Process] in Hp.
  destruct r0 as [e|].
  - rewrite Hp', Hp.
    intros [= <- <-]. destruct (Close_trace inst2 w6) as (more' & ->).
    rewrite Hlate, Hmore. cbn [w_trace emit with_procs with_handedOutPorts].
    rewrite Htrace. exists (more ++ late ++ more'). rewrite <- !app_assoc. reflexivity.
  - intros [= <- <-]. rewrite Hlate, Hmore.
    cbn [w_trace emit with_procs with_handedOutPorts]. rewrite Htrace.
    exists (more ++ late). rewrite <- !app_assoc. reflexivity.
Qed.
End Constructor.


Lemma spawn_failure_keeps_working_directory_witness :
  exists cause w',
    NewDenoFunctionInstance (H := sampleExtern) bootenv0 4 config_no_engine JNull code0
                            world0
    = Some (Err (errors_Wrap cause "deno run"), w')
    /\ w_fs w' !! denoDir config_no_engine code0 = Some Dir.
Proof.
  assert (E1 : os_MkdirAll (denoDir config_no_engine code0) world0
               = Some (None, world0_mkdir)) by (vm_compute; reflexivity).
  assert (E2 : copyDenoFiles (H := sampleExtern) (denoDir config_no_engine code0)
                 world0_mkdir = (None, world0_copied)) by (vm_compute; reflexivity).
  assert (E3 : os_WriteFile (denoDir config_no_engine code0 +:+ "/function.js")
                 (wrapScript (MustJsonString (H := sampleExtern) JNull world0_copied).1
                             code0)
                 (MustJsonString (H := sampleExtern) JNull world0_copied).2
               = (None, world0_written)) by (vm_compute; reflexivity).
  destruct (spawn_failure_keeps_working_directory (H := sampleExtern)
              bootenv0 4 config_no_engine JNull code0 world0 _ _ _ E1 E2 E3
              eq_refl eq_refl)
    as (cause & w' & Hrun & Hdir & _).
  { left.
    apply (proj1 (bool_decide_eq_false
                    (DenoPath config_no_engine ∈ w_executables world0))).
    vm_compute. reflexivity. }
  exists cause, w'. split; [exact Hrun|exact Hdir].
Defined.

(** C4 as stated fails: with an engine path that does not exist the
    constructor fails at the spawn, and the working directory it has made is
    still on disk. *)
Lemma spawn_failure_leaves_directory_behind :
  exists w',
    NewDenoFunctionInstance (H := sampleExtern) bootenv0 4 config_no_engine JNull code0
                            world0
    = Some (Err (errors_Wrap
                   (sys_error "fork/exec /nonexistent/deno: no such file or directory")
                   "deno run"), w')
    /\ w_fs world0 !! denoDir config_no_engine code0 = None
    /\ w_fs w' !! denoDir config_no_engine code0 = Some Dir.
Proof.
  eexists. split; [vm_compute; reflexivity|]. split; vm_compute; reflexivity.
Qed.

(** C5: when no port can be bound the allocator returns -1, and the
    constructor goes on with it: the child is started with "-1" as its port
    argument (here it then exits, and the constructor fails with "deno exited
    on boot" after a kill). *)
Theorem sentinel_port_is_given_to_the_child :
  Port.FindFreePort Port.budget rnd42 (fun _ _ => false) 8000 ∅ = Some ((-1)%Z, ∅)
  /\ option_map (fun rw => (rw.1, w_trace rw.2))
       (NewDenoFunctionInstance (H := sampleExtern) bootenv_no_port 4 config0 JNull
                                code0 world0)
     = Some (Err (errors_New "deno exited on boot"),
             [EvSpawn 100 "/usr/bin/deno"
                ["/usr/bin/deno"; "run"; "--unstable"; "--allow-net"; "--allow-env";
                 "./.deno/function-7ddfe7586b271f190727fe3434e4a80d9bf9ce48/function_server.ts";
                 "-1"]
                ["NO_COLOR=1"; "DENO_DIR=./.deno/cache"];
              EvKill 100]).
Proof. split; vm_compute; reflexivity. Qed.

(** ** Removing the working directory *)

Section CloseFacts.
Context `{Extern}.

Lemma os_RemoveAll_removes path w :
  removes path w ->
  exists w', os_RemoveAll path w = (None, w')
             /\ forall k, under path k = true -> w_fs w' !! k = None.
Proof.
  intros (Hpath & Hdot & Hfault). unfold os_RemoveAll.
  rewrite (proj2 (String.eqb_neq _ _) Hpath), Hdot, Hfault.
  eexists. split; [reflexivity|].
  intros k Hk. simpl. apply map_lookup_filter_None. right.
  intros x _. simpl. rewrite Hk. simpl. tauto.
Qed.

Lemma under_self path : under path path = true.
Proof. unfold under. rewrite String.eqb_refl. reflexivity. Qed.

End CloseFacts.

(** ** Concurrent callers *)

Section Serial.
Context `{Extern}.

Lemma Invoke_unlocked env event inst w ret inst' w' :
  Invoke env event inst w = Some (ret, inst', w') -> runLock inst' = false.
Proof.
  unfold Invoke. destruct (runLock inst); [discriminate|].
  destruct (Invoke_locked _ _ _ _) as [[r i] w1]. intros [= <- <- <-]. reflexivity.
Qed.

Lemma Invoke_free env event inst w :
  runLock inst = false -> exists r, Invoke env event inst w = Some r.
Proof.
  intros Hl. unfold Invoke. rewrite Hl.
  destruct (Invoke_locked _ _ _ _) as [[r i] w1]. eauto.
Qed.

Lemma Invoke_finish_S fuel env event p inst w :
  holds_lock p = true \/ p = AtLock ->
  Invoke_finish (S fuel) env event p inst w
  = match Invoke_step env event p inst w with
    | None => None
    | Some (p', inst', w') => Invoke_finish fuel env event p' inst' w'
    end.
Proof. destruct p; intros [Hp|Hp]; try discriminate; reflexivity. Qed.

Lemma Invoke_finish_Returned fuel env event ret inst w :
  Invoke_finish fuel env event (Returned ret) inst w = Some (ret, inst, w).
Proof. destruct fuel; reflexivity. Qed.

Ltac next_statement :=
  rewrite Invoke_finish_S by (first [left; reflexivity | right; reflexivity]);
  cbn [Invoke_step].

(** [Invoke] is its statements run in a row. *)
Lemma Invoke_as_steps env event inst w :
  Invoke env event inst w = Invoke_finish 7 env event AtLock inst w.
Proof.
  unfold Invoke, Invoke_locked. next_statement.
  destruct (runLock inst); [reflexivity|].
  next_statement. next_statement.
  destruct (processExited (with_lastInvoked (ie_now env) (with_runLock true inst))).
  { next_statement. rewrite Invoke_finish_Returned. reflexivity. }
  next_statement.
  destruct (MustJsonString event w) as [body w1].
  destruct (http_NewRequestWithContext "POST"
              (serverURL (with_lastInvoked (ie_now env) (with_runLock true inst))) body)
    as [req|e].
  2: { next_statement. rewrite Invoke_finish_Returned. reflexivity. }
  next_statement.
  destruct (ie_Do env req) as [resp|e].
  2: { next_statement. rewrite Invoke_finish_Returned. reflexivity. }
  next_statement.
  destruct (classify resp (emit (EvHTTP req) w1)) as [ret w2].
  next_statement. rewrite Invoke_finish_Returned. reflexivity.
Qed.

(** A caller that holds the lock can always take its next step; the lock
    stays taken until the step that returns, which frees it. *)
Lemma Invoke_step_locked env event p inst w :
  holds_lock p = true ->
  exists p' inst' w',
    Invoke_step env event p inst w = Some (p', inst', w')
    /\ ((holds_lock p' = true /\ runLock inst' = runLock inst)
        \/ (exists ret, p' = Returned ret /\ runLock inst' = false)).
Proof.
  destruct p; cbn [holds_lock Invoke_step]; intros Hp; try discriminate.
  - eexists _, _, _. split; [reflexivity|]. left. split; reflexivity.
  - destruct (processExited inst); eexists _, _, _; (split; [reflexivity|]);
      left; split; reflexivity.
  - destruct (MustJsonString event w) as [body w1].
    destruct (http_NewRequestWithContext _ _ _); eexists _, _, _;
      (split; [reflexivity|]); left; split; reflexivity.
  - destruct (ie_Do env req); eexists _, _, _; (split; [reflexivity|]);
      left; split; reflexivity.
  - destruct (classify resp w) as [ret w1]. eexists _, _, _.
    split; [reflexivity|]. left. split; reflexivity.
  - eexists _, _, _. split; [reflexivity|]. right. exists ret. split; reflexivity.
Qed.

Lemma Invoke_finish_needs_fuel env event p inst w r :
  holds_lock p = true ->
  Invoke_finish 0 env event p inst w = Some r -> False.
Proof. destruct p; cbn; intros; discriminate. Qed.

Variable callers : list Caller.
Variable inst0 : DenoFunctionInstance.
Variable w0 : World.
Hypothesis lock_free : runLock inst0 = false.

Lemma Invoke_in_order_snoc order :
  forall inst w rets instS wS a c ret inst' w',
    Invoke_in_order callers order inst w = Some (rets, instS, wS) ->
    callers !! a = Some c ->
    Invoke (c_env c) (c_event c) instS wS = Some (ret, inst', w') ->
    Invoke_in_order callers (order ++ [a]) inst w = Some (rets ++ [(a, ret)], inst', w').
Proof.
  induction order as [|i order IH]; intros inst w rets instS wS a c ret inst' w' Hrun Hc Hi.
  - injection Hrun as <- <- <-. simpl. rewrite Hc, Hi. reflexivity.
  - simpl in *. destruct (callers !! i) as [ci|]; [|discriminate].
    destruct (Invoke (c_env ci) (c_event ci) inst w) as [[[r1 i1] w1]|]; [|discriminate].
    destruct (Invoke_in_order callers order i1 w1) as [[[rs i2] w2]|] eqn:E; [|discriminate].
    injection Hrun as <- <- <-.
    rewrite (IH _ _ _ _ _ _ _ _ _ _ E Hc Hi). reflexivity.
Qed.

Lemma Invoke_in_order_spec order :
  forall inst w rets instS wS,
    Invoke_in_order callers order inst w = Some (rets, instS, wS) ->
    runLock inst = false ->
    runLock instS = false /\ map fst rets = order
    /\ forall i, i ∈ order -> (i < length callers)%nat.
Proof.
  induction order as [|i order IH]; intros inst w rets instS wS Hrun Hl.
  - injection Hrun as <- <- <-. split; [exact Hl|]. split; [reflexivity|].
    intros i Hi. inversion Hi.
  - simpl in Hrun. destruct (callers !! i) as [ci|] eqn:Ec; [|discriminate].
    destruct (Invoke (c_env ci) (c_event ci) inst w) as [[[r1 i1] w1]|] eqn:Ei;
      [|discriminate].
    destruct (Invoke_in_order callers order i1 w1) as [[[rs i2] w2]|] eqn:E; [|discriminate].
    injection Hrun as <- <- <-.
    destruct (IH _ _ _ _ _ E (Invoke_unlocked _ _ _ _ _ _ _ Ei)) as (Hl' & Hm & Hlt).
    split; [exact Hl'|]. split; [simpl; rewrite Hm; reflexivity|].
    intros j Hj. apply elem_of_cons in Hj as [->|Hj]; [|exact (Hlt j Hj)].
    apply lookup_lt_Some in Ec. exact Ec.
Qed.

Lemma serial_inv_start : serial_inv callers inst0 w0 (start callers inst0 w0).
Proof.
  exists [], [], inst0, w0. split; [reflexivity|]. split; [constructor|].
  split; [apply length_map|]. split; [intros i ret Hin; inversion Hin|].
  left. split; [reflexivity|]. split; [reflexivity|].
  intros i p _ _ Hp. cbn [start s_pcs] in Hp. rewrite list_lookup_fmap in Hp.
  destruct (callers !! i); simpl in Hp; congruence.
Qed.

Lemma returned_of_order (order : list nat) (rets : list (nat * result json))
    (pcs : list pc) :
  map fst rets = order ->
  (forall i ret, (i, ret) ∈ rets -> pcs !! i = Some (Returned ret)) ->
  forall i, i ∈ order -> exists ret, (i, ret) ∈ rets /\ pcs !! i = Some (Returned ret).
Proof.
  intros <- Hrets i Hi. apply list_elem_of_fmap in Hi as ([j ret] & -> & Hin).
  exists ret. split; [exact Hin|]. apply Hrets. exact Hin.
Qed.

Lemma serial_inv_sched i s :
  serial_inv callers inst0 w0 s -> serial_inv callers inst0 w0 (sched callers i s).
Proof.
  intros Hinv. unfold sched.
  destruct (callers !! i) as [c|] eqn:Ec; [|exact Hinv].
  destruct (s_pcs s !! i) as [p|] eqn:Ep; [|exact Hinv].
  destruct (Invoke_step (c_env c) (c_event c) p (s_inst s) (s_world s))
    as [[[p' inst'] w']|] eqn:Es; [|exact Hinv].
  destruct Hinv as (order & rets & instS & wS & Hrun & Hnd & Hlen & Hrets & Hcase).
  destruct (Invoke_in_order_spec _ _ _ _ _ _ Hrun lock_free) as (HlS & Hmap & Hlt).
  pose proof (returned_of_order _ _ _ Hmap Hrets) as Hdone.
  assert (Hi : (i < length (s_pcs s))%nat) by (apply lookup_lt_Some in Ep; exact Ep).
  assert (Hnot : i ∉ order).
  { intros Hin. destruct (Hdone i Hin) as (ret & _ & Hp). rewrite Ep in Hp.
    injection Hp as ->. discriminate. }
  destruct Hcase as [(Hinst & Hworld & Hwait)|
                     (a & ca & pa & fuel & Ha & Hca & Hpa & Hhold & Hlock & Hfin & Hwait)].
  - (* nobody holds the lock: caller [i] takes it *)
    assert (p = AtLock) by (apply (Hwait i p Hnot); [discriminate|exact Ep]). subst p.
    cbn [Invoke_step] in Es. rewrite Hinst, HlS in Es. injection Es as <- <- <-.
    exists order, rets, instS, wS. split; [exact Hrun|]. split; [exact Hnd|].
    split; [cbn [s_pcs]; rewrite length_insert; exact Hlen|].
    split.
    { intros j ret Hin. cbn [s_pcs]. rewrite list_lookup_insert_ne; [apply Hrets; exact Hin|].
      intros ->. apply Hnot. rewrite <- Hmap. apply list_elem_of_fmap.
      exists (j, ret). split; [reflexivity|exact Hin]. }
    right. exists i, c, AtStamp, 6%nat. split; [exact Hnot|]. split; [exact Ec|].
    split; [cbn [s_pcs]; apply list_lookup_insert_eq; exact Hi|].
    split; [reflexivity|]. split; [reflexivity|]. split.
    { cbn [s_inst s_world]. rewrite Invoke_as_steps.
      rewrite (Invoke_finish_S 6) by (right; reflexivity).
      cbn [Invoke_step]. rewrite HlS, Hworld. reflexivity. }
    intros j q Hj Hne Hq. cbn [s_pcs] in Hq.
    rewrite list_lookup_insert_ne in Hq by congruence.
    apply (Hwait j q Hj); [discriminate|exact Hq].
  - destruct (decide (i = a)) as [->|Hia].
    + (* the caller that holds the lock moves on *)
      rewrite Hca in Ec. injection Ec as <-. rewrite Hpa in Ep. injection Ep as <-.
      destruct (Invoke_free (c_env ca) (c_event ca) instS wS HlS) as (r & Hr).
      rewrite Hr in Hfin.
      destruct fuel as [|fuel]; [destruct (Invoke_finish_needs_fuel _ _ _ _ _ _ Hhold Hfin)|].
      rewrite Invoke_finish_S, Es in Hfin by (left; exact Hhold).
      destruct (Invoke_step_locked (c_env ca) (c_event ca) pa (s_inst s) (s_world s) Hhold)
        as (p2 & inst2 & w2 & Es2 & Hnext).
      rewrite Es in Es2. injection Es2 as <- <- <-.
      destruct Hnext as [(Hhold' & Hlock')|(ret & -> & Hfree)].
      * exists order, rets, instS, wS. split; [exact Hrun|]. split; [exact Hnd|].
        split; [cbn [s_pcs]; rewrite length_insert; exact Hlen|].
        split.
        { intros j ret Hin. cbn [s_pcs].
          rewrite list_lookup_insert_ne; [apply Hrets; exact Hin|].
          intros ->. apply Ha. rewrite <- Hmap. apply list_elem_of_fmap.
          exists (j, ret). split; [reflexivity|exact Hin]. }
        right. exists a, ca, p', fuel. split; [exact Ha|]. split; [exact Hca|].
        split; [cbn [s_pcs]; apply list_lookup_insert_eq; exact Hi|].
        split; [exact Hhold'|]. split; [cbn [s_inst]; congruence|].
        split; [cbn [s_inst s_world]; rewrite Hr; exact Hfin|].
        intros j q Hj Hne Hq. cbn [s_pcs] in Hq.
        rewrite list_lookup_insert_ne in Hq by congruence.
        apply (Hwait j q Hj Hne Hq).
      * rewrite Invoke_finish_Returned in Hfin. injection Hfin as <-.
        exists (order ++ [a]), (rets ++ [(a, ret)]), inst', w'.
        split; [exact (Invoke_in_order_snoc _ _ _ _ _ _ _ _ _ _ _ Hrun Hca Hr)|].
        split.
        { apply NoDup_app. split; [exact Hnd|]. split; [|apply NoDup_singleton].
          intros x Hx Hx'. apply list_elem_of_singleton in Hx'. subst x. exact (Ha Hx). }
        split; [cbn [s_pcs]; rewrite length_insert; exact Hlen|].
        split.
        { intros j r Hin. cbn [s_pcs]. apply elem_of_app in Hin as [Hin|Hin].
          - rewrite list_lookup_insert_ne; [apply Hrets; exact Hin|].
            intros ->. apply Ha. rewrite <- Hmap. apply list_elem_of_fmap.
            exists (j, r). split; [reflexivity|exact Hin].
          - apply list_elem_of_singleton in Hin. injection Hin as -> ->.
            apply list_lookup_insert_eq. exact Hi. }
        left. split; [reflexivity|]. split; [reflexivity|].
        intros j q Hj _ Hq. cbn [s_pcs] in Hq.
        assert (Hja : j <> a).
        { intros ->. apply Hj. apply elem_of_app. right. apply list_elem_of_singleton.
          reflexivity. }
        rewrite list_lookup_insert_ne in Hq by congruence.
        apply (Hwait j q); [|congruence|exact Hq].
        intros Hin. apply Hj. apply elem_of_app. left. exact Hin.
    + (* anybody else waits for the lock *)
      assert (p = AtLock) by (apply (Hwait i p Hnot); [congruence|exact Ep]). subst p.
      cbn [Invoke_step] in Es. rewrite Hlock in Es. discriminate.
Qed.

Lemma serial_inv_run schedule :
  forall s, serial_inv callers inst0 w0 s ->
            serial_inv callers inst0 w0 (run_schedule callers schedule s).
Proof.
  induction schedule as [|i schedule IH]; intros s Hs; [exact Hs|].
  apply IH. apply serial_inv_sched. exact Hs.
Qed.

(** In a reachable system the caller that holds the lock is alone with it. *)
Lemma serial_inv_exclusive s i p :
  serial_inv callers inst0 w0 s ->
  s_pcs s !! i = Some p -> holds_lock p = true ->
  runLock (s_inst s) = true
  /\ forall j q, j <> i -> s_pcs s !! j = Some q -> holds_lock q = false.
Proof.
  intros (order & rets & instS & wS & Hrun & Hnd & Hlen & Hrets & Hcase) Hp Hhold.
  destruct (Invoke_in_order_spec _ _ _ _ _ _ Hrun lock_free) as (HlS & Hmap & Hlt).
  pose proof (returned_of_order _ _ _ Hmap Hrets) as Hdone.
  assert (Hstate : forall j q except,
             waiting order (s_pcs s) except -> Some j <> except ->
             s_pcs s !! j = Some q -> holds_lock q = false).
  { intros j q except Hwait Hne Hq. destruct (decide (j ∈ order)) as [Hin|Hnin].
    - destruct (Hdone j Hin) as (ret & _ & Hq'). rewrite Hq in Hq'.
      injection Hq' as ->. reflexivity.
    - rewrite (Hwait j q Hnin Hne Hq). reflexivity. }
  destruct Hcase as [(Hinst & Hworld & Hwait)|
                     (a & ca & pa & fuel & Ha & Hca & Hpa & Hhold' & Hlock & Hfin & Hwait)].
  - rewrite (Hstate i p None Hwait ltac:(discriminate) Hp) in Hhold. discriminate.
  - destruct (decide (i = a)) as [->|Hia].
    + split; [exact Hlock|]. intros j q Hj Hq.
      apply (Hstate j q (Some a) Hwait); [congruence|exact Hq].
    + rewrite (Hstate i p (Some a) Hwait ltac:(congruence) Hp) in Hhold. discriminate.
Qed.

(** When every caller has returned, the system is where calling them one
    after the other, in the order in which they took the lock, would be. *)
Lemma serial_inv_all_returned s :
  serial_inv callers inst0 w0 s ->
  (forall i p, s_pcs s !! i = Some p -> exists ret, p = Returned ret) ->
  exists order rets,
    order ≡ₚ seq 0 (length callers)
    /\ Invoke_in_order callers order inst0 w0 = Some (rets, s_inst s, s_world s)
    /\ forall i ret, (i, ret) ∈ rets <-> s_pcs s !! i = Some (Returned ret).
Proof.
  intros (order & rets & instS & wS & Hrun & Hnd & Hlen & Hrets & Hcase) Hall.
  destruct (Invoke_in_order_spec _ _ _ _ _ _ Hrun lock_free) as (HlS & Hmap & Hlt).
  pose proof (returned_of_order _ _ _ Hmap Hrets) as Hdone.
  destruct Hcase as [(Hinst & Hworld & Hwait)|
                     (a & ca & pa & fuel & Ha & Hca & Hpa & Hhold' & Hlock & Hfin & Hwait)].
  2: { destruct (Hall a pa Hpa) as (ret & ->). discriminate. }
  assert (Hcover : forall i, (i < length callers)%nat -> i ∈ order).
  { intros i Hi. destruct (decide (i ∈ order)) as [Hin|Hnin]; [exact Hin|].
    destruct (lookup_lt_is_Some_2 (s_pcs s) i ltac:(lia)) as (p & Hp).
    destruct (Hall i p Hp) as (ret & ->).
    pose proof (Hwait i _ Hnin ltac:(discriminate) Hp). discriminate. }
  exists order, rets. split; [|split].
  - apply NoDup_Permutation; [exact Hnd|apply NoDup_seq|].
    intros i. rewrite elem_of_seq. split; [intros Hin; pose proof (Hlt i Hin); lia|].
    intros Hi. apply Hcover. lia.
  - rewrite Hinst, Hworld. exact Hrun.
  - intros i ret. split; [apply Hrets|]. intros Hp.
    assert (Hi : (i < length callers)%nat)
      by (apply lookup_lt_Some in Hp; lia).
    destruct (Hdone i (Hcover i Hi)) as (ret' & Hin & Hp'). rewrite Hp in Hp'.
    injection Hp' as ->. exact Hin.
Qed.
End Serial.

(** C7: however the scheduler interleaves the callers of one instance, two
    calls never overlap.  At most one caller is between [Lock] and the end of
    [Unlock], and the lock is taken for as long as it is; in particular while
    a caller builds its request, does the HTTP call or decodes the response,
    every other caller is still before [Lock] or has returned.  And when all
    calls have returned, the results, the instance and the world are those of
    the same calls made one after the other in some order: every caller has
    the result of its own request. *)
Theorem concurrent_Invoke_is_serial `{Extern} callers inst0 w0 schedule :
  runLock inst0 = false ->
  let s := run_schedule callers schedule (start callers inst0 w0) in
  (forall i j p q,
     s_pcs s !! i = Some p -> s_pcs s !! j = Some q ->
     holds_lock p = true -> holds_lock q = true -> i = j)
  /\ (forall i p, s_pcs s !! i = Some p -> holds_lock p = true ->
                  runLock (s_inst s) = true)
  /\ (forall i p,
        s_pcs s !! i = Some p ->
        p = AtNewRequest \/ (exists req, p = AtDo req) \/ (exists resp, p = AtClassify resp) ->
        runLock (s_inst s) = true
        /\ forall j q, j <> i -> s_pcs s !! j = Some q ->
                       q = AtLock \/ exists ret, q = Returned ret)
  /\ ((forall i p, s_pcs s !! i = Some p -> exists ret, p = Returned ret) ->
      exists order rets,
        order ≡ₚ seq 0 (length callers)
        /\ Invoke_in_order callers order inst0 w0 = Some (rets, s_inst s, s_world s)
        /\ forall i ret, (i, ret) ∈ rets <-> s_pcs s !! i = Some (Returned ret)).
Proof.
  intros Hfree s.
  assert (Hinv : serial_inv callers inst0 w0 s)
    by (apply (serial_inv_run callers inst0 w0 Hfree); apply serial_inv_start).
  split; [|split; [|split]].
  - intros i j p q Hp Hq Hhp Hhq.
    destruct (serial_inv_exclusive callers inst0 w0 Hfree s i p Hinv Hp Hhp) as (_ & Hothers).
    destruct (decide (j = i)) as [->|Hne]; [reflexivity|].
    rewrite (Hothers j q Hne Hq) in Hhq. discriminate.
  - intros i p Hp Hhp.
    apply (serial_inv_exclusive callers inst0 w0 Hfree s i p Hinv Hp Hhp).
  - intros i p Hp Hstage.
    assert (Hhp : holds_lock p = true).
    { destruct Hstage as [->|[(req & ->)|(resp & ->)]]; reflexivity. }
    destruct (serial_inv_exclusive callers inst0 w0 Hfree s i p Hinv Hp Hhp)
      as (Hlock & Hothers).
    split; [exact Hlock|]. intros j q Hne Hq. pose proof (Hothers j q Hne Hq) as Hhq.
    destruct q; try discriminate; [left; reflexivity|right; eauto].
  - apply (serial_inv_all_returned callers inst0 w0 Hfree s Hinv).
Qed.

Lemma concurrent_Invoke_is_serial_witness :
  runLock instance0 = false
  /\ exists order rets,
       order ≡ₚ [0; 1]%nat
       /\ Invoke_in_order (H := sampleExtern) callers2 order instance0 world1
          = Some (rets,
                  s_inst (run_schedule (H := sampleExtern) callers2 schedule2
                            (start callers2 instance0 world1)),
                  s_world (run_schedule (H := sampleExtern) callers2 schedule2
                             (start callers2 instance0 world1)))
       /\ forall i ret,
            (i, ret) ∈ rets
            <-> s_pcs (run_schedule (H := sampleExtern) callers2 schedule2
                         (start callers2 instance0 world1)) !! i
                = Some (Returned ret).
Proof.
  split; [reflexivity|].
  apply (concurrent_Invoke_is_serial (H := sampleExtern) callers2 instance0 world1
           schedule2 eq_refl).
  assert (Hpcs : s_pcs (run_schedule (H := sampleExtern) callers2 schedule2
                          (start callers2 instance0 world1))
                 = [Returned (Ok value_pete);
                    Returned (Err (fmt_Errorf ("Runtime error: " +:+ quoted "oops")))])
    by (vm_compute; reflexivity).
  intros i p. rewrite Hpcs. destruct i as [|[|i]]; simpl; intros [= <-]; eauto.
Defined.

(** * Further properties *)

(** ** The function hash *)

Lemma length_be_bytes n v : length (Sha1.be_bytes n v) = n.
Proof. unfold Sha1.be_bytes. rewrite length_map, length_rev, length_seq. reflexivity. Qed.

Lemma be_bytes_are_bytes n v : Forall (fun b => (0 <= b < 256)%Z) (Sha1.be_bytes n v).
Proof.
  unfold Sha1.be_bytes. apply Forall_map. apply Forall_forall. intros i _.
  apply Z.mod_pos_bound. lia.
Qed.

Lemma Sum_is_20_bytes msg :
  length (Sha1.Sum msg) = 20%nat /\ Forall (fun b => (0 <= b < 256)%Z) (Sha1.Sum msg).
Proof.
  unfold Sha1.Sum. cbv zeta. split.
  - rewrite !length_app, !length_be_bytes. reflexivity.
  - repeat (apply Forall_app; split); apply be_bytes_are_bytes.
Qed.

Lemma hex_digit_is_lower_hex d :
  (0 <= d < 16)%Z -> is_lower_hex (hex_digit d) = true /\ IsPathSeparator (hex_digit d) = false.
Proof.
  intros Hd. assert (Hk : (Z.to_nat d < 16)%nat) by lia.
  rewrite <- (Z2Nat.id d) by lia. generalize dependent (Z.to_nat d). clear d Hd.
  intros k Hk. do 16 (destruct k as [|k]; [vm_compute; split; reflexivity|]). lia.
Qed.

Lemma sprintf_x_digits bs :
  Forall (fun b => (0 <= b < 256)%Z) bs ->
  String.length (sprintf_x bs) = (2 * length bs)%nat
  /\ Forall (fun c => is_lower_hex c = true /\ IsPathSeparator c = false)
            (list_ascii_of_string (sprintf_x bs)).
Proof.
  induction 1 as [|b bs Hb Hbs [IHlen IHall]]; simpl.
  - split; [reflexivity|constructor].
  - split; [rewrite IHlen; lia|].
    constructor; [apply hex_digit_is_lower_hex; split;
                  [apply Z.div_pos; lia|apply Z.div_lt_upper_bound; lia]|].
    constructor; [apply hex_digit_is_lower_hex; apply Z.mod_pos_bound; lia|exact IHall].
Qed.

Lemma length_newFunctionHash code : String.length (newFunctionHash code) = 40%nat.
Proof.
  unfold newFunctionHash.
  destruct (Sum_is_20_bytes (bytes_of_string code)) as [Hlen Hbytes].
  destruct (sprintf_x_digits _ Hbytes) as [Hl _]. rewrite Hlen in Hl. exact Hl.
Qed.

(** X1: the function hash of any source is 40 characters long, every one a
    lower-case hexadecimal digit; it holds no path separator, so it names one
    directory level. *)
Theorem newFunctionHash_is_40_hex_digits code :
  String.length (newFunctionHash code) = 40%nat
  /\ Forall (fun c => is_lower_hex c = true /\ IsPathSeparator c = false)
            (list_ascii_of_string (newFunctionHash code)).
Proof.
  unfold newFunctionHash.
  destruct (Sum_is_20_bytes (bytes_of_string code)) as [Hlen Hbytes].
  destruct (sprintf_x_digits _ Hbytes) as [Hl Hall]. rewrite Hlen in Hl.
  split; [exact Hl|exact Hall].
Qed.

(** ** What the constructor puts on disk *)

Section Materialised.
Context `{Extern}.

(** X2: when the constructor returns an instance, the working directory
    holds [function.js] with the rendered wrapper (the source, then the boot
    code around the JSON of the initialization data) and every embedded
    runtime file under its name with its content. *)
Theorem constructor_materialises_function
    env fuel config initData code w inst w' :
  NewDenoFunctionInstance env fuel config initData code w = Some (Ok inst, w') ->
  NoDup (map fst denoFiles) ->
  (forall name, name ∈ map fst denoFiles -> name <> "function.js") ->
  w_fs w' !! (tempDir inst +:+ "/function.js")
  = Some (File (code +:+ denoFunctionTemplate_1 +:+ (MustJsonString initData w).1
                +:+ denoFunctionTemplate_2))
  /\ forall name buf, (name, buf) ∈ denoFiles ->
                      w_fs w' !! (tempDir inst +:+ "/" +:+ name) = Some (File buf).
Proof.
  intros Hrun Hnd Hts.
  destruct (constructor_success _ _ _ _ _ _ _ _ Hrun)
    as (w1 & w2 & w3 & listenPort & ports & inst1 & w5 & E1 & E2 & E3 & _ & Hloop & Hlate).
  cbv zeta in Hloop.
  destruct (waitLoop_spec _ _ _ _ _ _ _ _ _ Hloop) as ((Hfs & _) & Ht & _).
  destruct (lately_spec (be_late env) inst1 w5) as ((Hfs' & _) & Ht' & _).
  rewrite Hlate in Hfs', Ht'. cbn [fst snd] in Hfs', Ht'.
  cbn [tempDir w_fs emit with_procs with_handedOutPorts] in Hfs, Ht.
  rewrite Ht', Ht, Hfs', Hfs.
  destruct (copyDenoFiles_range_written _ _ Hnd _ _ E2) as [Hfiles _].
  destruct (os_WriteFile_spec _ _ _ _ _ E3) as (_ & _ & Hjs).
  split.
  - rewrite (Hjs eq_refl). unfold wrapScript.
    rewrite (MustJsonString_text initData w2 w). reflexivity.
  - intros name buf Hin.
    rewrite (os_WriteFile_other _ _ _ _ _ _ E3).
    + destruct (MustJsonString_world initData w2) as [_ ->]. exact (Hfiles name buf Hin).
    + intros Heq. apply append_inj_l in Heq.
      apply (append_inj_l "/" name "function.js") in Heq.
      apply (Hts name); [|exact Heq]. apply list_elem_of_fmap. exists (name, buf). auto.
Qed.
End Materialised.

Lemma constructor_materialises_function_witness :
  w_fs world_up !! (tempDir instance_up +:+ "/function.js")
  = Some (File (code0 +:+ denoFunctionTemplate_1 +:+ "null" +:+ denoFunctionTemplate_2))
  /\ w_fs world_up !! (tempDir instance_up +:+ "/function_server.ts")
     = Some (File "// serves handle over HTTP").
Proof.
  destruct (constructor_materialises_function (H := sampleExtern)
              bootenv0 4 config0 JNull code0 world0 instance_up world_up)
    as [Hfunction Hfiles].
  - vm_compute. reflexivity.
  - apply NoDup_singleton.
  - intros name Hin ->. apply list_elem_of_singleton in Hin. discriminate.
  - split; [exact Hfunction|]. apply Hfiles. apply list_elem_of_singleton. reflexivity.
Defined.

(** ** The wait loop, the instance it hands over and the rollback *)

Section Booting.
Context `{Extern}.

Lemma Forall_is_probe_app (a b : list Event) :
  Forall (fun e => is_probe e = true) a -> Forall (fun e => is_probe e = true) b ->
  Forall (fun e => is_probe e = true) (a ++ b).
Proof. intros Ha Hb. apply Forall_app. split; assumption. Qed.

(** What a round may change, whatever the state of the child: the record of
    the child's end in the instance, the child's entry in the process table,
    and the trace, which gets connects and sleeps only. *)
Lemma waitLoop_round_frame tk listenPort inst w rr inst' w' :
  waitLoop_round tk listenPort inst w = (rr, inst', w') ->
  w_handedOutPorts w' = w_handedOutPorts w /\ w_next_pid w' = w_next_pid w
  /\ w_stdout w' = w_stdout w
  /\ (forall p, Process (cmd inst) <> Some p -> w_procs w' !! p = w_procs w !! p)
  /\ (forall p, is_Some (w_procs w !! p) -> is_Some (w_procs w' !! p))
  /\ (exists more, w_trace w' = w_trace w ++ more
                   /\ Forall (fun e => is_probe e = true) more)
  /\ match rr with
     | RoundReturn e =>
         e = errors_New "deno exited on boot" \/ tk_ctx tk = Some e
     | _ => True
     end.
Proof.
  unfold waitLoop_round.
  assert (Hm : let (inst1, w1) := meanwhile tk inst w in
               w_handedOutPorts w1 = w_handedOutPorts w /\ w_next_pid w1 = w_next_pid w
               /\ w_stdout w1 = w_stdout w /\ w_trace w1 = w_trace w
               /\ (forall p, Process (cmd inst) <> Some p ->
                             w_procs w1 !! p = w_procs w !! p)
               /\ (forall p, is_Some (w_procs w !! p) -> is_Some (w_procs w1 !! p))).
  { unfold meanwhile, child_ends.
    destruct (tk_exit tk) as [ws|]; [|repeat split; auto].
    destruct (Process (cmd inst)) as [pid|]; [|repeat split; auto].
    destruct (w_procs w !! pid) as [[|ws']|] eqn:Ep; try (repeat split; auto; fail).
    cbn [w_handedOutPorts w_next_pid w_stdout w_trace w_procs with_procs].
    repeat split; auto.
    - intros p Hp. apply lookup_insert_ne. congruence.
    - intros p Hp. destruct (decide (pid = p)) as [->|Hne].
      + rewrite lookup_insert_eq. eauto.
      + rewrite lookup_insert_ne by exact Hne. exact Hp. }
  destruct (meanwhile tk inst w) as [inst1 w1].
  destruct Hm as (Hports & Hpid & Hout & Htrace & Hother & Hsome).
  unfold select.
  destruct (tk_ctx tk) as [e|] eqn:Ectx, (denoExited inst1) as [v|];
    try destruct (tk_pick_exit tk); try destruct (tk_dial tk);
    intros [= <- <- <-];
    cbn [w_handedOutPorts w_next_pid w_stdout w_trace w_procs emit];
    (split; [exact Hports|]); (split; [exact Hpid|]); (split; [exact Hout|]);
    (split; [exact Hother|]); (split; [exact Hsome|]);
    (split; [|auto]); rewrite Htrace.
  all: try (exists []; split; [rewrite app_nil_r; reflexivity|constructor]).
  all: first [ eexists [_]; split; [reflexivity|repeat constructor]
             | eexists [_; _]; split;
               [rewrite <- app_assoc; reflexivity|repeat constructor] ].
Qed.

Lemma waitLoop_frame ticks listenPort fuel :
  forall i inst w r inst' w',
    waitLoop fuel ticks i listenPort inst w = Some (r, inst', w') ->
    w_handedOutPorts w' = w_handedOutPorts w /\ w_next_pid w' = w_next_pid w
    /\ w_stdout w' = w_stdout w
    /\ (forall p, Process (cmd inst) <> Some p -> w_procs w' !! p = w_procs w !! p)
    /\ (forall p, is_Some (w_procs w !! p) -> is_Some (w_procs w' !! p))
    /\ (exists more, w_trace w' = w_trace w ++ more
                     /\ Forall (fun e => is_probe e = true) more)
    /\ match r with
       | Some e => e = errors_New "deno exited on boot"
                   \/ exists k, tk_ctx (ticks k) = Some e
       | None => True
       end.
Proof.
  induction fuel as [|fuel IH]; intros i inst w r inst' w'; simpl; [discriminate|].
  destruct (waitLoop_round (ticks i) listenPort inst w) as [[rr inst1] w1] eqn:E.
  destruct (waitLoop_round_frame _ _ _ _ _ _ _ E)
    as (Hports & Hpid & Hout & Hother & Hsome & (more & Htrace & Hprobes) & Hrr).
  destruct (waitLoop_round_spec _ _ _ _ _ _ _ E) as (_ & _ & Hproc).
  destruct rr.
  - intros [= <- <- <-]. repeat split; auto; [eauto|].
    destruct Hrr as [->|Hctx]; [left; reflexivity|right; eauto].
  - intros [= <- <- <-]. repeat split; auto. eauto.
  - intros Hr.
    destruct (IH _ _ _ _ _ _ Hr)
      as (Hports' & Hpid' & Hout' & Hother' & Hsome' & (more' & Htrace' & Hprobes') & Hr').
    split; [congruence|]. split; [congruence|]. split; [congruence|].
    split; [intros p Hp; rewrite Hother' by congruence; auto|].
    split; [auto|]. split; [|exact Hr'].
    exists (more ++ more'). split; [rewrite Htrace', Htrace, app_assoc; reflexivity|].
    apply Forall_is_probe_app; assumption.
Qed.

(** While the child boots, a round that does not return leaves the instance
    as it is and the child running. *)
Lemma waitLoop_round_booting tk listenPort inst w rr inst' w' :
  waitLoop_round tk listenPort inst w = (rr, inst', w') ->
  booting inst w ->
  match rr with
  | RoundReturn _ => True
  | _ => inst' = inst /\ booting inst w'
  end.
Proof.
  unfold waitLoop_round, meanwhile, child_ends, waiter.
  intros Hrun (pid & Hp & Hrunning & Hstate & Hch). revert Hrun.
  rewrite Hp, Hrunning.
  destruct (tk_exit tk) as [ws|].
  - rewrite Hstate. cbn [w_procs with_procs]. rewrite lookup_insert_eq.
    unfold select. cbn [denoExited with_denoExited].
    destruct (tk_ctx tk); [destruct (tk_pick_exit tk)|]; intros [= <- <- <-]; exact I.
  - unfold select. rewrite Hch.
    destruct (tk_ctx tk); [intros [= <- <- <-]; exact I|].
    destruct (tk_dial tk); intros [= <- <- <-]; (split; [reflexivity|]);
      exists pid; cbn [w_procs emit]; auto.
Qed.


(** The end of the child after the last look changes the entry of the child
    in the process table and what the instance records of it, nothing
    else. *)
Lemma child_ends_frame ws inst w :
  w_handedOutPorts (child_ends ws inst w).2 = w_handedOutPorts w
  /\ w_trace (child_ends ws inst w).2 = w_trace w
  /\ (forall p, Process (cmd inst) <> Some p ->
                w_procs (child_ends ws inst w).2 !! p = w_procs w !! p)
  /\ (forall p, is_Some (w_procs w !! p) -> is_Some (w_procs (child_ends ws inst w).2 !! p)).
Proof.
  unfold child_ends.
  destruct (Process (cmd inst)) as [pid|]; [|auto].
  destruct (w_procs w !! pid) as [[|ws']|] eqn:Ep; auto.
  cbn [snd w_handedOutPorts w_trace w_procs with_procs]. repeat split; auto.
  - intros p Hp. apply lookup_insert_ne. congruence.
  - intros p Hp. destruct (decide (pid = p)) as [->|Hne].
    + rewrite lookup_insert_eq. eauto.
    + rewrite lookup_insert_ne by exact Hne. exact Hp.
Qed.

Lemma lately_frame late inst w inst' w' :
  lately late inst w = (inst', w') ->
  w_handedOutPorts w' = w_handedOutPorts w /\ w_trace w' = w_trace w
  /\ (forall p, Process (cmd inst) <> Some p -> w_procs w' !! p = w_procs w !! p)
  /\ (forall p, is_Some (w_procs w !! p) -> is_Some (w_procs w' !! p)).
Proof.
  unfold lately. destruct late as [[ws [|]]|].
  - intros Hrun. pose proof (child_ends_frame ws inst w) as Hf.
    rewrite Hrun in Hf. exact Hf.
  - intros [= <- <-]. apply child_ends_frame.
  - intros [= <- <-]. auto.
Qed.

End Booting.

(** ** Close *)

Lemma os_RemoveAll_outside path w w' r :
  os_RemoveAll path w = (r, w') ->
  forall k, under path k = false -> w_fs w' !! k = w_fs w !! k.
Proof.
  unfold os_RemoveAll.
  destruct (String.eqb path EmptyString); [intros [= _ <-]; reflexivity|].
  destruct (endsWithDot path); [intros [= _ <-]; reflexivity|].
  destruct (w_fault w (OpRemoveAll path)).
  { intros [= _ <-]. reflexivity. }
  intros [= _ <-] k Hk. simpl. destruct (w_fs w !! k) as [x|] eqn:E.
  - apply map_lookup_filter_Some_2; [exact E|]. simpl. rewrite Hk. exact I.
  - apply map_lookup_filter_None_2. left. exact E.
Qed.

Lemma Process_Kill_spec pid w :
  w_fs (Process_Kill pid w) = w_fs w
  /\ w_fault (Process_Kill pid w) = w_fault w
  /\ w_handedOutPorts (Process_Kill pid w) = w_handedOutPorts w
  /\ w_trace (Process_Kill pid w) = w_trace w ++ [EvKill pid]
  /\ (forall p, p <> pid -> w_procs (Process_Kill pid w) !! p = w_procs w !! p)
  /\ w_procs (Process_Kill pid w) !! pid
     = match w_procs w !! pid with
       | Some Running => Some (Terminated (WSignaled 9))
       | other => other
       end.
Proof.
  unfold Process_Kill. destruct (w_procs w !! pid) as [[|ws]|] eqn:E;
    cbn [w_fs w_fault w_handedOutPorts w_stdout w_trace w_procs emit with_procs];
    repeat split; auto.
  - intros p Hp. apply lookup_insert_ne. congruence.
  - apply lookup_insert_eq.
Qed.

Section Closing.
Context `{Extern}.

(** The working directory of a function is a path that [os.RemoveAll]
    accepts. *)
Lemma list_ascii_of_string_app a b :
  list_ascii_of_string (a +:+ b) = list_ascii_of_string a ++ list_ascii_of_string b.
Proof.
  induction a as [|c a IH]; [reflexivity|]. rewrite append_cons. simpl. rewrite IH.
  reflexivity.
Qed.

Lemma denoDir_removable cfg code :
  denoDir cfg code <> EmptyString /\ endsWithDot (denoDir cfg code) = false.
Proof.
  unfold denoDir. split.
  - intros Heq. apply (f_equal String.length) in Heq.
    rewrite !length_append_s, length_newFunctionHash in Heq. simpl in Heq. lia.
  - unfold endsWithDot. rewrite !list_ascii_of_string_app, !rev_app_distr.
    unfold newFunctionHash.
    destruct (Sum_is_20_bytes (bytes_of_string code)) as [Hlen Hbytes].
    destruct (sprintf_x_digits _ Hbytes) as [Hl Hall]. rewrite Hlen in Hl.
    destruct (rev (list_ascii_of_string (sprintf_x (Sha1.Sum (bytes_of_string code)))))
      as [|c t] eqn:E.
    + apply (f_equal (@length ascii)) in E.
      rewrite length_rev, length_list_ascii_of_string, Hl in E. discriminate E.
    + assert (Hc : is_lower_hex c = true).
      { apply List.Forall_rev in Hall. rewrite E in Hall.
        inversion Hall as [|? ? [Hhex _] _]. exact Hhex. }
      cbn [app]. destruct (Ascii.eqb_spec c "."%char) as [->|_]; [discriminate Hc|].
      reflexivity.
Qed.

(** All that [Close] does. *)
Lemma Close_spec inst w :
  w_fault (Close inst w) = w_fault w
  /\ w_handedOutPorts (Close inst w) = w_handedOutPorts w
  /\ w_trace (Close inst w)
     = w_trace w ++ match Process (cmd inst) with
                    | Some pid => [EvKill pid]
                    | None => []
                    end
  /\ (forall p, Process (cmd inst) <> Some p ->
                w_procs (Close inst w) !! p = w_procs w !! p)
  /\ (forall pid, Process (cmd inst) = Some pid ->
                  w_procs (Close inst w) !! pid
                  = match w_procs w !! pid with
                    | Some Running => Some (Terminated (WSignaled 9))
                    | other => other
                    end)
  /\ (forall k, under (tempDir inst) k = false -> w_fs (Close inst w) !! k = w_fs w !! k)
  /\ (removes (tempDir inst) w ->
      forall k, under (tempDir inst) k = true -> w_fs (Close inst w) !! k = None)
  /\ (tempDir inst = EmptyString \/ endsWithDot (tempDir inst) = true
      \/ w_fault w (OpRemoveAll (tempDir inst)) <> None ->
      w_fs (Close inst w) = w_fs w).
Proof.
  unfold Close.
  set (w1 := match Process (cmd inst) with
             | Some pid => Process_Kill pid w
             | None => w
             end).
  assert (H1 : w_fs w1 = w_fs w /\ w_fault w1 = w_fault w
               /\ w_handedOutPorts w1 = w_handedOutPorts w
               /\ w_trace w1 = w_trace w ++ match Process (cmd inst) with
                                            | Some pid => [EvKill pid]
                                            | None => []
                                            end
               /\ (forall p, Process (cmd inst) <> Some p ->
                             w_procs w1 !! p = w_procs w !! p)
               /\ (forall pid, Process (cmd inst) = Some pid ->
                               w_procs w1 !! pid
                               = match w_procs w !! pid with
                                 | Some Running => Some (Terminated (WSignaled 9))
                                 | other => other
                                 end)).
  { unfold w1. destruct (Process (cmd inst)) as [pid|].
    - destruct (Process_Kill_spec pid w) as (Hfs & Hfault & Hports & Htrace & Hother & Hpid).
      repeat split; auto.
      + intros p Hp. apply Hother. congruence.
      + intros p [= <-]. exact Hpid.
    - rewrite app_nil_r. repeat split; auto. intros p Hp. discriminate. }
  destruct H1 as (Hfs & Hfault & Hports & Htrace & Hother & Hpid).
  pose proof (os_RemoveAll_outside (tempDir inst) w1) as Hout.
  assert (Hin : removes (tempDir inst) w ->
                exists w2, os_RemoveAll (tempDir inst) w1 = (None, w2)
                           /\ forall k, under (tempDir inst) k = true -> w_fs w2 !! k = None).
  { intros (Hpath & Hdot & Hf). apply os_RemoveAll_removes.
    split; [exact Hpath|]. split; [exact Hdot|]. rewrite Hfault. exact Hf. }
  assert (Hkept : tempDir inst = EmptyString \/ endsWithDot (tempDir inst) = true
                  \/ w_fault w (OpRemoveAll (tempDir inst)) <> None ->
                  w_fs (os_RemoveAll (tempDir inst) w1).2 = w_fs w).
  { unfold os_RemoveAll. rewrite Hfault. intros Hwhy.
    destruct (String.eqb_spec (tempDir inst) EmptyString) as [_|Hpath]; [exact Hfs|].
    destruct (endsWithDot (tempDir inst)); [exact Hfs|].
    destruct (w_fault w (OpRemoveAll (tempDir inst))); [exact Hfs|].
    destruct Hwhy as [Hw|[Hw|Hw]]; [contradiction|discriminate|contradiction]. }
  destruct (os_RemoveAll (tempDir inst) w1) as [[err|] w2] eqn:E.
  - assert (Hsame : w_fault w2 = w_fault w1 /\ w_procs w2 = w_procs w1
                    /\ w_handedOutPorts w2 = w_handedOutPorts w1
                    /\ w_trace w2 = w_trace w1).
    { unfold os_RemoveAll in E.
      destruct (String.eqb (tempDir inst) EmptyString); [discriminate|].
      destruct (endsWithDot (tempDir inst)); [injection E as _ <-; auto|].
      destruct (w_fault w1 (OpRemoveAll (tempDir inst))); [|discriminate].
      injection E as _ <-. auto. }
    destruct Hsame as (Hf2 & Hp2 & Hports2 & Ht2).
    cbn [w_fs w_fault w_procs w_handedOutPorts w_trace Printf snd] in *.
    rewrite Hf2, Hp2, Hports2, Ht2.
    repeat split; auto.
    + intros k Hk. rewrite <- Hfs. exact (Hout _ _ eq_refl k Hk).
    + intros Hrem. destruct (Hin Hrem) as (w3 & Heq & _). discriminate Heq.
  - assert (Hsame : w_fault w2 = w_fault w1 /\ w_procs w2 = w_procs w1
                    /\ w_handedOutPorts w2 = w_handedOutPorts w1
                    /\ w_trace w2 = w_trace w1).
    { unfold os_RemoveAll in E.
      destruct (String.eqb (tempDir inst) EmptyString); [injection E as <-; auto|].
      destruct (endsWithDot (tempDir inst)); [discriminate|].
      destruct (w_fault w1 (OpRemoveAll (tempDir inst))); [discriminate|].
      injection E as <-. auto. }
    destruct Hsame as (Hf2 & Hp2 & Hports2 & Ht2). cbn [snd] in Hkept.
    rewrite Hf2, Hp2, Hports2, Ht2.
    repeat split; auto.
    + intros k Hk. rewrite <- Hfs. exact (Hout _ _ eq_refl k Hk).
    + intros Hrem k Hk. destruct (Hin Hrem) as (w3 & Heq & Hgone).
      injection Heq as <-. exact (Hgone k Hk).
Qed.

(** X3: [Close] is confined to the instance's own things.  Of what lies
    beside the working directory under the same root it touches nothing: the
    working directory of a function with another hash and the entries in it,
    the engine's cache and the directory [.deno] are as they were.  The
    other processes and the record of handed-out ports stay as they are, and
    towards the outside [Close] does one thing, the kill of its child. *)
Theorem Close_is_confined inst w cfg code :
  tempDir inst = denoDir cfg code ->
  (forall code',
     newFunctionHash code' <> newFunctionHash code ->
     w_fs (Close inst w) !! denoDir cfg code' = w_fs w !! denoDir cfg code'
     /\ forall name,
          file_name name = true ->
          w_fs (Close inst w) !! (denoDir cfg code' +:+ "/" +:+ name)
          = w_fs w !! (denoDir cfg code' +:+ "/" +:+ name))
  /\ w_fs (Close inst w) !! (WorkDir cfg +:+ "/.deno/cache")
     = w_fs w !! (WorkDir cfg +:+ "/.deno/cache")
  /\ w_fs (Close inst w) !! (WorkDir cfg +:+ "/.deno") = w_fs w !! (WorkDir cfg +:+ "/.deno")
  /\ (forall p, Process (cmd inst) <> Some p ->
                w_procs (Close inst w) !! p = w_procs w !! p)
  /\ w_handedOutPorts (Close inst w) = w_handedOutPorts w
  /\ w_trace (Close inst w)
     = w_trace w ++ match Process (cmd inst) with
                    | Some pid => [EvKill pid]
                    | None => []
                    end.
Proof.
  intros Htemp.
  destruct (Close_spec inst w) as (_ & Hports & Htrace & Hother & _ & Hout & _).
  rewrite Htemp in Hout. unfold denoDir in *.
  destruct (under_cache (WorkDir cfg) (newFunctionHash code)) as [Hcache Hdeno].
  split; [|split; [exact (Hout _ Hcache)|split; [exact (Hout _ Hdeno)|auto]]].
  intros code' Hne.
  assert (Hlen : String.length (newFunctionHash code)
                 = String.length (newFunctionHash code'))
    by (rewrite !length_newFunctionHash; reflexivity).
  assert (Hne' : newFunctionHash code <> newFunctionHash code') by congruence.
  split.
  - apply Hout.
    rewrite <- (append_nil_r_s (WorkDir cfg +:+ "/.deno/function-"
                                +:+ newFunctionHash code')).
    exact (under_other_function _ _ _ _ Hlen Hne').
  - intros name _. apply Hout. exact (under_other_function _ _ _ _ Hlen Hne').
Qed.

(** X4: after [Close] the child does not run: a running child has been
    killed (it ended by signal 9), one that had ended keeps the status it
    ended with. *)
Theorem Close_ends_the_child inst w pid :
  Process (cmd inst) = Some pid ->
  w_procs (Close inst w) !! pid <> Some Running
  /\ (w_procs w !! pid = Some Running ->
      w_procs (Close inst w) !! pid = Some (Terminated (WSignaled 9)))
  /\ (forall ws, w_procs w !! pid = Some (Terminated ws) ->
                 w_procs (Close inst w) !! pid = Some (Terminated ws)).
Proof.
  intros Hp. destruct (Close_spec inst w) as (_ & _ & _ & _ & Hpid & _).
  rewrite (Hpid pid Hp).
  destruct (w_procs w !! pid) as [[|ws0]|]; repeat split; try discriminate; auto.
Qed.

(** X5: calling [Close] a second time changes neither the file system nor
    the process table. *)
Theorem Close_twice inst w :
  w_fs (Close inst (Close inst w)) = w_fs (Close inst w)
  /\ w_procs (Close inst (Close inst w)) = w_procs (Close inst w).
Proof.
  destruct (Close_spec inst w) as (Hfault & _ & _ & _ & Hpid & _ & Hin & _).
  destruct (Close_spec inst (Close inst w))
    as (_ & _ & _ & Hother' & Hpid' & Hout' & Hin' & Hsame').
  unfold removes in Hin, Hin'. rewrite Hfault in Hin', Hsame'.
  split.
  - destruct (String.eqb_spec (tempDir inst) EmptyString) as [Hpath|Hpath];
      [apply Hsame'; left; exact Hpath|].
    destruct (endsWithDot (tempDir inst)) eqn:Hdot;
      [apply Hsame'; right; left; reflexivity|].
    destruct (w_fault w (OpRemoveAll (tempDir inst))) as [err|] eqn:Ef;
      [apply Hsame'; right; right; discriminate|].
    apply map_eq. intros k. destruct (under (tempDir inst) k) eqn:Hk.
    + rewrite (Hin' (conj Hpath (conj eq_refl eq_refl)) k Hk),
              (Hin (conj Hpath (conj eq_refl eq_refl)) k Hk). reflexivity.
    + apply Hout'. exact Hk.
  - apply map_eq. intros p.
    destruct (decide (Process (cmd inst) = Some p)) as [Hp|Hp]; [|apply Hother'; exact Hp].
    rewrite (Hpid' p Hp), (Hpid p Hp).
    destruct (w_procs w !! p) as [[|ws]|]; reflexivity.
Qed.
End Closing.

Lemma Close_is_confined_witness :
  w_fs (Close instance0 world2) !! denoDir config0 code0 = None
  /\ w_fs (Close instance0 world2) !! denoDir config0 code1 = Some Dir
  /\ w_fs (Close instance0 world2) !! (denoDir config0 code1 +:+ "/" +:+ "function.js")
     = Some (File "...")
  /\ w_fs (Close instance0 world2) !! (WorkDir config0 +:+ "/.deno/cache") = Some Dir.
Proof.
  destruct (Close_is_confined instance0 world2 config0 code0 eq_refl)
    as (Hbeside & Hcache & _).
  destruct (Hbeside code1) as [Hdir Hin].
  { intros Heq. vm_compute in Heq. discriminate Heq. }
  split; [vm_compute; reflexivity|].
  split; [rewrite Hdir; vm_compute; reflexivity|].
  split; [rewrite (Hin "function.js" eq_refl); vm_compute; reflexivity|].
  rewrite Hcache. vm_compute. reflexivity.
Defined.

Lemma Close_ends_the_child_witness :
  w_procs world1 !! 100%Z = Some Running
  /\ w_procs (Close instance0 world1) !! 100%Z = Some (Terminated (WSignaled 9)).
Proof.
  assert (Hruns : w_procs world1 !! 100%Z = Some Running) by (vm_compute; reflexivity).
  split; [exact Hruns|].
  exact (proj1 (proj2 (Close_ends_the_child instance0 world1 100%Z eq_refl)) Hruns).
Defined.

(** ** The constructor: the instance it returns, and its failures *)

Section Construction.
Context `{Extern}.

Lemma copyDenoFiles_range_error files destDir :
  forall w e w', copyDenoFiles_range files destDir w = (Some e, w') ->
                 exists cause, e = errors_Wrap cause "write file".
Proof.
  induction files as [|[name buf] rest IH]; intros w e w'; simpl; [discriminate|].
  destruct (os_WriteFile _ _ _) as [[err|] w1]; [intros [= <- <-]; eauto|apply IH].
Qed.

(** How a construction that fails went: it failed in one of the steps before
    the spawn, and then nothing was started; or the wait loop returned an
    error, and then the result is the world after [Close]. *)
Lemma constructor_failure env fuel config initData code w e w' :
  NewDenoFunctionInstance env fuel config initData code w = Some (Err e, w') ->
  (setup_failure e
   /\ w_trace w' = w_trace w /\ w_procs w' = w_procs w
   /\ (forall p, Port.handedOut (w_handedOutPorts w) p = true ->
                 Port.handedOut (w_handedOutPorts w') p = true))
  \/ (exists w3 listenPort ports inst1 w5 inst2 w6,
        fs_only w w3
        /\ Port.FindFreePort Port.budget (be_rnd env) (be_listen env) 8000
             (w_handedOutPorts w3) = Some (listenPort, ports)
        /\ (let pid := w_next_pid w3 in
            let args := [DenoPath config; "run"; "--unstable"; "--allow-net";
                         "--allow-env";
                         denoDir config code +:+ "/function_server.ts";
                         sprintf_d listenPort] in
            let envs := ["NO_COLOR=1";
                         "DENO_DIR=" +:+ WorkDir config +:+ "/.deno/cache"] in
            waitLoop fuel (be_ticks env) 0 listenPort
              {| config := config;
                 cmd := {| Args := args; Env := envs;
                           Setpgid := true; Process := Some pid;
                           ProcessState := None |};
                 lastInvoked := 0; runLock := false;
                 serverURL := "http://localhost:" +:+ sprintf_d listenPort;
                 tempDir := denoDir config code; denoExited := None |}
              (emit (EvSpawn pid (DenoPath config) args envs)
                 (with_procs (<[pid := Running]> (w_procs w3)) (pid + 1)%Z
                    (with_handedOutPorts ports w3)))
            = Some (Some e, inst1, w5))
        /\ lately (be_late env) inst1 w5 = (inst2, w6)
        /\ w' = Close inst2 w6).
Proof.
  unfold NewDenoFunctionInstance. intros Hrun.
  assert (Hkeep : forall w0 : World, w_handedOutPorts w0 = w_handedOutPorts w ->
            forall p, Port.handedOut (w_handedOutPorts w) p = true ->
                      Port.handedOut (w_handedOutPorts w0) p = true)
    by (intros w0 -> p Hp; exact Hp).
  destruct (os_MkdirAll (denoDir config code) w) as [[[err|] w1]|] eqn:E1;
    try discriminate.
  { injection Hrun as <- <-. left.
    destruct (os_MkdirAll_rec_spec _ _ _ _ _ E1) as ((_ & _ & Hp & _ & Hports & Htr) & _).
    split; [left; eauto|]. auto. }
  destruct (os_MkdirAll_rec_spec _ _ _ _ _ E1) as (Hf1 & _).
  destruct (copyDenoFiles (denoDir config code) w1) as [[err|] w2] eqn:E2;
    destruct (copyDenoFiles_range_spec _ _ _ _ _ E2) as (Hf2 & _).
  { injection Hrun as <- <-. left.
    destruct (copyDenoFiles_range_error _ _ _ _ _ E2) as (cause & ->).
    destruct (fs_only_trans _ _ _ Hf1 Hf2) as (_ & _ & Hp & _ & Hports & Htr).
    split; [right; left; eauto|]. auto. }
  destruct (MustJsonString_world initData w2) as (Hf3 & _).
  destruct (MustJsonString initData w2) as [initJSON w2'] eqn:E3. cbn [snd] in Hf3.
  destruct (os_WriteFile _ _ w2') as [[err|] w3] eqn:E4;
    destruct (os_WriteFile_spec _ _ _ _ _ E4) as (Hf4 & _);
    pose proof (fs_only_trans _ _ _ Hf1 (fs_only_trans _ _ _ Hf2
                  (fs_only_trans _ _ _ Hf3 Hf4))) as Hf.
  { injection Hrun as <- <-. left. destruct Hf as (_ & _ & Hp & _ & Hports & Htr).
    split; [do 2 right; left; eauto|]. auto. }
  destruct (Port.FindFreePort _ _ _ _ _) as [[listenPort ports]|] eqn:E5;
    try discriminate.
  assert (Hgrow : forall p, Port.handedOut (w_handedOutPorts w) p = true ->
                            Port.handedOut ports p = true).
  { intros p Hp. destruct Hf as (_ & _ & _ & _ & Hports & _). rewrite <- Hports in Hp.
    destruct (FindFreePort_result _ _ _ _ _ _ E5) as [[_ ->]|[_ ->]]; [exact Hp|].
    apply handedOut_insert. right. exact Hp. }
  destruct Hf as (Hfault & Hexe & Hprocs & Hpid & Hports & Htrace).
  assert (Hsetup : forall e0 : error,
             setup_failure e0 ->
             setup_failure e0
             /\ w_trace (with_handedOutPorts ports w3) = w_trace w
             /\ w_procs (with_handedOutPorts ports w3) = w_procs w
             /\ (forall p, Port.handedOut (w_handedOutPorts w) p = true ->
                           Port.handedOut
                             (w_handedOutPorts (with_handedOutPorts ports w3)) p = true))
    by (intros e0 He0; repeat split; auto).
  destruct (w_fault _ (OpPipe "stdout")).
  { injection Hrun as <- <-. left. apply Hsetup. do 3 right. left. eauto. }
  destruct (w_fault _ (OpPipe "stderr")).
  { injection Hrun as <- <-. left. apply Hsetup. do 4 right. left. eauto. }
  unfold cmd_Start in Hrun. destruct (negb _).
  { injection Hrun as <- <-. left. apply Hsetup. do 5 right. eauto. }
  destruct (w_fault _ (OpStart _)).
  { injection Hrun as <- <-. left. apply Hsetup. do 5 right. eauto. }
  destruct (waitLoop _ _ _ _ _ _) as [[[r inst1] w5]|] eqn:E6; try discriminate.
  destruct (lately_spec (be_late env) inst1 w5) as (_ & _ & Hproc').
  destruct (lately (be_late env) inst1 w5) as [inst2 w6] eqn:E7. cbn [fst] in Hproc'.
  destruct r as [err|]; [|discriminate].
  right. exists w3, listenPort, ports, inst1, w5, inst2, w6.
  destruct (waitLoop_spec _ _ _ _ _ _ _ _ _ E6) as (_ & _ & Hproc).
  cbn [cmd with_serverURL with_cmd Process] in Hproc.
  rewrite Hproc', Hproc in Hrun.
  injection Hrun as <- <-.
  split; [repeat split; assumption|]. split; [first [reflexivity|exact E5]|].
  split; [first [reflexivity|exact E6]|]. split; [exact E7|reflexivity].
Qed.

End Construction.

Section ConstructionProperties.
Context `{Extern}.




(** X8: the failures of the constructor are of three kinds: a step before
    the spawn failed, and the error is the cause wrapped with the step's name
    ("create deno dir", "copy deno files" around "write file", "write JS
    function file", "stdout pipe", "stderr pipe", "deno run"), nothing having
    been started; or the error is "deno exited on boot"; or it is the error
    of the caller's context, as it is. *)
Theorem constructor_failure_kinds env fuel config initData code w e w' :
  NewDenoFunctionInstance env fuel config initData code w = Some (Err e, w') ->
  (setup_failure e /\ w_trace w' = w_trace w /\ w_procs w' = w_procs w)
  \/ e = errors_New "deno exited on boot"
  \/ exists k, tk_ctx (be_ticks env k) = Some e.
Proof.
  intros Hrun.
  destruct (constructor_failure _ _ _ _ _ _ _ _ Hrun)
    as [(Hsetup & Htrace & Hprocs & _)
       |(w3 & listenPort & ports & inst1 & w5 & inst2 & w6 & _ & _ & Hloop & _)].
  - left. auto.
  - right. cbv zeta in Hloop.
    destruct (waitLoop_frame _ _ _ _ _ _ _ _ _ Hloop) as (_ & _ & _ & _ & _ & _ & Hkind).
    exact Hkind.
Qed.

(** X9: the constructor never gives a port back: whatever was handed out
    before a construction is handed out after it, whether it succeeds or
    fails. *)
Theorem constructor_keeps_ports_handed_out env fuel config initData code w r w' :
  NewDenoFunctionInstance env fuel config initData code w = Some (r, w') ->
  forall p, Port.handedOut (w_handedOutPorts w) p = true ->
            Port.handedOut (w_handedOutPorts w') p = true.
Proof.
  intros Hrun p Hp.
  assert (Hgrow : forall (w3 : World) listenPort ports,
             fs_only w w3 ->
             Port.FindFreePort Port.budget (be_rnd env) (be_listen env) 8000
               (w_handedOutPorts w3) = Some (listenPort, ports) ->
             Port.handedOut ports p = true).
  { intros w3 listenPort ports (_ & _ & _ & _ & Hports & _) E5.
    rewrite <- Hports in Hp.
    destruct (FindFreePort_result _ _ _ _ _ _ E5) as [[_ ->]|[_ ->]]; [exact Hp|].
    apply handedOut_insert. right. exact Hp. }
  destruct r as [inst|e].
  - destruct (constructor_success _ _ _ _ _ _ _ _ Hrun)
      as (w1 & w2 & w3 & listenPort & ports & inst1 & w5
          & E1 & E2 & E3 & E5 & Hloop & Hlate).
    destruct (materialised config initData code w w1 w2 w3 E1 E2 E3) as (Hf & _).
    cbv zeta in Hloop.
    destruct (waitLoop_frame _ _ _ _ _ _ _ _ _ Hloop) as (Hports' & _).
    destruct (lately_frame _ _ _ _ _ Hlate) as (Hports'' & _).
    rewrite Hports'', Hports'. exact (Hgrow w3 listenPort ports Hf E5).
  - destruct (constructor_failure _ _ _ _ _ _ _ _ Hrun)
      as [(_ & _ & _ & Hkeep)
         |(w3 & listenPort & ports & inst1 & w5 & inst2 & w6
           & Hf & E5 & Hloop & Hlate & ->)];
      [exact (Hkeep p Hp)|].
    cbv zeta in Hloop.
    destruct (waitLoop_frame _ _ _ _ _ _ _ _ _ Hloop) as (Hports' & _).
    destruct (lately_frame _ _ _ _ _ Hlate) as (Hports'' & _).
    destruct (Close_spec inst2 w6) as (_ & -> & _).
    rewrite Hports'', Hports'. exact (Hgrow w3 listenPort ports Hf E5).
Qed.

(** X10: the working directory is shared by the instances of one source:
    two instances built from the same source under the same working-directory
    root have the same directory, so that closing the one removes the files
    of the other. *)
Theorem same_source_shares_working_directory
    envA fuelA configA initA wA instA wA' envB fuelB configB initB wB instB wB' code :
  NewDenoFunctionInstance envA fuelA configA initA code wA = Some (Ok instA, wA') ->
  NewDenoFunctionInstance envB fuelB configB initB code wB = Some (Ok instB, wB') ->
  WorkDir configA = WorkDir configB ->
  tempDir instA = tempDir instB
  /\ forall w, w_fault w (OpRemoveAll (tempDir instA)) = None ->
               w_fs (Close instA w) !! tempDir instB = None
               /\ w_fs (Close instA w) !! (tempDir instB +:+ "/function.js") = None.
Proof.
  intros HA HB Hroot.
  destruct (constructor_success _ _ _ _ _ _ _ _ HA)
    as (? & ? & ? & ? & ? & instA1 & wA5 & _ & _ & _ & _ & HloopA & HlateA).
  destruct (constructor_success _ _ _ _ _ _ _ _ HB)
    as (? & ? & ? & ? & ? & instB1 & wB5 & _ & _ & _ & _ & HloopB & HlateB).
  cbv zeta in HloopA, HloopB.
  destruct (waitLoop_spec _ _ _ _ _ _ _ _ _ HloopA) as (_ & HtA & _).
  destruct (waitLoop_spec _ _ _ _ _ _ _ _ _ HloopB) as (_ & HtB & _).
  destruct (lately_spec (be_late envA) instA1 wA5) as (_ & HtA' & _).
  destruct (lately_spec (be_late envB) instB1 wB5) as (_ & HtB' & _).
  rewrite HlateA in HtA'. rewrite HlateB in HtB'.
  cbn [tempDir fst] in HtA, HtB, HtA', HtB'.
  assert (Hsame : tempDir instA = tempDir instB).
  { rewrite HtA', HtB', HtA, HtB. unfold denoDir. rewrite Hroot. reflexivity. }
  split; [exact Hsame|]. intros w Hfault.
  destruct (Close_spec instA w) as (_ & _ & _ & _ & _ & _ & Hgone & _).
  assert (Hrem : removes (tempDir instA) w).
  { destruct (denoDir_removable configA code) as [Hpath Hdot].
    rewrite HtA', HtA. split; [exact Hpath|]. split; [exact Hdot|].
    rewrite <- HtA, <- HtA'. exact Hfault. }
  rewrite <- Hsame. split; apply (Hgone Hrem).
  - apply under_self.
  - apply under_child.
Qed.
End ConstructionProperties.




Lemma constructor_failure_kinds_witness :
  (setup_failure error_cancelled
   /\ w_trace world_cancelled = w_trace world0 /\ w_procs world_cancelled = w_procs world0)
  \/ error_cancelled = errors_New "deno exited on boot"
  \/ exists k, tk_ctx (be_ticks bootenv_cancelled k) = Some error_cancelled.
Proof.
  apply (constructor_failure_kinds (H := sampleExtern)
           bootenv_cancelled 5 config0 JNull code0 world0).
  vm_compute. reflexivity.
Defined.

Lemma constructor_keeps_ports_handed_out_witness :
  serverURL instance_again = "http://localhost:8043"
  /\ Port.handedOut (w_handedOutPorts world_again) 8042 = true.
Proof.
  split; [vm_compute; reflexivity|].
  apply (constructor_keeps_ports_handed_out (H := sampleExtern)
           bootenv_again 4 config0 (JString "Pete") code0 world_up (Ok instance_again)).
  - vm_compute. reflexivity.
  - vm_compute. reflexivity.
Defined.

Lemma same_source_shares_working_directory_witness :
  tempDir instance_up = tempDir instance_again
  /\ w_fs world_again !! (tempDir instance_again +:+ "/function.js")
     = Some (File (wrapScript (dquote +:+ "Pete" +:+ dquote) code0))
  /\ w_fs (Close instance_up world_again) !! (tempDir instance_again +:+ "/function.js")
     = None.
Proof.
  destruct (same_source_shares_working_directory (H := sampleExtern)
              bootenv0 4 config0 JNull world0 instance_up world_up
              bootenv_again 4 config0 (JString "Pete") world_up instance_again world_again
              code0)
    as [Hsame Hclosed].
  - vm_compute. reflexivity.
  - vm_compute. reflexivity.
  - reflexivity.
  - split; [exact Hsame|]. split; [vm_compute; reflexivity|].
    apply Hclosed. reflexivity.
Defined.

(** ** Invoke: what it touches, and its failures *)

Section InvokeProperties.
Context `{Extern}.

Lemma prints_only_refl w : prints_only w w.
Proof. split; [reflexivity|apply fs_only_refl]. Qed.

Lemma prints_only_trans w1 w2 w3 :
  prints_only w1 w2 -> prints_only w2 w3 -> prints_only w1 w3.
Proof.
  intros [Hfs1 Hf1] [Hfs2 Hf2]. split; [congruence|eapply fs_only_trans; eauto].
Qed.

Lemma MustJsonString_prints v w : prints_only w (MustJsonString v w).2.
Proof. destruct (MustJsonString_world v w) as [Hf Hfs]. split; assumption. Qed.

Lemma classify_prints resp w : prints_only w (classify resp w).2.
Proof.
  unfold classify. destruct (negb _); [apply prints_only_refl|].
  unfold decodeResult. destruct (json_Decode (Body resp)) as [v|e]; [|apply prints_only_refl].
  destruct v as [| | | | |errorMap]; try apply prints_only_refl.
  destruct (errorMap !! "error") as [errorObj|]; [|apply prints_only_refl].
  pose proof (MustJsonString_prints errorObj w) as H1.
  destruct (MustJsonString errorObj w) as [data w1]. cbn [snd] in H1.
  destruct (json_Unmarshal_jsError data); [exact H1|].
  pose proof (MustJsonString_prints errorObj w1) as H2.
  destruct (MustJsonString errorObj w1) as [raw w2]. cbn [snd] in H2.
  exact (prints_only_trans _ _ _ H1 H2).
Qed.

Lemma with_lastInvoked_unlocked t inst :
  runLock inst = false ->
  with_runLock false (with_lastInvoked t (with_runLock true inst)) = with_lastInvoked t inst.
Proof. destruct inst. cbn. intros ->. reflexivity. Qed.

(** All that one call of [Invoke] does. *)
Lemma Invoke_spec env event inst w ret inst' w' :
  Invoke env event inst w = Some (ret, inst', w') ->
  runLock inst = false
  /\ inst' = with_lastInvoked (ie_now env) inst
  /\ w_fs w' = w_fs w /\ w_procs w' = w_procs w
  /\ w_handedOutPorts w' = w_handedOutPorts w
  /\ ((w_trace w' = w_trace w
       /\ (processExited inst = true
           \/ exists err, http_NewRequestWithContext
                            "POST" (serverURL inst) (MustJsonString event w).1 = Err err))
      \/ (processExited inst = false
          /\ w_trace w'
             = w_trace w ++ [EvHTTP {| Method := "POST"; URL := serverURL inst;
                                       ReqBody := (MustJsonString event w).1 |}])).
Proof.
  unfold Invoke. destruct (runLock inst) eqn:Hlock; [discriminate|].
  unfold Invoke_locked.
  replace (processExited (with_lastInvoked (ie_now env) (with_runLock true inst)))
    with (processExited inst) by reflexivity.
  destruct (processExited inst) eqn:Hexited.
  { intros [= <- <- <-]. split; [reflexivity|].
    split; [apply with_lastInvoked_unlocked; exact Hlock|]. repeat split; auto. }
  pose proof (MustJsonString_prints event w) as Hp.
  destruct (MustJsonString event w) as [body w1]. cbn [fst snd] in *.
  cbn [serverURL with_lastInvoked with_runLock].
  destruct Hp as (Hfs & _ & _ & Hprocs & _ & Hports & Htrace).
  unfold http_NewRequestWithContext.
  destruct (url_Parse (serverURL inst)) as [err|].
  { intros [= <- <- <-]. split; [reflexivity|].
    split; [apply with_lastInvoked_unlocked; exact Hlock|]. repeat split; auto.
    left. split; [exact Htrace|]. right. eauto. }
  destruct (ie_Do env _) as [resp|err].
  - pose proof (classify_prints resp
                  (emit (EvHTTP {| Method := "POST"; URL := serverURL inst;
                                   ReqBody := body |}) w1)) as Hc.
    destruct (classify resp _) as [r w2]. cbn [snd] in Hc.
    destruct Hc as (Hfs2 & _ & _ & Hprocs2 & _ & Hports2 & Htrace2).
    cbn [w_fs w_procs w_handedOutPorts w_trace emit] in *.
    intros [= <- <- <-]. split; [reflexivity|].
    split; [apply with_lastInvoked_unlocked; exact Hlock|].
    repeat split; try congruence. right. split; [reflexivity|]. congruence.
  - intros [= <- <- <-]. split; [reflexivity|].
    split; [apply with_lastInvoked_unlocked; exact Hlock|].
    cbn [w_fs w_procs w_handedOutPorts w_trace emit]. repeat split; auto.
    right. split; [reflexivity|]. congruence.
Qed.

(** The result of a call depends on the instance through its lock, the
    recorded state of the child and the URL only, and not on the world. *)
Lemma Invoke_outcome_depends env event inst1 w1 inst2 w2 :
  runLock inst1 = runLock inst2 ->
  processExited inst1 = processExited inst2 ->
  serverURL inst1 = serverURL inst2 ->
  outcome (Invoke env event inst1 w1) = outcome (Invoke env event inst2 w2).
Proof.
  intros Hlock Hexited Hurl. unfold Invoke. rewrite Hlock.
  destruct (runLock inst2); [reflexivity|]. unfold Invoke_locked.
  replace (processExited (with_lastInvoked (ie_now env) (with_runLock true inst1)))
    with (processExited inst1) by reflexivity.
  replace (processExited (with_lastInvoked (ie_now env) (with_runLock true inst2)))
    with (processExited inst2) by reflexivity.
  rewrite Hexited. destruct (processExited inst2); [reflexivity|].
  cbn [serverURL with_lastInvoked with_runLock]. rewrite Hurl.
  pose proof (MustJsonString_text event w1 w2) as Htext.
  destruct (MustJsonString event w1) as [body w1'].
  destruct (MustJsonString event w2) as [body' w2']. cbn [fst] in Htext. subst body'.
  destruct (http_NewRequestWithContext "POST" (serverURL inst2) body) as [req|err];
    [|reflexivity].
  destruct (ie_Do env req) as [resp|err]; [|reflexivity].
  pose proof (classify_result resp (emit (EvHTTP req) w1') (emit (EvHTTP req) w2')) as Hc.
  destruct (classify resp (emit (EvHTTP req) w1')) as [r1 w1''].
  destruct (classify resp (emit (EvHTTP req) w2')) as [r2 w2'']. cbn [fst] in Hc.
  subst r2. reflexivity.
Qed.

(** X11: a call of [Invoke] leaves the instance as it was but for
    [lastInvoked], which it sets to the time of the call whatever the
    outcome, and gives the lock back.  In the world it touches neither the
    files, nor the processes (it never kills the child), nor the ports; it
    sends at most one request, a POST to the instance's URL, and none at all
    when the child is known to have exited or the request cannot be built. *)
Theorem Invoke_touches_only_lastInvoked env event inst w ret inst' w' :
  Invoke env event inst w = Some (ret, inst', w') ->
  inst' = with_lastInvoked (ie_now env) inst
  /\ LastInvoked inst' = ie_now env
  /\ runLock inst' = false
  /\ w_fs w' = w_fs w /\ w_procs w' = w_procs w
  /\ w_handedOutPorts w' = w_handedOutPorts w
  /\ (w_trace w' = w_trace w
      \/ w_trace w'
         = w_trace w ++ [EvHTTP {| Method := "POST"; URL := serverURL inst;
                                   ReqBody := (MustJsonString event w).1 |}])
  /\ (processExited inst = true -> w_trace w' = w_trace w).
Proof.
  intros Hrun.
  destruct (Invoke_spec _ _ _ _ _ _ _ Hrun) as (Hlock & -> & Hfs & Hprocs & Hports & Htrace).
  split; [reflexivity|]. split; [reflexivity|]. split; [exact Hlock|].
  split; [exact Hfs|]. split; [exact Hprocs|]. split; [exact Hports|].
  destruct Htrace as [(Hsame & _)|(Hlive & Hsent)].
  - split; [left; exact Hsame|]. intros _. exact Hsame.
  - split; [right; exact Hsent|]. intros Hex. congruence.
Qed.

(** X12: a call does not depend on the calls before it: after any call,
    failed or not, the next one returns what it would have returned on the
    instance as it was. *)
Theorem Invoke_result_is_independent_of_history
    env1 event1 inst w ret1 inst1 w1 env2 event2 :
  Invoke env1 event1 inst w = Some (ret1, inst1, w1) ->
  outcome (Invoke env2 event2 inst1 w1) = outcome (Invoke env2 event2 inst w).
Proof.
  intros Hrun.
  destruct (Invoke_spec _ _ _ _ _ _ _ Hrun) as (Hlock & -> & _).
  apply Invoke_outcome_depends; reflexivity.
Qed.

(** X13: the failures of [Invoke] before the classification of the response.
    When the request cannot be built the call fails with "invoke call" around
    the cause and sends nothing; when the exchange fails (the connection, or
    the caller's cancellation) it fails with "function http request" around
    the cause, the request having been sent once; when the body of a 200
    response is not JSON it fails with "unmarshall response" around the
    decoder's error. *)
Theorem Invoke_transport_failures env event inst w :
  runLock inst = false ->
  processExited inst = false ->
  (forall err,
     http_NewRequestWithContext "POST" (serverURL inst) (MustJsonString event w).1
     = Err err ->
     exists inst' w',
       Invoke env event inst w = Some (Err (errors_Wrap err "invoke call"), inst', w')
       /\ w_trace w' = w_trace w)
  /\ (forall req err,
        http_NewRequestWithContext "POST" (serverURL inst) (MustJsonString event w).1
        = Ok req ->
        ie_Do env req = Err err ->
        exists inst' w',
          Invoke env event inst w
          = Some (Err (errors_Wrap err "function http request"), inst', w')
          /\ w_trace w' = w_trace w ++ [EvHTTP req])
  /\ (forall req resp err,
        http_NewRequestWithContext "POST" (serverURL inst) (MustJsonString event w).1
        = Ok req ->
        ie_Do env req = Ok resp ->
        StatusCode resp = 200%Z ->
        json_Decode (Body resp) = Err err ->
        exists inst' w',
          Invoke env event inst w
          = Some (Err (errors_Wrap err "unmarshall response"), inst', w')
          /\ w_trace w' = w_trace w ++ [EvHTTP req]).
Proof.
  intros Hlock Hlive.
  assert (Hexited : processExited (with_lastInvoked (ie_now env) (with_runLock true inst))
                    = false) by exact Hlive.
  pose proof (MustJsonString_prints event w) as (_ & _ & _ & _ & _ & _ & Htrace).
  unfold Invoke, Invoke_locked. rewrite Hlock, Hexited.
  destruct (MustJsonString event w) as [body w1]. cbn [fst snd] in *.
  cbn [serverURL with_lastInvoked with_runLock].
  split; [|split].
  - intros err ->. eexists _, _. split; [reflexivity|exact Htrace].
  - intros req err -> ->. eexists _, _. split; [reflexivity|].
    cbn [w_trace emit]. rewrite Htrace. reflexivity.
  - intros req resp err -> -> Hs Hdec. unfold classify, decodeResult, StatusOK.
    apply Z.eqb_eq in Hs. rewrite Hs, Hdec. cbn [negb].
    eexists _, _. split; [reflexivity|]. cbn [w_trace emit]. rewrite Htrace. reflexivity.
Qed.

(** X14: an event that cannot be serialized does not stop the call:
    [MustJsonString] prints the error and yields the empty string, and the
    request goes out with an empty body. *)
Theorem Invoke_with_unserializable_event env event inst w err :
  json_Marshal event = Err err ->
  runLock inst = false ->
  processExited inst = false ->
  url_Parse (serverURL inst) = None ->
  exists ret inst' w',
    Invoke env event inst w = Some (ret, inst', w')
    /\ w_trace w'
       = w_trace w ++ [EvHTTP {| Method := "POST"; URL := serverURL inst;
                                 ReqBody := EmptyString |}]
    /\ exists more,
         w_stdout w'
         = w_stdout w ++ ("JSON serialization error: " +:+ Error err +:+ newline) :: more.
Proof.
  intros Hmarshal Hlock Hlive Hurl.
  assert (Hexited : processExited (with_lastInvoked (ie_now env) (with_runLock true inst))
                    = false) by exact Hlive.
  unfold Invoke, Invoke_locked. rewrite Hlock, Hexited.
  unfold MustJsonString at 1, MustJsonByteSlice at 1. rewrite Hmarshal.
  unfold http_NewRequestWithContext.
  cbn [serverURL with_lastInvoked with_runLock]. rewrite Hurl.
  set (w1 := Printf ("JSON serialization error: " +:+ Error err +:+ newline) w).
  set (req := {| Method := "POST"; URL := serverURL inst; ReqBody := EmptyString |}).
  assert (Hout : forall resp, exists more,
             w_stdout (classify resp (emit (EvHTTP req) w1)).2
             = w_stdout w ++ ("JSON serialization error: " +:+ Error err +:+ newline)
                             :: more).
  { intros resp. unfold classify. destruct (negb _);
      [exists []; reflexivity|].
    unfold decodeResult. destruct (json_Decode (Body resp)) as [v|e];
      [|exists []; reflexivity].
    destruct v as [| | | | |errorMap]; try (exists []; reflexivity).
    destruct (errorMap !! "error") as [errorObj|]; [|exists []; reflexivity].
    unfold MustJsonString, MustJsonByteSlice.
    destruct (json_Marshal errorObj) as [buf|e'].
    - destruct (json_Unmarshal_jsError buf); exists []; reflexivity.
    - destruct (json_Unmarshal_jsError EmptyString).
      + eexists [_]. cbn [snd w_stdout Printf emit w1]. rewrite <- app_assoc. reflexivity.
      + eexists [_; _]. cbn [snd w_stdout Printf emit w1]. rewrite <- !app_assoc.
        reflexivity. }
  destruct (ie_Do env req) as [resp|e].
  - pose proof (classify_prints resp (emit (EvHTTP req) w1))
      as (_ & _ & _ & _ & _ & _ & Htrace).
    destruct (Hout resp) as (more & Hmore).
    destruct (classify resp (emit (EvHTTP req) w1)) as [r w2]. cbn [snd] in *.
    eexists _, _, _. split; [reflexivity|]. split; [exact Htrace|]. eauto.
  - eexists _, _, _. split; [reflexivity|]. split; [reflexivity|].
    exists []. reflexivity.
Qed.

(** Whatever the child answers, the result is not [ProcessExitedError]. *)
Lemma classify_is_not_ProcessExitedError resp w :
  (classify resp w).1 <> Err ProcessExitedError.
Proof.
  unfold classify. destruct (negb _); [cbn; discriminate|].
  unfold decodeResult. destruct (json_Decode (Body resp)) as [v|e]; [|cbn; discriminate].
  destruct v as [| | | | |errorMap]; try (cbn; discriminate).
  destruct (errorMap !! "error") as [errorObj|]; [|cbn; discriminate].
  destruct (MustJsonString errorObj w) as [data w1].
  destruct (json_Unmarshal_jsError data); [cbn; discriminate|].
  destruct (MustJsonString errorObj w1) as [raw w2]. cbn. discriminate.
Qed.

(** C2: [Close], and then [Invoke], on an instance whose child runs.  The
    working directory and what lay below it are gone, unless the system
    refused the removal.  But the call does not fail with
    [ProcessExitedError]: [Close] ends the child with SIGKILL, so that the
    state of the child, once the waiting goroutine has recorded it, is
    "signal: killed", for which [Exited()] is false, and before that there is
    no state at all.  Either way the guard of [Invoke] lets the call
    through: it sends its request to the child that is gone, and returns
    what the exchange gives, an error of the connection being wrapped as
    "function http request". *)
Theorem Close_then_Invoke inst w cfg code pid (delivered : bool) env event :
  tempDir inst = denoDir cfg code ->
  Process (cmd inst) = Some pid ->
  w_procs w !! pid = Some Running ->
  ProcessState (cmd inst) = None ->
  runLock inst = false ->
  url_Parse (serverURL inst) = None ->
  let w1 := Close inst w in
  let inst1 := if delivered then waiter inst w1 else inst in
  let req := {| Method := "POST"; URL := serverURL inst;
                ReqBody := (MustJsonString event w1).1 |} in
  (w_fault w (OpRemoveAll (tempDir inst)) = None ->
   forall k, under (tempDir inst) k = true -> w_fs w1 !! k = None)
  /\ w_procs w1 !! pid = Some (Terminated (WSignaled 9))
  /\ ProcessState (cmd inst1) = (if delivered then Some (WSignaled 9) else None)
  /\ processExited inst1 = false
  /\ exists ret inst2 w2,
       Invoke env event inst1 w1 = Some (ret, inst2, w2)
       /\ ret <> Err ProcessExitedError
       /\ w_trace w2 = w_trace w ++ [EvKill pid; EvHTTP req]
       /\ (forall err, ie_Do env req = Err err ->
                       ret = Err (errors_Wrap err "function http request")).
Proof.
  intros Htemp Hpid Hruns Hstate Hlock Hurl. cbv zeta.
  destruct (Close_spec inst w) as (_ & _ & Hctrace & _ & Hcpid & _ & Hgone & _).
  assert (Hgone' : w_fault w (OpRemoveAll (tempDir inst)) = None ->
                   forall k, under (tempDir inst) k = true ->
                             w_fs (Close inst w) !! k = None).
  { intros Hf. apply Hgone. destruct (denoDir_removable cfg code) as [Hpath Hdot].
    rewrite Htemp. split; [exact Hpath|]. split; [exact Hdot|].
    rewrite <- Htemp. exact Hf. }
  clear Hgone.
  rewrite Hpid in Hctrace. specialize (Hcpid pid Hpid). rewrite Hruns in Hcpid.
  set (w1 := Close inst w) in *.
  set (inst1 := if delivered then waiter inst w1 else inst).
  assert (Hinst1 : runLock inst1 = false /\ serverURL inst1 = serverURL inst
                   /\ ProcessState (cmd inst1)
                      = (if delivered then Some (WSignaled 9) else None)).
  { unfold inst1. destruct delivered; [|auto].
    unfold waiter. rewrite Hpid, Hstate, Hcpid. cbn. auto. }
  destruct Hinst1 as (Hlock1 & Hurl1 & Hstate1).
  assert (Hexited : processExited inst1 = false).
  { unfold processExited. rewrite Hstate1. destruct delivered; reflexivity. }
  split; [exact Hgone'|]. split; [exact Hcpid|]. split; [exact Hstate1|].
  split; [exact Hexited|].
  assert (Hexited' : processExited (with_lastInvoked (ie_now env)
                                      (with_runLock true inst1)) = false)
    by exact Hexited.
  pose proof (MustJsonString_prints event w1) as (_ & _ & _ & _ & _ & _ & Htrace).
  unfold Invoke, Invoke_locked. rewrite Hlock1, Hexited'.
  destruct (MustJsonString event w1) as [body w1']. cbn [fst snd] in *.
  cbn [serverURL with_lastInvoked with_runLock]. rewrite Hurl1.
  unfold http_NewRequestWithContext. rewrite Hurl.
  set (req := {| Method := "POST"; URL := serverURL inst; ReqBody := body |}).
  destruct (ie_Do env req) as [resp|err].
  - pose proof (classify_prints resp (emit (EvHTTP req) w1'))
      as (_ & _ & _ & _ & _ & _ & Htrace2).
    pose proof (classify_is_not_ProcessExitedError resp (emit (EvHTTP req) w1')) as Hkind.
    destruct (classify resp (emit (EvHTTP req) w1')) as [ret w2]. cbn [fst snd] in *.
    eexists _, _, _. split; [reflexivity|]. split; [exact Hkind|].
    split; [|discriminate].
    rewrite Htrace2. cbn [w_trace emit]. rewrite Htrace, Hctrace, <- app_assoc.
    reflexivity.
  - eexists _, _, _. split; [reflexivity|]. split; [discriminate|].
    split; [|intros err' [= ->]; reflexivity].
    cbn [w_trace emit]. rewrite Htrace, Hctrace, <- app_assoc. reflexivity.
Qed.
End InvokeProperties.

Lemma Close_then_Invoke_witness :
  let w1 := Close instance0 world1 in
  let inst1 := waiter instance0 w1 in
  w_fs w1 !! tempDir instance0 = None
  /\ ProcessState (cmd inst1) = Some (WSignaled 9)
  /\ exists inst2 w2,
       Invoke (H := sampleExtern) env_refused value_pete inst1 w1
       = Some (Err (errors_Wrap
                      (sys_error "dial tcp 127.0.0.1:8042: connect: connection refused")
                      "function http request"), inst2, w2)
       /\ w_trace w2 = [EvKill 100; EvHTTP request_pete].
Proof.
  cbv zeta.
  destruct (Close_then_Invoke (H := sampleExtern) instance0 world1 config0 code0 100%Z
              true env_refused value_pete eq_refl eq_refl)
    as (Hgone & _ & Hstate & _ & ret & inst2 & w2 & Hrun & _ & Htrace & Hfails).
  - vm_compute. reflexivity.
  - reflexivity.
  - reflexivity.
  - vm_compute. reflexivity.
  - split; [apply Hgone; [reflexivity|apply under_self]|]. split; [exact Hstate|].
    exists inst2, w2. split; [|exact Htrace].
    rewrite Hrun. rewrite (Hfails _ eq_refl). reflexivity.
Defined.

Lemma Invoke_touches_only_lastInvoked_witness :
  exists ret inst' w',
    Invoke (H := sampleExtern) env_refused value_pete instance0 world1
    = Some (ret, inst', w')
    /\ LastInvoked inst' = 1700000000%Z
    /\ runLock inst' = false
    /\ w_procs w' = w_procs world1.
Proof.
  assert (E : exists ret inst' w',
             Invoke (H := sampleExtern) env_refused value_pete instance0 world1
             = Some (ret, inst', w'))
    by (eexists _, _, _; vm_compute; reflexivity).
  destruct E as (ret & inst' & w' & E). exists ret, inst', w'.
  destruct (Invoke_touches_only_lastInvoked (H := sampleExtern)
              env_refused value_pete instance0 world1 ret inst' w' E)
    as (_ & Hstamp & Hlock & _ & Hprocs & _).
  split; [exact E|]. split; [exact Hstamp|]. split; [exact Hlock|exact Hprocs].
Defined.

Lemma Invoke_result_is_independent_of_history_witness :
  exists ret1 inst1 w1,
    Invoke (H := sampleExtern) env_refused JNull instance0 world1 = Some (ret1, inst1, w1)
    /\ outcome (Invoke (H := sampleExtern)
                  (env_answers {| StatusCode := 200; Body := text_pete |})
                  value_pete inst1 w1)
       = Some (Ok value_pete).
Proof.
  assert (E : exists ret1 inst1 w1,
             Invoke (H := sampleExtern) env_refused JNull instance0 world1
             = Some (ret1, inst1, w1))
    by (eexists _, _, _; vm_compute; reflexivity).
  destruct E as (ret1 & inst1 & w1 & E). exists ret1, inst1, w1.
  split; [exact E|].
  rewrite (Invoke_result_is_independent_of_history (H := sampleExtern)
             env_refused JNull instance0 world1 ret1 inst1 w1
             (env_answers {| StatusCode := 200; Body := text_pete |}) value_pete E).
  vm_compute. reflexivity.
Defined.

Lemma Invoke_transport_failures_witness :
  exists inst' w',
    Invoke (H := sampleExtern) env_refused value_pete instance0 world1
    = Some (Err (errors_Wrap
                   (sys_error "dial tcp 127.0.0.1:8042: connect: connection refused")
                   "function http request"), inst', w')
    /\ w_trace w' = w_trace world1 ++ [EvHTTP request_pete].
Proof.
  apply (proj1 (proj2 (Invoke_transport_failures (H := sampleExtern)
                         env_refused value_pete instance0 world1 eq_refl eq_refl))).
  - vm_compute. reflexivity.
  - reflexivity.
Defined.

Lemma Invoke_with_unserializable_event_witness :
  exists ret inst' w',
    Invoke (H := nanExtern) env_refused (JNumber NaN) instance0 world1
    = Some (ret, inst', w')
    /\ w_trace w'
       = w_trace world1 ++ [EvHTTP {| Method := "POST"; URL := serverURL instance0;
                                      ReqBody := EmptyString |}]
    /\ exists more,
         w_stdout w'
         = w_stdout world1
           ++ ("JSON serialization error: "
               +:+ Error (sys_error "json: unsupported value: NaN") +:+ newline) :: more.
Proof.
  apply (Invoke_with_unserializable_event (H := nanExtern)
           env_refused (JNumber NaN) instance0 world1
           (sys_error "json: unsupported value: NaN")).
  - reflexivity.
  - reflexivity.
  - reflexivity.
  - vm_compute. reflexivity.
Defined.

(** ** The log drain, line by line *)

Lemma cut_line body rest :
  cut (ascii_of_nat 10) body = None ->
  cut (ascii_of_nat 10) (body +:+ newline +:+ rest) = Some (body +:+ newline, rest).
Proof.
  induction body as [|c body IH]; [intros _; reflexivity|].
  rewrite !append_cons. cbn [cut].
  destruct (Ascii.eqb c (ascii_of_nat 10)); [discriminate|].
  destruct (cut (ascii_of_nat 10) body) as [[l r]|]; [discriminate|].
  intros _. rewrite IH by reflexivity. reflexivity.
Qed.

(** X15: what the drain makes of a stream.  The stream being the lines
    [bodies], each followed by a newline, and then [tail] without a newline,
    the callback is called once for every line, in order, with the line and
    its newline; the callback is not called for [tail], and the error that
    ends the stream, end-of-file or any other, is not reported.  One round
    more than there are lines is enough. *)
Theorem drain_calls_back_once_per_line {S : Type} (callback : string -> S -> S)
    (bodies : list string) (tail : string) (stop : error) :
  Forall (fun body => cut (ascii_of_nat 10) body = None) bodies ->
  cut (ascii_of_nat 10) tail = None ->
  forall fuel sink, (length bodies < fuel)%nat ->
    pipeLogStreamToCallback fuel
      {| pending := fold_right (fun body rest => body +:+ newline +:+ rest) tail bodies;
         ending := stop |} callback sink
    = Some (fold_left (fun s body => callback (body +:+ newline) s) bodies sink).
Proof.
  intros Hbodies Htail. induction Hbodies as [|body bodies Hbody _ IH];
    intros fuel sink Hfuel.
  - destruct fuel as [|fuel]; [cbn in Hfuel; lia|].
    cbn [pipeLogStreamToCallback fold_right fold_left]. unfold ReadString.
    cbn [pending]. rewrite Htail. reflexivity.
  - destruct fuel as [|fuel]; [cbn in Hfuel; lia|].
    cbn [pipeLogStreamToCallback fold_right fold_left]. unfold ReadString.
    cbn [pending ending]. rewrite (cut_line body _ Hbody).
    apply IH. cbn in Hfuel. lia.
Qed.

(** ** The port allocator: which port *)

(** X16: the allocator returns the candidate of the first round that is not
    refused, and records it: the rounds before it leave no mark. *)
Theorem FindFreePort_returns_first_accepted_candidate
    (rnd : Port.Rand) (listen : Port.Listener) (startPort : Z) (m : gmap Z bool)
    (k : nat) :
  (k <= 1000)%nat ->
  (forall j, (j < k)%nat -> Port.refused listen startPort rnd m j) ->
  Port.handedOut m (Port.candidate startPort rnd k) = false ->
  listen (Z.of_nat k) (Port.candidate startPort rnd k) = true ->
  Port.FindFreePort Port.budget rnd listen startPort m
  = Some (Port.candidate startPort rnd k, <[Port.candidate startPort rnd k := true]> m).
Proof.
  intros Hk Hbefore Hfresh Hbind.
  assert (Hnot : ~ Port.refused listen startPort rnd m k).
  { intros [Hh|Hl]; congruence. }
  destruct (FindFreePort_spec listen startPort rnd m) as (r & m' & -> & Hcase).
  destruct Hcase as [(k' & Hk' & -> & Hl & Hh & -> & Hearlier)|(_ & _ & Hall)].
  - destruct (Nat.lt_trichotomy k k') as [Hlt|[->|Hgt]].
    + destruct (Hnot (Hearlier k Hlt)).
    + reflexivity.
    + destruct (Hbefore k' Hgt) as [Hh'|Hl']; congruence.
  - destruct (Hnot (Hall k Hk)).
Qed.

(** ** Concurrent calls never get stuck *)

Section Progress.
Context `{Extern}.
Variable callers : list Caller.
Variable inst0 : DenoFunctionInstance.
Variable w0 : World.
Hypothesis lock_free : runLock inst0 = false.

Lemma serial_inv_progress s :
  serial_inv callers inst0 w0 s ->
  (forall i p, s_pcs s !! i = Some p -> is_returned p = true)
  \/ exists i c p r,
       callers !! i = Some c /\ s_pcs s !! i = Some p /\ is_returned p = false
       /\ Invoke_step (c_env c) (c_event c) p (s_inst s) (s_world s) = Some r.
Proof.
  intros (order & rets & instS & wS & Hrun & Hnd & Hlen & Hrets & Hcase).
  destruct (Invoke_in_order_spec callers order _ _ _ _ _ Hrun lock_free)
    as (Hfree & Hfst & Hbound).
  destruct Hcase as [(Hinst & Hworld & Hwait)|(a & c & p & fuel & Ha & Hc & Hp & Hh & _)].
  - destruct (decide (Forall (fun i => i ∈ order) (seq 0 (length callers))))
      as [Hall|Hsome].
    + left. intros i p Hp.
      assert (Hi : (i < length callers)%nat).
      { rewrite <- Hlen. eapply lookup_lt_Some; eauto. }
      rewrite Forall_forall in Hall.
      assert (Hin : i ∈ order).
      { apply Hall. apply elem_of_seq. lia. }
      destruct (returned_of_order order rets (s_pcs s) Hfst Hrets i Hin)
        as (ret & _ & Hpi).
      rewrite Hp in Hpi. injection Hpi as ->. reflexivity.
    + right. apply not_Forall_Exists in Hsome; [|intros i; apply _].
      apply Exists_exists in Hsome. destruct Hsome as (i & Hi & Hnot).
      apply elem_of_seq in Hi.
      destruct (lookup_lt_is_Some_2 callers i) as (c & Hc); [lia|].
      destruct (lookup_lt_is_Some_2 (s_pcs s) i) as (p & Hp); [lia|].
      assert (p = AtLock) as -> by (eapply Hwait; eauto; discriminate).
      exists i, c, AtLock. eexists. split; [exact Hc|]. split; [exact Hp|].
      split; [reflexivity|]. cbn [Invoke_step]. rewrite Hinst, Hfree. reflexivity.
  - right. destruct (Invoke_step_locked (c_env c) (c_event c) p (s_inst s) (s_world s) Hh)
      as (p' & inst' & w' & Hstep & _).
    exists a, c, p. eexists. split; [exact Hc|]. split; [exact Hp|].
    split; [destruct p; try discriminate; reflexivity|exact Hstep].
Qed.
End Progress.

(** X17: concurrent calls of [Invoke] on one instance cannot deadlock:
    whatever the interleaving so far, either every call has returned, or
    some call that has not returned can run its next statement. *)
Theorem concurrent_Invoke_never_deadlocks `{Extern} callers inst0 w0 schedule :
  runLock inst0 = false ->
  let s := run_schedule callers schedule (start callers inst0 w0) in
  (forall i p, s_pcs s !! i = Some p -> is_returned p = true)
  \/ exists i c p r,
       callers !! i = Some c /\ s_pcs s !! i = Some p /\ is_returned p = false
       /\ Invoke_step (c_env c) (c_event c) p (s_inst s) (s_world s) = Some r.
Proof.
  intros Hfree s. apply (serial_inv_progress callers inst0 w0 Hfree).
  apply (serial_inv_run callers inst0 w0 Hfree), serial_inv_start.
Qed.

Lemma drain_calls_back_once_per_line_witness :
  pipeLogStreamToCallback 3
    {| pending := "first" +:+ newline +:+ "second" +:+ newline +:+ "last";
       ending := io_EOF |} collect []
  = Some ["first" +:+ newline; "second" +:+ newline].
Proof.
  apply (drain_calls_back_once_per_line collect ["first"; "second"] "last" io_EOF).
  - repeat (constructor; [reflexivity|]). constructor.
  - reflexivity.
  - simpl. lia.
Defined.

Lemma FindFreePort_returns_first_accepted_candidate_witness :
  Port.FindFreePort Port.budget rnd_from42 (fun _ _ => true) 8000 (<[8042%Z := true]> ∅)
  = Some (8043%Z, <[8043%Z := true]> (<[8042%Z := true]> ∅)).
Proof.
  apply (FindFreePort_returns_first_accepted_candidate
           rnd_from42 (fun _ _ => true) 8000 (<[8042%Z := true]> ∅) 1).
  - lia.
  - intros j Hj. assert (j = 0%nat) as -> by lia. left. vm_compute. reflexivity.
  - vm_compute. reflexivity.
  - reflexivity.
Defined.

Lemma concurrent_Invoke_never_deadlocks_witness :
  let s := run_schedule (H := sampleExtern) callers2 [0; 1; 0]%nat
             (start callers2 instance0 world1) in
  (forall i p, s_pcs s !! i = Some p -> is_returned p = true)
  \/ exists i c p r,
       callers2 !! i = Some c /\ s_pcs s !! i = Some p /\ is_returned p = false
       /\ Invoke_step (H := sampleExtern) (c_env c) (c_event c) p (s_inst s) (s_world s)
          = Some r.
Proof.
  apply (concurrent_Invoke_never_deadlocks (H := sampleExtern)
           callers2 instance0 world1 [0; 1; 0]%nat eq_refl).
Defined.

(** ** The constructor: when it returns *)

Section Waiting.
Context `{Extern}.

Lemma waitLoop_round_settled tk listenPort inst w :
  booting inst w -> settled tk = true ->
  (waitLoop_round tk listenPort inst w).1.1 <> RoundAgain.
Proof.
  intros (pid & Hpid & Hruns & Hstate & Hexited) Hsettled.
  unfold waitLoop_round, meanwhile, child_ends, select, settled in *.
  destruct tk as [ctx ended pick dial]. cbn [tk_ctx tk_exit tk_pick_exit tk_dial] in *.
  destruct ended as [ws|].
  - rewrite Hpid, Hruns. unfold waiter. rewrite Hpid, Hstate.
    cbn [w_procs with_procs]. rewrite lookup_insert_eq.
    cbn [denoExited with_denoExited with_cmd].
    destruct ctx; [destruct pick|]; cbn; discriminate.
  - rewrite Hexited. destruct ctx; [cbn; discriminate|].
    rewrite Hsettled. cbn. discriminate.
Qed.

Lemma waitLoop_settles ticks listenPort :
  forall n fuel i inst w,
    booting inst w -> settled (ticks (i + n)%nat) = true -> (n < fuel)%nat ->
    exists r, waitLoop fuel ticks i listenPort inst w = Some r.
Proof.
  induction n as [|n IH]; intros fuel i inst w Hboot Hsettled Hfuel;
    (destruct fuel as [|fuel]; [lia|]); cbn [waitLoop].
  - rewrite Nat.add_0_r in Hsettled.
    pose proof (waitLoop_round_settled _ listenPort _ _ Hboot Hsettled) as Hnot.
    destruct (waitLoop_round (ticks i) listenPort inst w) as [[[e| |] inst'] w'];
      cbn [fst] in Hnot; [eauto|eauto|congruence].
  - destruct (waitLoop_round (ticks i) listenPort inst w) as [[rr inst'] w'] eqn:E.
    pose proof (waitLoop_round_booting _ _ _ _ _ _ _ E Hboot) as Hnext.
    destruct rr as [e| |]; [eauto|eauto|]. destruct Hnext as [-> Hboot'].
    apply IH; [exact Hboot'| |lia].
    replace (S i + n)%nat with (i + S n)%nat by lia. exact Hsettled.
Qed.

Lemma waitLoop_unsettled ticks listenPort inst :
  denoExited inst = None ->
  (forall k, settled (ticks k) = false) ->
  forall fuel i w, waitLoop fuel ticks i listenPort inst w = None.
Proof.
  intros Hexited Hnever fuel i w.
  replace fuel with (fuel + 0)%nat by lia.
  rewrite (waitLoop_retries ticks listenPort inst Hexited fuel 0 i w); [reflexivity|].
  intros k _. specialize (Hnever k). unfold settled in Hnever.
  destruct (tk_ctx (ticks k)); [discriminate|].
  destruct (tk_exit (ticks k)); [discriminate|]. auto.
Qed.

(** The way of the constructor to its wait loop does not depend on the fuel:
    either a step of the set-up fails, or the child is started and the result
    is that of the loop. *)
Lemma constructor_cases env config initData code w :
  (exists e w', setup_failure e
                /\ forall fuel, NewDenoFunctionInstance env fuel config initData code w
                                = Some (Err e, w'))
  \/ (exists listenPort inst1 w1,
        booting inst1 w1
        /\ forall fuel,
             NewDenoFunctionInstance env fuel config initData code w
             = match waitLoop fuel (be_ticks env) 0 listenPort inst1 w1 with
               | None => None
               | Some (r, inst, w2) =>
                   let '(inst, w2) := lately (be_late env) inst w2 in
                   match r with
                   | Some err =>
                       Some (Err err, match Process (cmd inst) with
                                      | Some _ => Close inst w2
                                      | None => w2
                                      end)
                   | None => Some (Ok inst, w2)
                   end
               end).
Proof.
  unfold NewDenoFunctionInstance.
  destruct (os_MkdirAll_total (denoDir config code) w) as ([err|] & w1 & ->).
  { left. eexists _, _. split; [left; eauto|reflexivity]. }
  destruct (copyDenoFiles (denoDir config code) w1) as [[err|] w2] eqn:E2.
  { left. destruct (copyDenoFiles_range_error _ _ _ _ _ E2) as (cause & ->).
    eexists _, _. split; [right; left; eauto|reflexivity]. }
  destruct (MustJsonString initData w2) as [initJSON w2'].
  destruct (os_WriteFile _ _ w2') as [[err|] w3].
  { left. eexists _, _. split; [do 2 right; left; eauto|reflexivity]. }
  destruct (FindFreePort_spec (be_listen env) 8000 (be_rnd env) (w_handedOutPorts w3))
    as (listenPort & ports & -> & _).
  destruct (w_fault _ (OpPipe "stdout")).
  { left. eexists _, _. split; [do 3 right; left; eauto|reflexivity]. }
  destruct (w_fault _ (OpPipe "stderr")).
  { left. eexists _, _. split; [do 4 right; left; eauto|reflexivity]. }
  unfold cmd_Start. destruct (negb _).
  { left. eexists _, _. split; [do 5 right; eauto|reflexivity]. }
  destruct (w_fault _ (OpStart _)).
  { left. eexists _, _. split; [do 5 right; eauto|reflexivity]. }
  right. eexists _, _, _. split; [|reflexivity].
  eexists. cbn. split; [reflexivity|]. split; [apply lookup_insert_eq|]. auto.
Qed.
End Waiting.

(** X18: the constructor returns as soon as something ends the wait.  Let
    round [n] of the wait loop be one where the caller's context is done, or
    the child has ended, or the connect succeeds: then the constructor returns
    within [n + 1] rounds, whatever the machine does before; creating the
    directories, copying the files and looking for a port always come to an
    end. *)
Theorem constructor_returns_once_settled `{Extern}
    env config initData code w (n fuel : nat) :
  settled (be_ticks env n) = true ->
  (n < fuel)%nat ->
  exists r w', NewDenoFunctionInstance env fuel config initData code w = Some (r, w').
Proof.
  intros Hsettled Hfuel.
  destruct (constructor_cases env config initData code w)
    as [(e & w' & _ & Hrun)|(listenPort & inst1 & w1 & Hboot & Hrun)].
  - rewrite Hrun. eauto.
  - rewrite Hrun.
    destruct (waitLoop_settles (be_ticks env) listenPort n fuel 0 inst1 w1 Hboot
                Hsettled Hfuel) as ([[r inst] w2] & ->).
    destruct (lately (be_late env) inst w2) as [inst2 w6]. destruct r; eauto.
Qed.

Lemma constructor_returns_once_settled_witness :
  exists r w',
    NewDenoFunctionInstance (H := sampleExtern) bootenv_cancelled 3 config0 JNull code0
                            world0 = Some (r, w').
Proof.
  apply (constructor_returns_once_settled (H := sampleExtern)
           bootenv_cancelled config0 JNull code0 world0 2 3).
  - reflexivity.
  - lia.
Defined.

(** X19: the constructor has no time limit of its own.  With a child that
    keeps running, a server that never accepts a connection and a context
    that is never done, a construction that got as far as starting the child
    does not return, however many rounds it is given: the only results are
    the failures of the set-up. *)
Theorem constructor_has_no_timeout `{Extern} env config initData code w :
  (forall k, settled (be_ticks env k) = false) ->
  forall fuel,
    NewDenoFunctionInstance env fuel config initData code w = None
    \/ exists e w', NewDenoFunctionInstance env fuel config initData code w
                    = Some (Err e, w')
                    /\ setup_failure e /\ w_trace w' = w_trace w.
Proof.
  intros Hnever fuel.
  destruct (constructor_cases env config initData code w)
    as [(e & w' & He & Hrun)|(listenPort & inst1 & w1 & Hboot & Hrun)].
  - right. exists e, w'. split; [apply Hrun|]. split; [exact He|].
    destruct (constructor_failure env fuel config initData code w e w' (Hrun fuel))
      as [(_ & Htrace & _)
         |(w3 & lp & ports & inst2 & w5 & inst3 & w6 & _ & _ & Hloop & _)];
      [exact Htrace|].
    cbn zeta in Hloop.
    rewrite waitLoop_unsettled in Hloop; [discriminate|reflexivity|exact Hnever].
  - left. rewrite Hrun.
    destruct Hboot as (pid & _ & _ & _ & Hexited).
    rewrite (waitLoop_unsettled (be_ticks env) listenPort inst1 Hexited Hnever).
    reflexivity.
Qed.

Lemma constructor_has_no_timeout_witness :
  NewDenoFunctionInstance (H := sampleExtern) bootenv_never 50 config0 JNull code0 world0
  = None.
Proof.
  destruct (constructor_has_no_timeout (H := sampleExtern)
              bootenv_never config0 JNull code0 world0 (fun _ => eq_refl) 50)
    as [Hnone|(e & w' & Hrun & _)].
  - exact Hnone.
  - vm_compute in Hrun. discriminate Hrun.
Defined.

(** ** Copying the runtime files *)

Section Copying.
Context `{Extern}.

Lemma copyDenoFiles_range_app done rest destDir :
  forall w,
    copyDenoFiles_range (done ++ rest) destDir w
    = match copyDenoFiles_range done destDir w with
      | (Some err, w1) => (Some err, w1)
      | (None, w1) => copyDenoFiles_range rest destDir w1
      end.
Proof.
  induction done as [|[name buf] done IH]; intros w; [reflexivity|].
  cbn [app copyDenoFiles_range].
  destruct (os_WriteFile (destDir +:+ "/" +:+ name) buf w) as [[err|] w1];
    [reflexivity|apply IH].
Qed.

(** X20: [copyDenoFiles] stops at the first file it cannot write and does
    not clean up.  It returns "write file" around the cause; the files before
    that one have been written and stay; the files after it are as they
    were; and the file itself is as it was when it could not be opened, and
    otherwise is there with the bytes that were written before the failure,
    for the open creates or truncates it. *)
Theorem copyDenoFiles_stops_at_first_failure
    destDir w done name buf rest cause w1 w2 :
  denoFiles = done ++ (name, buf) :: rest ->
  NoDup (map fst denoFiles) ->
  (forall n, n ∈ map fst denoFiles -> file_name n = true) ->
  copyDenoFiles_range done destDir w = (None, w1) ->
  os_WriteFile (destDir +:+ "/" +:+ name) buf w1 = (Some cause, w2) ->
  copyDenoFiles destDir w = (Some (errors_Wrap cause "write file"), w2)
  /\ (forall n b, (n, b) ∈ done -> w_fs w2 !! (destDir +:+ "/" +:+ n) = Some (File b))
  /\ (forall n b, (n, b) ∈ rest ->
                  w_fs w2 !! (destDir +:+ "/" +:+ n) = w_fs w !! (destDir +:+ "/" +:+ n))
  /\ (w_fs w2 !! (destDir +:+ "/" +:+ name) = w_fs w !! (destDir +:+ "/" +:+ name)
      \/ exists content,
           w_fs w2 !! (destDir +:+ "/" +:+ name) = Some (File content)
           /\ (content = buf \/ exists n, content = substring 0 n buf)).
Proof.
  intros Hfiles Hnd _ Hdone Hfail.
  rewrite Hfiles, map_app in Hnd. apply NoDup_app in Hnd as (Hnd & Hdisjoint & Hnd').
  cbn [map fst] in Hdisjoint, Hnd'. apply NoDup_cons in Hnd' as [Hfresh _].
  destruct (copyDenoFiles_range_written destDir done Hnd w w1 Hdone) as [Hwritten Hother].
  assert (Hname : forall n, n <> name ->
                            w_fs w2 !! (destDir +:+ "/" +:+ n)
                            = w_fs w1 !! (destDir +:+ "/" +:+ n)).
  { intros n Hn. apply (os_WriteFile_other _ _ _ _ _ _ Hfail).
    intros Heq. apply append_inj_l in Heq. apply (append_inj_l "/" n name) in Heq.
    exact (Hn Heq). }
  assert (Hbefore : forall n, n ∉ map fst done ->
                              w_fs w1 !! (destDir +:+ "/" +:+ n)
                              = w_fs w !! (destDir +:+ "/" +:+ n)).
  { intros n Hn. apply Hother. intros n' Hn' Heq.
    apply append_inj_l in Heq. apply (append_inj_l "/" n n') in Heq. subst n'.
    exact (Hn Hn'). }
  assert (Hhere : name ∉ map fst done).
  { intros Hin. apply (Hdisjoint name Hin). apply elem_of_cons. left. reflexivity. }
  split; [|split; [|split]].
  - unfold copyDenoFiles. rewrite Hfiles, copyDenoFiles_range_app, Hdone.
    cbn [copyDenoFiles_range]. rewrite Hfail. reflexivity.
  - intros n b Hin. rewrite Hname; [exact (Hwritten n b Hin)|].
    intros ->. apply Hhere. apply list_elem_of_fmap. exists (name, b). auto.
  - intros n b Hin.
    assert (Hn : n ∈ map fst rest) by (apply list_elem_of_fmap; exists (n, b); auto).
    rewrite Hname; [apply Hbefore|].
    + intros Hin'. apply (Hdisjoint n Hin'). apply elem_of_cons. right. exact Hn.
    + intros ->. exact (Hfresh Hn).
  - destruct (os_WriteFile_failed _ _ _ _ _ Hfail) as [->|(content & -> & Hcontent)].
    + left. apply Hbefore. exact Hhere.
    + right. exists content. split; [|exact Hcontent].
      cbn [w_fs with_fs]. apply lookup_insert_eq.
Qed.
End Copying.

Lemma copyDenoFiles_stops_at_first_failure_witness :
  copyDenoFiles (H := threeExtern) (denoDir config0 code0) world0_full
  = (Some (errors_Wrap (sys_error "no space left on device") "write file"),
     world0_partial)
  /\ w_fs world0_partial !! (denoDir config0 code0 +:+ "/" +:+ "a.ts")
     = Some (File "// file a")
  /\ w_fs world0_full !! (denoDir config0 code0 +:+ "/" +:+ "b.ts")
     = Some (File "// old b")
  /\ w_fs world0_partial !! (denoDir config0 code0 +:+ "/" +:+ "b.ts")
     = Some (File "// f")
  /\ w_fs world0_partial !! (denoDir config0 code0 +:+ "/" +:+ "c.ts")
     = Some (File "// old c").
Proof.
  destruct (copyDenoFiles_stops_at_first_failure (H := threeExtern)
              (denoDir config0 code0) world0_full
              [("a.ts", "// file a")] "b.ts" "// file b" [("c.ts", "// file c")]
              (sys_error "no space left on device")
              (os_WriteFile (denoDir config0 code0 +:+ "/" +:+ "a.ts") "// file a"
                            world0_full).2
              world0_partial)
    as (Hstop & Hdone & Hrest & _).
  - reflexivity.
  - cbn [denoFiles threeExtern map fst].
    repeat (apply NoDup_cons; split;
            [intros Hin;
             repeat (apply elem_of_cons in Hin as [Heq|Hin]; [discriminate Heq|]);
             inversion Hin|]).
    apply NoDup_nil. exact I.
  - intros n Hn. repeat (apply elem_of_cons in Hn as [->|Hn]; [reflexivity|]).
    inversion Hn.
  - vm_compute. reflexivity.
  - vm_compute. reflexivity.
  - split; [exact Hstop|].
    split; [apply Hdone; apply list_elem_of_singleton; reflexivity|].
    split; [vm_compute; reflexivity|]. split; [vm_compute; reflexivity|].
    rewrite (Hrest "c.ts" "// file c"); [vm_compute; reflexivity|].
    apply list_elem_of_singleton. reflexivity.
Defined.
